(** * MADRS virtual-patient profile generators

    A shallow embedding of the three profile samplers of the repository
    ([generate_profiles_borentain.py], [generate_profiles_hopkins.py],
    [generate_profiles_hopkins_latent.py]) and of the clinical-rule pass.

    Python dictionaries with string keys are finite maps ([gmap string _]);
    a failing subscript raises, so every function that subscripts returns a
    [result].  Dictionaries whose iteration order is observed are ordered
    association lists.  Floating-point arithmetic and the pseudorandom
    generator are interfaces ([FloatOps], [RandomState]): the theorems hold
    for every implementation, and a small rational instance with a replayed
    tape of variates is used to run the samplers on concrete draws.

    After the samplers come the violation checker
    ([check_profile_violations.py]: both checks on a row, and the report of
    [main]), the run driver of the flat sampler
    ([generate_profiles_hopkins_run.py]), the severity bands of the analysis
    ([analyze_madrs_profiles.py]) and the header of the combined file
    ([generate_profiles.py]). *)

From stdpp Require Import gmap strings list fin_maps.
From Stdlib Require Import ZArith QArith Qround Lia.

#[local] Set Warnings "-clear-no-such-hyp".
Local Open Scope Z_scope.

(** ** Exceptions and results *)

Inductive exn : Type :=
| KeyError (k : string)
| IndexError
| ValueError
| ZeroDivisionError.

Inductive result (A : Type) : Type :=
| Ok (a : A)
| Raise (e : exn).

Arguments Ok {A} a.
Arguments Raise {A} e.

#[global] Instance result_ret : MRet result := λ A a, Ok a.
#[global] Instance result_bind : MBind result := λ A B f m,
  match m with
  | Ok a => f a
  | Raise e => Raise e
  end.

(** ** Dictionaries *)

(** [d[k]] *)
Definition getitem {V : Type} (d : gmap string V) (k : string) : result V :=
  match d !! k with
  | Some v => Ok v
  | None => Raise (KeyError k)
  end.

(** [sum(d.values())] on a dictionary of integers *)
Definition dict_sum (d : gmap string Z) : Z :=
  map_fold (λ _ v acc, acc + v) 0 d.

(** The ten items, in the order of [self.item_keys]. *)
Definition item_keys : list string :=
  [ "REPORTED_SADNESS"; "APPARENT_SADNESS"; "INNER_TENSION";
    "REDUCED_SLEEP"; "REDUCED_APPETITE"; "CONCENTRATION_DIFFICULTIES";
    "LASSITUDE"; "INABILITY_TO_FEEL"; "PESSIMISTIC_THOUGHTS";
    "SUICIDAL_THOUGHTS" ]%string.

(** A score mapping that has all ten items. *)
Definition complete (scores : gmap string Z) : Prop :=
  Forall (λ k, is_Some (scores !! k)) item_keys.

(** Every stored score is in [0,6]. *)
Definition in_range (scores : gmap string Z) : Prop :=
  map_Forall (λ _ v, 0 ≤ v ≤ 6) scores.

(** ** The clinical-rule pass ([HierarchicalMADRSGenerator._apply_madrs_rules]) *)

Module Rules.

(** Core Mood Gate *)
Definition mood_gate (scores : gmap string Z) : result (gmap string Z) :=
  rs ← getitem scores "REPORTED_SADNESS";
  if rs <=? 1 then
    st ← getitem scores "SUICIDAL_THOUGHTS";
    let scores := if 2 <? st then <["SUICIDAL_THOUGHTS" := 1]> scores else scores in
    pt ← getitem scores "PESSIMISTIC_THOUGHTS";
    let scores := if 2 <? pt then <["PESSIMISTIC_THOUGHTS" := 2]> scores else scores in
    Ok scores
  else Ok scores.

(** Anhedonia Link; [and] evaluates its right operand only when the left
    one holds. *)
Definition anhedonia_link (scores : gmap string Z) : result (gmap string Z) :=
  itf ← getitem scores "INABILITY_TO_FEEL";
  c ← (if 4 <=? itf then rs ← getitem scores "REPORTED_SADNESS"; Ok (rs <? 2)
       else Ok false);
  if c : bool then Ok (<["REPORTED_SADNESS" := 3]> scores) else Ok scores.

(** Tension and Sleep Link *)
Definition tension_sleep_link (scores : gmap string Z) : result (gmap string Z) :=
  it ← getitem scores "INNER_TENSION";
  c ← (if 4 <=? it then sl ← getitem scores "REDUCED_SLEEP"; Ok (sl =? 0)
       else Ok false);
  if c : bool then Ok (<["REDUCED_SLEEP" := 2]> scores) else Ok scores.

(** The three rules by name, to apply them in another order than the
    source does; the guard of the source
    ([if "REPORTED_SADNESS" in scores]) stays around them. *)
Inductive rule : Type := MoodGate | AnhedoniaLink | TensionSleepLink.

Definition run_rule (r : rule) : gmap string Z → result (gmap string Z) :=
  match r with
  | MoodGate => mood_gate
  | AnhedoniaLink => anhedonia_link
  | TensionSleepLink => tension_sleep_link
  end.

Definition implemented_order : list rule :=
  [MoodGate; AnhedoniaLink; TensionSleepLink].

Definition apply_in_order (order : list rule) (scores : gmap string Z) :
    result (gmap string Z) :=
  if decide (is_Some (scores !! "REPORTED_SADNESS")) then
    foldl (λ acc r, s ← acc; run_rule r s) (Ok scores) order
  else Ok scores.

(** Scanning an order from its start, the mood gate is met before the
    anhedonia link. *)
Fixpoint gate_first (order : list rule) : bool :=
  match order with
  | [] => false
  | MoodGate :: _ => true
  | AnhedoniaLink :: _ => false
  | TensionSleepLink :: order => gate_first order
  end.

Definition _apply_madrs_rules (scores : gmap string Z) : result (gmap string Z) :=
  if decide (is_Some (scores !! "REPORTED_SADNESS")) then
    scores ← mood_gate scores;
    scores ← anhedonia_link scores;
    scores ← tension_sleep_link scores;
    Ok scores
  else Ok scores.

End Rules.

(** A dictionary literal over the ten items, in the order of [item_keys]. *)
Definition profile_of (vs : list Z) : gmap string Z :=
  list_to_map (zip item_keys vs).


(** The scores of the ten items, in the order of [item_keys]. *)
Definition scores_of (scores : gmap string Z) : list (option Z) :=
  (λ k, scores !! k) <$> item_keys.



(** ** The clinical checks of the violation checker
    ([check_profile_violations.py], [check_clinical_rules]); a violation is
    kept as the name of its rule. *)
Module Checker.

Definition check_clinical_rules (s : gmap string Z) : result (list string) :=
  let violations := [] in
  (* Rule 1: Core Mood Gate *)
  rs ← getitem s "REPORTED_SADNESS";
  c ← (if rs <=? 1 then st ← getitem s "SUICIDAL_THOUGHTS"; Ok (2 <? st)
       else Ok false);
  let violations := if c : bool then violations ++ ["mood_gate_suicidal"%string]
                    else violations in
  (* Rule 2: Core Mood Gate *)
  rs ← getitem s "REPORTED_SADNESS";
  c ← (if rs <=? 1 then pt ← getitem s "PESSIMISTIC_THOUGHTS"; Ok (2 <? pt)
       else Ok false);
  let violations := if c : bool then violations ++ ["mood_gate_pessimism"%string]
                    else violations in
  (* Rule 3: Anhedonia Link *)
  itf ← getitem s "INABILITY_TO_FEEL";
  c ← (if 4 <=? itf then rs ← getitem s "REPORTED_SADNESS"; Ok (rs <? 2)
       else Ok false);
  let violations := if c : bool then violations ++ ["anhedonia_requires_sadness"%string]
                    else violations in
  (* Rule 4: Tension and Sleep Link *)
  it ← getitem s "INNER_TENSION";
  c ← (if 4 <=? it then sl ← getitem s "REDUCED_SLEEP"; Ok (sl =? 0)
       else Ok false);
  let violations := if c : bool
                    then violations ++ ["tension_requires_sleep_disturbance"%string]
                    else violations in
  Ok violations.

End Checker.
(** ** Lists as arrays, ordered dictionaries *)

(** [a[i]] on a list or an array *)
Definition index_get {A : Type} (a : list A) (i : nat) : result A :=
  match a !! i with
  | Some x => Ok x
  | None => Raise IndexError
  end.

(** [a[i] = x] on a list or an array *)
Definition index_set {A : Type} (a : list A) (i : nat) (x : A) : result (list A) :=
  if decide (i < length a)%nat then Ok (<[i := x]> a) else Raise IndexError.

(** [dict(pairs)]: a later pair overrides an earlier one with the same key. *)
Definition dict {V : Type} (pairs : list (string * V)) : gmap string V :=
  foldl (λ d kv, <[kv.1 := kv.2]> d) ∅ pairs.

(** A dictionary whose iteration order is observed: the pairs in insertion
    order, with distinct keys. *)
Definition odict (V : Type) : Type := list (string * V).

Fixpoint od_get {V : Type} (d : odict V) (k : string) : result V :=
  match d with
  | [] => Raise (KeyError k)
  | (k', v) :: d => if decide (k' = k) then Ok v else od_get d k
  end.

(** [d[k] = v]: an existing key keeps its position, a new one goes last. *)
Fixpoint od_set {V : Type} (d : odict V) (k : string) (v : V) : odict V :=
  match d with
  | [] => [(k, v)]
  | (k', v') :: d => if decide (k' = k) then (k, v) :: d else (k', v') :: od_set d k v
  end.

(** ** Floating point

    The samplers compute on IEEE doubles.  No property below depends on
    how the operations round, so they are an interface. *)
Class FloatOps (F : Type) : Type := {
  float : Z → F;          (* float(n), the conversion of an int operand *)
  literal : Q → F;        (* a decimal literal of the source *)
  fadd : F → F → F;
  fsub : F → F → F;
  fmul : F → F → F;
  fdiv : F → F → F;
  flt : F → F → bool;     (* a < b *)
  fexp : F → F;           (* np.exp *)
  round_int : F → Z       (* int(round(x)) *)
}.

(** [sum] of floats, left to right from 0 *)
Definition fsum `{FloatOps F} (xs : list F) : F := foldl fadd (float 0) xs.

(** [min(a, b)] of Python: the first of the smallest *)
Definition fmin `{FloatOps F} (a b : F) : F := if flt b a then b else a.

(** ** The pseudorandom generator

    [np.random] is process-wide state.  Its draws are an interface with the
    two facts the samplers rely on: a multivariate normal sample has the
    dimension of its mean, and [choice] returns one of the offered
    elements.  Draws are finite floats. *)
Record RandomState (F : Type) : Type := {
  rng : Type;
  normal : F → F → rng → F * rng;
  multivariate_normal : list F → list (list F) → rng → list F * rng;
  choice : list nat → list F → rng → nat * rng;
  multivariate_normal_length : ∀ mean cov r,
    length (multivariate_normal mean cov r).1 = length mean;
  choice_elem : ∀ a p r, a ≠ [] → (choice a p r).1 ∈ a
}.

Arguments rng {F} _.
Arguments normal {F} _ _ _ _.
Arguments multivariate_normal {F} _ _ _ _.
Arguments choice {F} _ _ _ _.
Arguments multivariate_normal_length {F} _ _ _ _.
Arguments choice_elem {F} _ _ _ _ _.

(** ** State and exceptions *)

Definition M (S A : Type) : Type := S → result A * S.

#[global] Instance M_ret {S} : MRet (M S) := λ A a s, (Ok a, s).
#[global] Instance M_bind {S} : MBind (M S) := λ A B f m s,
  match m s with
  | (Ok a, s') => f a s'
  | (Raise e, s') => (Raise e, s')
  end.

Definition lift {S A : Type} (r : result A) : M S A := λ s, (r, s).

(** [for x in xs: acc = body(acc, x)] *)
Fixpoint for_each {S A B : Type} (body : B → A → M S B) (xs : list A) (acc : B) : M S B :=
  match xs with
  | [] => mret acc
  | x :: xs => acc ← body acc x; for_each body xs acc
  end.

(** the same loop for a body that does not touch the state *)
Fixpoint for_each_pure {A B : Type} (body : B → A → result B) (xs : list A) (acc : B) : result B :=
  match xs with
  | [] => Ok acc
  | x :: xs => acc ← body acc x; for_each_pure body xs acc
  end.

(** [[x for x in xs if test(x)]] *)
Fixpoint filter_r {A : Type} (test : A → result bool) (xs : list A) : result (list A) :=
  match xs with
  | [] => Ok []
  | x :: xs =>
      b ← test x;
      ys ← filter_r test xs;
      Ok (if b : bool then x :: ys else ys)
  end.
(** ** Array helpers shared by the two point-distribution loops *)

(** [a[mask]] for a boolean mask of the length of [a] *)
Fixpoint mask_select {A : Type} (a : list A) (mask : list bool) : list A :=
  match a, mask with
  | x :: a, b :: mask => if b then x :: mask_select a mask else mask_select a mask
  | _, _ => []
  end.

(** [np.where(mask)[0]]: the positions that hold [True], counted from [i] *)
Fixpoint np_where_from (i : nat) (mask : list bool) : list nat :=
  match mask with
  | [] => []
  | b :: mask => if b then i :: np_where_from (S i) mask else np_where_from (S i) mask
  end.

Definition np_where (mask : list bool) : list nat := np_where_from 0 mask.

(** [enumerate(xs)] *)
Definition enumerate {A : Type} (xs : list A) : list (nat * A) := imap pair xs.

(** [xs / xs.sum()] *)
Definition normalize `{FloatOps F} (xs : list F) : list F :=
  (λ x, fdiv x (fsum xs)) <$> xs.

Section Draws.
Context {F : Type} (R : RandomState F).

Definition np_multivariate_normal (mean : list F) (cov : list (list F)) :
    M (rng R) (list F) :=
  λ r, let '(x, r') := multivariate_normal R mean cov r in (Ok x, r').

Definition np_choice (a : list nat) (p : list F) : M (rng R) nat :=
  λ r, let '(i, r') := choice R a p r in (Ok i, r').

End Draws.

(** ** The correlation-matrix sampler ([generate_profiles_borentain.py]) *)

(** The frame read from the CSV file: row labels and the matrix. *)
Record DataFrame (F : Type) : Type := {
  df_index : list string;
  df_values : list (list F)
}.

Arguments df_index {F} _.
Arguments df_values {F} _.

Module Borentain.
Section Sampler.
Context {F : Type} `{FloatOps F} (R : RandomState F).

(** The [while remaining_points > 0] loop; every iteration that does not
    [break] takes one point off [remaining_points]. *)
Fixpoint distribute (probs : list F) (remaining_points : nat)
    (final_scores : list Z) : M (rng R) (list Z) :=
  match remaining_points with
  | O => mret final_scores
  | S remaining_points =>
      let valid_mask := (λ s, bool_decide (s < 6)) <$> final_scores in
      if negb (existsb id valid_mask) then mret final_scores
      else
        let current_probs := normalize (mask_select probs valid_mask) in
        let valid_indices := np_where valid_mask in
        idx ← np_choice R valid_indices current_probs;
        v ← lift (index_get final_scores idx);
        final_scores ← lift (index_set final_scores idx (v + 1));
        distribute probs remaining_points final_scores
  end.

Definition generate_from_matrix (df : DataFrame F) (target_score : Z) :
    M (rng R) (gmap string Z) :=
  let corr_matrix := df_values df in
  let n_items := length (df_index df) in
  raw_sample ← np_multivariate_normal R (replicate n_items (float 0)) corr_matrix;
  let beta := literal 1.5 in
  let exp_s := (λ x, fexp (fmul x beta)) <$> raw_sample in
  let probs := normalize exp_s in
  let final_scores := replicate n_items 0 in
  final_scores ← distribute probs (Z.to_nat target_score) final_scores;
  mret (dict (zip (df_index df) final_scores)).

End Sampler.
End Borentain.

(** ** The flat factor-loading sampler ([generate_profiles_hopkins.py]) *)

Module Hopkins.
Section Sampler.
Context {F : Type} `{FloatOps F} (R : RandomState F).

Definition loadings : odict (odict F) :=
  [ ("SADNESS", [ ("APPARENT_SADNESS", literal 0.79);
                  ("REPORTED_SADNESS", literal 0.74) ]);
    ("NEUROVEG", [ ("INNER_TENSION", literal 0.37);
                   ("REDUCED_SLEEP", literal 0.36);
                   ("REDUCED_APPETITE", literal 0.42) ]);
    ("DETACH", [ ("CONCENTRATION_DIFFICULTIES", literal 0.52);
                 ("LASSITUDE", literal 0.61);
                 ("INABILITY_TO_FEEL", literal 0.64) ]);
    ("NEG_THOUGHT", [ ("PESSIMISTIC_THOUGHTS", literal 0.79);
                      ("SUICIDAL_THOUGHTS", literal 0.29) ]) ]%string.

Definition factor_names : list string :=
  [ "SADNESS"; "NEUROVEG"; "DETACH"; "NEG_THOUGHT" ]%string.

Definition factor_corr : list (list F) :=
  [ [literal 1.00; literal 0.83; literal 0.69; literal 0.38];
    [literal 0.83; literal 1.00; literal 0.88; literal 0.57];
    [literal 0.69; literal 0.88; literal 1.00; literal 0.62];
    [literal 0.38; literal 0.57; literal 0.62; literal 1.00] ].

(** Step B: the propensity of every item, in the order of the loadings. *)
Definition propensities_of (factor_map : gmap string F) : result (odict F) :=
  for_each_pure (λ propensities (fi : string * odict F),
    for_each_pure (λ propensities (il : string * F),
      fv ← getitem factor_map fi.1;
      let val := fmul fv il.2 in
      Ok (od_set propensities il.1 (fexp val)))
      fi.2 propensities)
    loadings [].

(** The [while points_to_assign > 0] loop. *)
Fixpoint assign (items : list string) (probs : list F) (points_to_assign : nat)
    (scores : gmap string Z) : M (rng R) (gmap string Z) :=
  match points_to_assign with
  | O => mret scores
  | S points_to_assign =>
      valid ← lift (filter_r (λ ii : nat * string,
                                s ← getitem scores ii.2; Ok (s <? 6))
                             (enumerate items));
      let valid_indices := valid.*1 in
      match valid_indices with
      | [] => mret scores
      | _ =>
          ps ← lift (mapM (index_get probs) valid_indices);
          let p_sub := normalize ps in
          idx ← np_choice R valid_indices p_sub;
          item ← lift (index_get items idx);
          s ← lift (getitem scores item);
          assign items probs points_to_assign (<[item := s + 1]> scores)
      end
  end.

Definition generate (target_score : Z) : M (rng R) (gmap string Z) :=
  latent_values ← np_multivariate_normal R (replicate 4 (float 0)) factor_corr;
  let factor_map := dict (zip factor_names latent_values) in
  propensities ← lift (propensities_of factor_map);
  let items := propensities.*1 in
  let probs := normalize propensities.*2 in
  let scores := dict ((λ item, (item, 0)) <$> items) in
  assign items probs (Z.to_nat target_score) scores.

End Sampler.
End Hopkins.
(** ** The hierarchical sampler ([generate_profiles_hopkins_latent.py]) *)

Module Latent.
Section Sampler.
Context {F : Type} `{FloatOps F} (R : RandomState F).

Definition item_to_factor : odict nat :=
  [ ("REPORTED_SADNESS", 0); ("APPARENT_SADNESS", 0);
    ("INNER_TENSION", 1); ("REDUCED_SLEEP", 1); ("REDUCED_APPETITE", 1);
    ("CONCENTRATION_DIFFICULTIES", 2); ("LASSITUDE", 2); ("INABILITY_TO_FEEL", 2);
    ("PESSIMISTIC_THOUGHTS", 3); ("SUICIDAL_THOUGHTS", 3) ]%string%nat.

Definition item_residual_sd : gmap string F :=
  dict [ ("REPORTED_SADNESS", literal 0.5);
         ("APPARENT_SADNESS", literal 0.5);
         ("INNER_TENSION", literal 0.5);
         ("REDUCED_SLEEP", literal 0.5);
         ("REDUCED_APPETITE", literal 0.5);
         ("CONCENTRATION_DIFFICULTIES", literal 0.5);
         ("LASSITUDE", literal 0.50);
         ("INABILITY_TO_FEEL", literal 0.5);
         ("PESSIMISTIC_THOUGHTS", literal 0.5);
         ("SUICIDAL_THOUGHTS", literal 0.5) ]%string.

Definition item_offsets : gmap string F :=
  dict [ ("REPORTED_SADNESS", float 2); ("APPARENT_SADNESS", float 0);
         ("INNER_TENSION", literal 0.0); ("REDUCED_SLEEP", literal 0.0);
         ("REDUCED_APPETITE", literal (-0.2));
         ("CONCENTRATION_DIFFICULTIES", literal 0.0); ("LASSITUDE", literal 0.0);
         ("INABILITY_TO_FEEL", literal (-0.5));
         ("PESSIMISTIC_THOUGHTS", literal (-0.5));
         ("SUICIDAL_THOUGHTS", literal (-2.0)) ]%string.

(** The state a call runs in: the generator's array attribute and the
    process-wide random stream. *)
Record Heap : Type := {
  self_base_factor_corr : list (list F);
  np_random : rng R
}.

(** [__init__]: the base factor correlation matrix. *)
Definition init_base_factor_corr : list (list F) :=
  [ [literal 1.00; literal 0.6; literal 0.60; literal 0.6];
    [literal 0.6; literal 1.00; literal 0.60; literal 0.6];
    [literal 0.6; literal 0.6; literal 1.00; literal 0.6];
    [literal 0.6; literal 0.6; literal 0.6; literal 1.00] ].

(** A heap whose generator is as [__init__] leaves it. *)
Definition constructed (h : Heap) : Prop :=
  self_base_factor_corr h = init_base_factor_corr.

Definition with_random (step : M (rng R) (list F)) : M Heap (list F) :=
  λ h, let '(x, r') := step (np_random h) in
       (x, {| self_base_factor_corr := self_base_factor_corr h; np_random := r' |}).

Definition np_normal (loc scale : F) : M Heap F :=
  λ h, let '(x, r') := normal R loc scale (np_random h) in
       (Ok x, {| self_base_factor_corr := self_base_factor_corr h; np_random := r' |}).

(** [cov[i, j] *= scale] *)
Definition scale_entry (scale : F) (cov : list (list F)) (i j : nat) :
    result (list (list F)) :=
  row ← index_get cov i;
  x ← index_get row j;
  row ← index_set row j (fmul x scale);
  index_set cov i row.

(** [_severity_scaled_cov]: the scaling acts on a copy, the attribute is
    only read. *)
Definition _severity_scaled_cov (target_score : Z) : M Heap (list (list F)) :=
  λ h,
    let scale := fmin (literal 1.0) (fdiv (float target_score) (literal 30.0)) in
    let cov := self_base_factor_corr h in
    (for_each_pure (λ cov i,
       for_each_pure (λ cov j,
         if decide (i ≠ j) then scale_entry scale cov i j else Ok cov)
         (seq 0 4) cov)
       (seq 0 4) cov, h).

(** Step 1: the mean of factor [f_idx]. *)
Definition factor_mean (base_per_item : F) (f_idx : nat) : result F :=
  let items_in_f := (filter (λ kv : string * nat, kv.2 = f_idx) item_to_factor).*1 in
  offsets ← mapM (getitem item_offsets) items_in_f;
  let f_offset_sum := fsum offsets in
  let n := Z.of_nat (length items_in_f) in
  if n =? 0 then Raise ZeroDivisionError
  else Ok (fdiv (fsub (fmul base_per_item (float n)) f_offset_sum) (float n)).

(** Step 3, the body of the loop over the items. *)
Definition sample_item (factor_scores : list F)
    (acc : gmap string F * gmap string Z) (item : string) :
    M Heap (gmap string F * gmap string Z) :=
  let '(continuous, discrete) := acc in
  f_idx ← lift (od_get item_to_factor item);
  fs ← lift (index_get factor_scores f_idx);
  off ← lift (getitem item_offsets item);
  let item_mean := fadd fs off in
  sd ← lift (getitem item_residual_sd item);
  sampled ← np_normal item_mean sd;
  mret (<[item := sampled]> continuous,
        <[item := Z.max 0 (Z.min 6 (round_int sampled))]> discrete).

(** Steps 1 to 3: the continuous and the discretized item values. *)
Definition sample_items (target_score : Z) :
    M Heap (gmap string F * gmap string Z) :=
  let base_per_item := fdiv (float target_score) (literal 10.0) in
  factor_means ← lift (mapM (factor_mean base_per_item) (seq 0 4));
  factor_cov ← _severity_scaled_cov target_score;
  factor_scores ← with_random (np_multivariate_normal R factor_means factor_cov);
  for_each (sample_item factor_scores) item_keys (∅, ∅).

(** [max(cands, key=key)]: the first candidate with the largest key. *)
Fixpoint max_from {A : Type} (key : A → result F) (best : A) (best_key : F)
    (cands : list A) : result A :=
  match cands with
  | [] => Ok best
  | x :: cands =>
      kx ← key x;
      if flt best_key kx then max_from key x kx cands
      else max_from key best best_key cands
  end.

Definition py_max {A : Type} (cands : list A) (key : A → result F) : result A :=
  match cands with
  | [] => Raise ValueError
  | x :: cands => kx ← key x; max_from key x kx cands
  end.

(** Step 4: [for _ in range(100)], with the iterations left as [fuel]. *)
Fixpoint adjust (target_score : Z) (continuous : gmap string F) (fuel : nat)
    (current_sum : Z) (discrete : gmap string Z) : result (gmap string Z) :=
  match fuel with
  | O => Ok discrete
  | S fuel =>
      if current_sum =? target_score then Ok discrete
      else if current_sum <? target_score then
        cands ← filter_r (λ k, d ← getitem discrete k; Ok (d <? 6)) item_keys;
        match cands with
        | [] => Ok discrete
        | _ =>
            best ← py_max cands (λ k, c ← getitem continuous k;
                                      d ← getitem discrete k;
                                      Ok (fsub c (float d)));
            d ← getitem discrete best;
            let discrete := <[best := d + 1]> discrete in
            adjust target_score continuous fuel (dict_sum discrete) discrete
        end
      else
        cands ← filter_r (λ k, d ← getitem discrete k; Ok (0 <? d)) item_keys;
        match cands with
        | [] => Ok discrete
        | _ =>
            best ← py_max cands (λ k, d ← getitem discrete k;
                                      c ← getitem continuous k;
                                      Ok (fsub (float d) c));
            d ← getitem discrete best;
            let discrete := <[best := d - 1]> discrete in
            adjust target_score continuous fuel (dict_sum discrete) discrete
        end
  end.

Definition adjustment_loop (target_score : Z) (continuous : gmap string F)
    (discrete : gmap string Z) : result (gmap string Z) :=
  let current_sum := dict_sum discrete in
  adjust target_score continuous 100 current_sum discrete.

Definition generate_profile (target_score : Z) : M Heap (option (gmap string Z)) :=
  if negb ((0 <=? target_score) && (target_score <=? 60)) then mret None
  else
    '(continuous, discrete) ← sample_items target_score;
    discrete ← lift (adjustment_loop target_score continuous discrete);
    discrete ← lift (Rules._apply_madrs_rules discrete);
    mret (Some discrete).

End Sampler.
End Latent.
(** ** An executable instance: rationals and a replayed tape of draws

    Every finite double is a rational, and on the small values used below
    the rational operations are the exact floating-point ones.  The
    generator replays recorded variates: [normal] and
    [multivariate_normal] return the next recorded values, [choice] the
    offered element at the next recorded position. *)

Module Replay.

Definition Qround_half_even (x : Q) : Z :=
  let f := Qfloor x in
  match Qcompare (x - inject_Z f) (1 # 2) with
  | Lt => f
  | Gt => f + 1
  | Eq => if Z.even f then f else f + 1
  end.

(** A polynomial stand-in for the exponential (degree 8, Horner form). *)
Definition Qexp (x : Q) : Q :=
  Qred (fold_right (λ k acc, 1 + x * acc / inject_Z (Z.of_nat k))%Q 1%Q (seq 1 8)).

#[global] Instance Q_float : FloatOps Q := {|
  float := inject_Z;
  literal := λ q, q;
  fadd := λ a b, Qred (a + b);
  fsub := λ a b, Qred (a - b);
  fmul := λ a b, Qred (a * b);
  fdiv := λ a b, Qred (a / b);
  flt := λ a b, negb (Qle_bool b a);
  fexp := Qexp;
  round_int := Qround_half_even
|}.

Record tape : Type := {
  variates : list Q;
  picks : list nat
}.

Definition next_normal (loc scale : Q) (t : tape) : Q * tape :=
  match variates t with
  | x :: xs => (x, {| variates := xs; picks := picks t |})
  | [] => (loc, t)
  end.

(** As many recorded variates as the mean has components; the mean itself
    where the tape has run out. *)
Fixpoint replay (mean : list Q) (xs : list Q) : list Q * list Q :=
  match mean, xs with
  | [], _ => ([], xs)
  | m :: mean, [] => let '(ys, rest) := replay mean [] in (m :: ys, rest)
  | _ :: mean, x :: xs => let '(ys, rest) := replay mean xs in (x :: ys, rest)
  end.

Definition next_multivariate_normal (mean : list Q) (cov : list (list Q))
    (t : tape) : list Q * tape :=
  let '(ys, rest) := replay mean (variates t) in
  (ys, {| variates := rest; picks := picks t |}).

Definition next_choice (a : list nat) (p : list Q) (t : tape) : nat * tape :=
  match picks t with
  | n :: ns => (nth (n mod length a) a 0%nat, {| variates := variates t; picks := ns |})
  | [] => (hd 0%nat a, t)
  end.

Lemma replay_length mean xs : length (replay mean xs).1 = length mean.
Proof.
  revert xs. induction mean as [|m mean IH]; intros xs; [done|].
  destruct xs as [|x xs]; simpl.
  - specialize (IH []). destruct (replay mean []). simpl in *. by rewrite IH.
  - specialize (IH xs). destruct (replay mean xs). simpl in *. by rewrite IH.
Qed.

Lemma next_multivariate_normal_length mean cov t :
  length (next_multivariate_normal mean cov t).1 = length mean.
Proof.
  unfold next_multivariate_normal. pose proof (replay_length mean (variates t)).
  by destruct (replay mean (variates t)).
Qed.

Lemma next_choice_elem a p t : a ≠ [] → (next_choice a p t).1 ∈ a.
Proof.
  intros Ha. unfold next_choice. destruct (picks t) as [|n ns]; simpl.
  - destruct a; [done|]. simpl. left.
  - apply list_elem_of_In, nth_In. apply Nat.mod_upper_bound.
    by destruct a.
Qed.

Definition random_state : RandomState Q := {|
  rng := tape;
  normal := next_normal;
  multivariate_normal := next_multivariate_normal;
  choice := next_choice;
  multivariate_normal_length := next_multivariate_normal_length;
  choice_elem := next_choice_elem
|}.

(** The heap of a freshly constructed hierarchical generator. *)
Definition fresh (t : tape) : Latent.Heap random_state :=
  @Latent.Build_Heap Q random_state Latent.init_base_factor_corr t.

(** Recorded draws: four factor scores, then the ten item values in the
    order of [item_keys]; positions for [choice]. *)
Definition recorded : tape :=
  {| variates := [2.1; 3.3; 3.4; 2.4; 4.6; 3; 2.5; 1.2; 3; 3.5; 4; 2; 1.4; 0.5]%Q;
     picks := [0; 1; 12; 3; 4; 9; 9]%nat |}.

(** Draws that already sum to the target 12, with low sadness and high
    pessimistic and suicidal thoughts. *)
Definition drift_down : tape :=
  {| variates := [0.2; 1.3; 1.4; 2.4; 0; 0; 0; 0; 0; 0; 0; 0; 6; 6]%Q;
     picks := [] |}.

(** Draws that already sum to the target 8, with high inner tension and
    inability to feel but no sadness and no sleep reduction. *)
Definition drift_up : tape :=
  {| variates := [0.2; 1.3; 1.4; 2.4; 0; 0; 4; 0; 0; 0; 0; 4; 0; 0]%Q;
     picks := [] |}.

(** The ten identifiers as rows of a correlation matrix (the identity). *)
Definition identity_frame : DataFrame Q :=
  {| df_index := item_keys;
     df_values := (λ i, (λ j, if decide (i = j) then 1%Q else 0%Q) <$> seq 0 10) <$> seq 0 10 |}.

End Replay.

(** ** Vocabulary of the proofs *)

(** The pass reads and writes six items only.  Its effect on a mapping is
    the effect on these six values, written back. *)
Record view : Type := View {
  v_rs : Z;  (* REPORTED_SADNESS *)
  v_st : Z;  (* SUICIDAL_THOUGHTS *)
  v_pt : Z;  (* PESSIMISTIC_THOUGHTS *)
  v_itf : Z; (* INABILITY_TO_FEEL *)
  v_it : Z;  (* INNER_TENSION *)
  v_sl : Z   (* REDUCED_SLEEP *)
}.

Definition has_view (scores : gmap string Z) (v : view) : Prop :=
  scores !! "REPORTED_SADNESS" = Some (v_rs v) ∧
  scores !! "SUICIDAL_THOUGHTS" = Some (v_st v) ∧
  scores !! "PESSIMISTIC_THOUGHTS" = Some (v_pt v) ∧
  scores !! "INABILITY_TO_FEEL" = Some (v_itf v) ∧
  scores !! "INNER_TENSION" = Some (v_it v) ∧
  scores !! "REDUCED_SLEEP" = Some (v_sl v).

Definition write_view (v : view) (scores : gmap string Z) : gmap string Z :=
  <["REPORTED_SADNESS" := v_rs v]>
    (<["SUICIDAL_THOUGHTS" := v_st v]>
       (<["PESSIMISTIC_THOUGHTS" := v_pt v]>
          (<["INABILITY_TO_FEEL" := v_itf v]>
             (<["INNER_TENSION" := v_it v]>
                (<["REDUCED_SLEEP" := v_sl v]> scores))))).

Definition gate_v (v : view) : view :=
  if v_rs v <=? 1 then
    View (v_rs v) (if 2 <? v_st v then 1 else v_st v)
         (if 2 <? v_pt v then 2 else v_pt v) (v_itf v) (v_it v) (v_sl v)
  else v.

Definition anhedonia_v (v : view) : view :=
  if (4 <=? v_itf v) && (v_rs v <? 2) then
    View 3 (v_st v) (v_pt v) (v_itf v) (v_it v) (v_sl v)
  else v.

Definition tension_v (v : view) : view :=
  if (4 <=? v_it v) && (v_sl v =? 0) then
    View (v_rs v) (v_st v) (v_pt v) (v_itf v) (v_it v) 2
  else v.

(** The whole pass on the view. *)
Definition pass_v (v : view) : view := tension_v (anhedonia_v (gate_v v)).

(** The clinical invariants, on a view. *)
Definition plausible_v (v : view) : Prop :=
  (v_rs v ≤ 1 → v_st v ≤ 2 ∧ v_pt v ≤ 2) ∧
  (4 ≤ v_itf v → 2 ≤ v_rs v) ∧
  (4 ≤ v_it v → v_sl v ≠ 0).

(** The rule of a given name, on the view. *)
Definition rule_v (r : Rules.rule) : view → view :=
  match r with
  | Rules.MoodGate => gate_v
  | Rules.AnhedoniaLink => anhedonia_v
  | Rules.TensionSleepLink => tension_v
  end.

Definition range_v (v : view) : Prop :=
  0 ≤ v_rs v ≤ 6 ∧ 0 ≤ v_st v ≤ 6 ∧ 0 ≤ v_pt v ≤ 6 ∧
  0 ≤ v_itf v ≤ 6 ∧ 0 ≤ v_it v ≤ 6 ∧ 0 ≤ v_sl v ≤ 6.

(** The sum of the six items of a view. *)
Definition total_v (v : view) : Z :=
  v_rs v + v_st v + v_pt v + v_itf v + v_it v + v_sl v.

(** [final_scores.sum()] *)
Definition Zsum (xs : list Z) : Z := foldr Z.add 0 xs.

(** A dictionary over exactly the keys [items], every value in [0,6]. *)
Definition scores_over (items : list string) (scores : gmap string Z) : Prop :=
  dom scores = list_to_set items ∧ in_range scores.

(** The items in the order of the loadings table. *)
Definition items_by_factor : list string :=
  [ "APPARENT_SADNESS"; "REPORTED_SADNESS"; "INNER_TENSION"; "REDUCED_SLEEP";
    "REDUCED_APPETITE"; "CONCENTRATION_DIFFICULTIES"; "LASSITUDE";
    "INABILITY_TO_FEEL"; "PESSIMISTIC_THOUGHTS"; "SUICIDAL_THOUGHTS" ]%string.

(** The tables of the generator know the item. *)
Definition configured {F : Type} `{FloatOps F} (item : string) : Prop :=
  ∃ f_idx off sd,
    od_get Latent.item_to_factor item = Ok f_idx ∧ (f_idx < 4)%nat ∧
    getitem Latent.item_offsets item = Ok off ∧
    getitem Latent.item_residual_sd item = Ok sd.

(** A computation that leaves [self.base_factor_corr] as it found it. *)
Definition preserves_self {F : Type} (R : RandomState F) {A : Type}
    (m : M (Latent.Heap R) A) : Prop :=
  ∀ h, Latent.self_base_factor_corr R (m h).2 = Latent.self_base_factor_corr R h.

(** ** The violation checker on rows ([check_profile_violations.py])

    A row is one record of the profiles table; the checker reads its
    integer columns only (the ten items, [target_score], and in [main]
    [profile_id] and [actual_total_score]), so a row is the mapping of
    these columns. *)

Module Violations.

Definition ITEM_COLS : list string :=
  [ "REPORTED_SADNESS"; "APPARENT_SADNESS"; "INNER_TENSION";
    "REDUCED_SLEEP"; "REDUCED_APPETITE"; "CONCENTRATION_DIFFICULTIES";
    "LASSITUDE"; "INABILITY_TO_FEEL"; "PESSIMISTIC_THOUGHTS";
    "SUICIDAL_THOUGHTS" ]%string.

(** [{k: int(row[k]) for k in ITEM_COLS}] *)
Definition item_scores (row : gmap string Z) : result (gmap string Z) :=
  for_each_pure (λ s k, v ← getitem row k; Ok (<[k := v]> s)) ITEM_COLS ∅.

(** [check_generating_rules]; a violation is kept as the name of its rule. *)
Definition check_generating_rules (row : gmap string Z) : result (list string) :=
  let violations := [] in
  s ← item_scores row;
  (* 1. Apparent sadness should be within ±1 of reported sadness *)
  a ← getitem s "APPARENT_SADNESS";
  r ← getitem s "REPORTED_SADNESS";
  let diff := Z.abs (a - r) in
  let violations :=
    if 1 <? diff
    then violations ++ ["apparent_sadness_within_1_of_reported"%string]
    else violations in
  (* 2. Suicidal thoughts bounded by sadness level *)
  r ← getitem s "REPORTED_SADNESS";
  max_suicide ←
    (if r <=? 1 then Ok 1
     else r ← getitem s "REPORTED_SADNESS";
          if r <=? 3
          then r ← getitem s "REPORTED_SADNESS"; Ok (Z.min 3 (r + 1))
          else Ok 6);
  r ← getitem s "REPORTED_SADNESS";
  violations ←
    (if r =? 0 then
       t ← getitem s "SUICIDAL_THOUGHTS";
       Ok (if 0 <? t
           then violations ++ ["suicidal_zero_when_no_sadness"%string]
           else violations)
     else
       t ← getitem s "SUICIDAL_THOUGHTS";
       Ok (if max_suicide <? t
           then violations ++ ["suicidal_thoughts_bounded_by_sadness"%string]
           else violations));
  (* 3. Pessimistic thoughts bounded: [0, min(6, sadness + 2)] *)
  r ← getitem s "REPORTED_SADNESS";
  violations ←
    (if r =? 0 then
       p ← getitem s "PESSIMISTIC_THOUGHTS";
       Ok (if 0 <? p
           then violations ++ ["pessimism_zero_when_no_sadness"%string]
           else violations)
     else
       r ← getitem s "REPORTED_SADNESS";
       let max_pessimism := Z.min 6 (r + 2) in
       p ← getitem s "PESSIMISTIC_THOUGHTS";
       Ok (if max_pessimism <? p
           then violations ++ ["pessimistic_thoughts_bounded_by_sadness"%string]
           else violations));
  (* 4. Anhedonia floor: inability_to_feel >= reported_sadness // 2 *)
  r ← getitem s "REPORTED_SADNESS";
  violations ←
    (if 0 <? r then
       r ← getitem s "REPORTED_SADNESS";
       let min_anhedonia := r `div` 2 in
       f ← getitem s "INABILITY_TO_FEEL";
       Ok (if f <? min_anhedonia
           then violations ++ ["anhedonia_floor_by_sadness"%string]
           else violations)
     else Ok violations);
  (* 5. All items in valid range [0, 6] *)
  violations ←
    for_each_pure (λ violations item,
      v ← getitem s item;
      c ← (if v <? 0 then Ok true else v ← getitem s item; Ok (6 <? v));
      Ok (if c : bool
          then violations ++ ["item_range_0_to_6"%string]
          else violations))
      ITEM_COLS violations;
  (* 6. Total score matches target *)
  let actual := dict_sum s in
  target ← getitem row "target_score";
  Ok (if negb (actual =? target)
      then violations ++ ["total_matches_target"%string]
      else violations).

(** [check_clinical_rules], from the row. *)
Definition check_clinical_rules (row : gmap string Z) : result (list string) :=
  s ← item_scores row;
  Checker.check_clinical_rules s.

End Violations.

(** ** Vocabulary of the checker proofs *)

(** One conditional [violations.append]. *)
Definition flag (c : bool) (name : string) : list string :=
  if c then [name] else [].

(** [max_suicide] as [check_generating_rules] computes it. *)
Definition max_suicide (rs : Z) : Z :=
  if rs <=? 1 then 1 else if rs <=? 3 then Z.min 3 (rs + 1) else 6.

(** The score of an item of a row, 0 where the row has none. *)
Definition score (row : gmap string Z) (k : string) : Z := default 0 (row !! k).

(** The violations of the generating rules, rule by rule. *)
Definition generating_violations (s : gmap string Z) (target : Z) : list string :=
  flag (1 <? Z.abs (score s "APPARENT_SADNESS" - score s "REPORTED_SADNESS"))
       "apparent_sadness_within_1_of_reported" ++
  (if score s "REPORTED_SADNESS" =? 0
   then flag (0 <? score s "SUICIDAL_THOUGHTS") "suicidal_zero_when_no_sadness"
   else flag (max_suicide (score s "REPORTED_SADNESS") <? score s "SUICIDAL_THOUGHTS")
             "suicidal_thoughts_bounded_by_sadness") ++
  (if score s "REPORTED_SADNESS" =? 0
   then flag (0 <? score s "PESSIMISTIC_THOUGHTS") "pessimism_zero_when_no_sadness"
   else flag (Z.min 6 (score s "REPORTED_SADNESS" + 2) <? score s "PESSIMISTIC_THOUGHTS")
             "pessimistic_thoughts_bounded_by_sadness") ++
  flag ((0 <? score s "REPORTED_SADNESS") &&
        (score s "INABILITY_TO_FEEL" <? score s "REPORTED_SADNESS" `div` 2))
       "anhedonia_floor_by_sadness" ++
  concat ((λ k, flag ((score s k <? 0) || (6 <? score s k)) "item_range_0_to_6")
            <$> Violations.ITEM_COLS) ++
  flag (negb (dict_sum s =? target)) "total_matches_target".

(** The first item column a row lacks. *)
Definition first_missing (row : gmap string Z) : option string :=
  snd <$> list_find (λ k, row !! k = None) Violations.ITEM_COLS.

(** The sum of the ten items of a row. *)
Definition item_total (row : gmap string Z) : Z :=
  Zsum (score row <$> Violations.ITEM_COLS).

(** The bounds the generating rules put on suicidal and pessimistic
    thoughts, by reported sadness. *)
Definition suicide_cap (rs : Z) : Z :=
  if rs =? 0 then 0 else max_suicide rs.

Definition pessimism_cap (rs : Z) : Z :=
  if rs =? 0 then 0 else Z.min 6 (rs + 2).

(** What a row has to satisfy for the generating rules to report nothing. *)
Definition generating_contract (row : gmap string Z) (target : Z) : Prop :=
  let rs := score row "REPORTED_SADNESS" in
  Z.abs (score row "APPARENT_SADNESS" - rs) ≤ 1 ∧
  score row "SUICIDAL_THOUGHTS" ≤ suicide_cap rs ∧
  score row "PESSIMISTIC_THOUGHTS" ≤ pessimism_cap rs ∧
  (0 < rs → rs `div` 2 ≤ score row "INABILITY_TO_FEEL") ∧
  Forall (λ k, 0 ≤ score row k ≤ 6) Violations.ITEM_COLS ∧
  item_total row = target.

(** The violations of the clinical rules, on a view. *)
Definition clinical_violations (v : view) : list string :=
  flag ((v_rs v <=? 1) && (2 <? v_st v)) "mood_gate_suicidal" ++
  flag ((v_rs v <=? 1) && (2 <? v_pt v)) "mood_gate_pessimism" ++
  flag ((4 <=? v_itf v) && (v_rs v <? 2)) "anhedonia_requires_sadness" ++
  flag ((4 <=? v_it v) && (v_sl v =? 0)) "tension_requires_sleep_disturbance".

(** The items the clinical-rule pass can write. *)
Definition written_items : list string :=
  [ "REPORTED_SADNESS"; "SUICIDAL_THOUGHTS"; "PESSIMISTIC_THOUGHTS";
    "REDUCED_SLEEP" ]%string.

(** [max(0, min(6, int(round(sampled))))] *)
Definition discretize {F : Type} `{FloatOps F} (sampled : F) : Z :=
  Z.max 0 (Z.min 6 (round_int sampled)).

(** [scale] of [_severity_scaled_cov] *)
Definition severity_scale {F : Type} `{FloatOps F} (target_score : Z) : F :=
  fmin (literal 1.0) (fdiv (float target_score) (literal 30.0)).

(** A matrix with its off-diagonal entries multiplied by [scale]. *)
Definition scale_off_diagonal {F : Type} `{FloatOps F} (scale : F)
    (m : list (list F)) : list (list F) :=
  imap (λ i row, imap (λ j x, if decide (i = j) then x else fmul x scale) row) m.

(** Continuous draws and their discretization, summing to 9. *)
Definition drawn : gmap string Q :=
  list_to_map (zip item_keys [2.4; 1.7; 0.2; 0.9; 0; 1.4; 0.6; 2.2; 0.1; 0]%Q).

(** ** The report of the violation checker ([check_profile_violations.py], [main])

    The frame read from the CSV file is the list of its rows.  What [main]
    prints is not modelled; what it computes is returned: the counts, the
    percentages, the counts by rule, and the rows of the report file when
    one is written. *)

Module Report.

(** A row of [violations_report.csv]. *)
Record violation : Type := {
  profile_id : Z;
  target_score : Z;
  actual_total_score : Z;
  rule_type : string;
  rule : string
}.

#[global] Instance violation_eq_dec : EqDecision violation.
Proof. solve_decision. Defined.

Record summary (F : Type) : Type := {
  n : Z;
  profiles_with_gen_violations : Z;
  profiles_with_clin_violations : Z;
  percent_gen : F;
  percent_clin : F;
  gen_by_rule : gmap string Z;
  clin_by_rule : gmap string Z;
  report : option (list violation)
}.

Arguments n {F} _.
Arguments profiles_with_gen_violations {F} _.
Arguments profiles_with_clin_violations {F} _.
Arguments percent_gen {F} _.
Arguments percent_clin {F} _.
Arguments gen_by_rule {F} _.
Arguments clin_by_rule {F} _.
Arguments report {F} _.

(** The violations a check returns carry its rule type. *)
Definition of_type (type : string) (rules : list string) : list (string * string) :=
  (λ r, (type, r)) <$> rules.

(** [by_rule[v["rule"]] = by_rule.get(v["rule"], 0) + 1] over the violations *)
Definition count_by_rule (violations : list violation) : gmap string Z :=
  foldl (λ by_rule v, <[rule v := default 0 (by_rule !! rule v) + 1]> by_rule)
        ∅ violations.

Section Main.
Context {F : Type} `{FloatOps F}.

(** [a / b] on integers *)
Definition true_div (a b : Z) : result F :=
  if b =? 0 then Raise ZeroDivisionError else Ok (fdiv (float a) (float b)).

(** The body of [for _, row in df.iterrows()]. *)
Definition check_row (acc : list violation * Z * Z) (row : gmap string Z) :
    result (list violation * Z * Z) :=
  let '(all_violations, profiles_with_gen_violations,
        profiles_with_clin_violations) := acc in
  pid ← getitem row "profile_id";
  gen_v ← Violations.check_generating_rules row;
  clin_v ← Violations.check_clinical_rules row;
  let profiles_with_gen_violations :=
    match gen_v with
    | [] => profiles_with_gen_violations
    | _ => profiles_with_gen_violations + 1
    end in
  let profiles_with_clin_violations :=
    match clin_v with
    | [] => profiles_with_clin_violations
    | _ => profiles_with_clin_violations + 1
    end in
  all_violations ←
    for_each_pure (λ all_violations (v : string * string),
      t ← getitem row "target_score";
      a ← getitem row "actual_total_score";
      Ok (all_violations ++
          [ {| profile_id := pid; target_score := t; actual_total_score := a;
               rule_type := v.1; rule := v.2 |} ]))
      (of_type "generating" gen_v ++ of_type "clinical" clin_v) all_violations;
  Ok (all_violations, profiles_with_gen_violations, profiles_with_clin_violations).

Definition main (df : list (gmap string Z)) : result (summary F) :=
  acc ← for_each_pure check_row df ([], 0, 0);
  let '(all_violations, profiles_with_gen_violations,
        profiles_with_clin_violations) := acc in
  let n := Z.of_nat (length df) in
  percent_gen ← true_div (100 * profiles_with_gen_violations) n;
  percent_clin ← true_div (100 * profiles_with_clin_violations) n;
  let gen_violations :=
    filter (λ v, rule_type v = "generating"%string) all_violations in
  let clin_violations :=
    filter (λ v, rule_type v = "clinical"%string) all_violations in
  Ok {| n := n;
        profiles_with_gen_violations := profiles_with_gen_violations;
        profiles_with_clin_violations := profiles_with_clin_violations;
        percent_gen := percent_gen;
        percent_clin := percent_clin;
        gen_by_rule := count_by_rule gen_violations;
        clin_by_rule := count_by_rule clin_violations;
        report := match all_violations with
                  | [] => None
                  | _ => Some all_violations
                  end |}.

End Main.
End Report.

(** ** The severity bands of the analysis ([analyze_madrs_profiles.py]) *)

Module Analysis.

Definition BAND_BINS : list Z := [-1; 19; 34; 60].

Definition BAND_LABELS : list string :=
  [ "Low (0-19)"; "Medium (20-34)"; "High (35-60)" ]%string.

(** [pd.cut(x, bins, labels)] on one value: the label of the bin
    [(lo, hi]] that holds it, [None] (NaN) outside all bins. *)
Fixpoint cut (x : Z) (bins : list Z) (labels : list string) : option string :=
  match bins, labels with
  | lo :: (hi :: _) as bins, label :: labels =>
      if (lo <? x) && (x <=? hi) then Some label else cut x bins labels
  | _, _ => None
  end.

(** The [severity_band] column of [load_data], for one profile. *)
Definition severity_band (actual_total_score : Z) : option string :=
  cut actual_total_score BAND_BINS BAND_LABELS.

End Analysis.

(** ** The combined file of [generate_profiles.py]

    In [main], the header of the combined CSV file is the union of the
    keys of all profiles, each key at its first occurrence.  A profile is
    given by its keys in insertion order. *)

Module Combined.

Definition all_keys (all_profiles : list (list string)) : list string :=
  (foldl (λ acc p,
     foldl (λ '(all_keys, seen) k,
              if decide (k ∈ seen) then (all_keys, seen)
              else (all_keys ++ [k], {[k]} ∪ seen))
           acc p)
     ([], (∅ : gset string)) all_profiles).1.

End Combined.

(** A row [main] can report on: the ten items and the three columns it
    reads beside them. *)
Definition well_formed (row : gmap string Z) : Prop :=
  complete row ∧ is_Some (row !! "profile_id") ∧
  is_Some (row !! "target_score") ∧ is_Some (row !! "actual_total_score").

(** A row on which neither check reports anything. *)
Definition clean (row : gmap string Z) : Prop :=
  Violations.check_generating_rules row = Ok [] ∧
  Violations.check_clinical_rules row = Ok [].

(** The band of a total by the cutoffs the source documents. *)
Definition documented_band (total : Z) : string :=
  if total <=? 19 then "Low (0-19)"
  else if total <=? 34 then "Medium (20-34)"
  else "High (35-60)".

(** Two rows of a profiles file: one that both checks accept, and one with
    no sadness but pessimistic and suicidal thoughts and high tension. *)
Definition clean_row : gmap string Z :=
  <["profile_id" := 0]> (<["target_score" := 12]> (<["actual_total_score" := 12]>
    (profile_of [3; 3; 0; 0; 0; 0; 0; 1; 3; 2]))).

Definition dirty_row : gmap string Z :=
  <["profile_id" := 1]> (<["target_score" := 12]> (<["actual_total_score" := 13]>
    (profile_of [0; 3; 5; 0; 0; 0; 0; 1; 3; 2]))).

(** ** The run driver of the flat sampler ([generate_profiles_hopkins_run.py]) *)

(** A cell of a profile row: an integer or a string. *)
Inductive cell : Type :=
| Int (n : Z)
| Str (s : string).

(** Python's [random] module is process-wide state of its own, apart from
    [np.random].  Its draws are an interface: [randbelow n] is below [n],
    which is all [random.choice] relies on. *)
Record PyRandom (F : Type) : Type := {
  py_rng : Type;
  randbelow : nat → py_rng → nat * py_rng;
  gauss : F → F → py_rng → F * py_rng;
  randbelow_lt : ∀ n r, (0 < n)%nat → ((randbelow n r).1 < n)%nat
}.

Arguments py_rng {F} _.
Arguments randbelow {F} _ _ _.
Arguments gauss {F} _ _ _ _.
Arguments randbelow_lt {F} _ _ _ _.

Module HopkinsRun.
Section Driver.
Context {F : Type} `{FloatOps F} (R : RandomState F) (P : PyRandom F).

(** [config.PERSONAS] and the keys of
    [config.COMMUNICATION_STYLE_DESCRIPTIONS], in their order. *)
Variable PERSONAS : list (gmap string cell).
Variable COMMUNICATION_STYLES : list string.

(** [random.seed] and [np.random.seed]: the stream state a seed gives. *)
Variable random_seed : Z → py_rng P.
Variable np_random_seed : Z → rng R.

(** [int(s)] on a string *)
Variable int_of_str : string → result Z.

(** [int(x)] on a cell *)
Definition py_int (x : cell) : result Z :=
  match x with
  | Int n => Ok n
  | Str s => int_of_str s
  end.

(** The two random streams of the process. *)
Definition Streams : Type := py_rng P * rng R.

(** [random.choice(seq)] *)
Definition random_choice {A : Type} (seq : list A) : M Streams A :=
  λ st,
    match seq with
    | [] => (Raise IndexError, st)
    | _ => let '(i, p') := randbelow P (length seq) st.1 in
           (index_get seq i, (p', st.2))
    end.

(** [random.gauss(mu, sigma)] *)
Definition random_gauss (mu sigma : F) : M Streams F :=
  λ st, let '(x, p') := gauss P mu sigma st.1 in (Ok x, (p', st.2)).

(** A computation on the [np.random] stream. *)
Definition with_np {A : Type} (m : M (rng R) A) : M Streams A :=
  λ st, let '(x, r') := m st.2 in (x, (st.1, r')).

(** The body of [for i in range(n_profiles)]: the row of profile [i]. *)
Definition profile_row (i : nat) : M Streams (gmap string cell) :=
  persona ← random_choice PERSONAS;
  style ← random_choice COMMUNICATION_STYLES;
  x ← random_gauss (float 25) (float 11);
  let target_score := round_int x in
  let target_score := Z.max 5 (Z.min 55 target_score) in
  scores_dict ← with_np (Hopkins.generate R target_score);
  let actual_total := dict_sum scores_dict in
  persona_name ← lift (getitem persona "Name");
  persona_age ← lift (age ← getitem persona "Age"; py_int age);
  persona_occupation ← lift (getitem persona "Occupation");
  persona_life_situation ← lift (getitem persona "Life Situation");
  let row :=
    dict [ ("profile_id", Int (Z.of_nat i));
           ("scale", Str "madrs");
           ("persona_name", persona_name);
           ("persona_age", Int persona_age);
           ("persona_occupation", persona_occupation);
           ("persona_life_situation", persona_life_situation);
           ("communication_style", Str style);
           ("target_score", Int target_score);
           ("actual_total_score", Int actual_total) ]%string in
  let row :=
    map_fold (λ item_key score_val row, <[item_key := Int score_val]> row)
             row scores_dict in
  mret row.

Definition generate_profiles (n_profiles : Z) (seed : Z) :
    M Streams (list (gmap string cell)) :=
  λ _,
    for_each (λ profiles i, row ← profile_row i; mret (profiles ++ [row]))
             (seq 0 (Z.to_nat n_profiles)) []
             (random_seed seed, np_random_seed seed).

End Driver.
End HopkinsRun.

(** Replayed draws of Python's [random]: [gauss] returns the next recorded
    variate, [randbelow n] the next recorded position modulo [n]. *)
Module ReplayPy.

Record py_tape : Type := {
  gauss_draws : list Q;
  positions : list nat
}.

Definition next_below (n : nat) (t : py_tape) : nat * py_tape :=
  match positions t with
  | k :: ks => ((k mod n)%nat, {| gauss_draws := gauss_draws t; positions := ks |})
  | [] => (0%nat, t)
  end.

Definition next_gauss (mu sigma : Q) (t : py_tape) : Q * py_tape :=
  match gauss_draws t with
  | x :: xs => (x, {| gauss_draws := xs; positions := positions t |})
  | [] => (mu, t)
  end.

Lemma next_below_lt n t : (0 < n)%nat → ((next_below n t).1 < n)%nat.
Proof.
  intros Hn. unfold next_below. destruct (positions t) as [|k ks]; simpl; [done|].
  apply Nat.mod_upper_bound. lia.
Qed.

Definition random : PyRandom Q := {|
  py_rng := py_tape;
  randbelow := next_below;
  gauss := next_gauss;
  randbelow_lt := next_below_lt
|}.

(** Two personas, two styles, and recorded draws for three profiles. *)
Definition personas : list (gmap string cell) :=
  [ dict [ ("Name", Str "Ana"); ("Age", Int 34); ("Occupation", Str "nurse");
           ("Life Situation", Str "lives alone") ];
    dict [ ("Name", Str "Ben"); ("Age", Str "52"); ("Occupation", Str "driver");
           ("Life Situation", Str "married") ] ]%string.

Definition styles : list string := [ "terse"; "verbose" ]%string.

Definition draws : py_tape :=
  {| gauss_draws := [31.4; 2.5; 77]%Q; positions := [1; 0; 0; 1; 3; 2]%nat |}.

(** [int] on the strings of the recorded personas. *)
Definition int_of_str (s : string) : result Z :=
  if decide (s = "52"%string) then Ok 52 else Raise ValueError.

End ReplayPy.

(** The integer columns of a row, as the checker reads them back. *)
Definition int_columns (row : gmap string cell) : gmap string Z :=
  omap (λ c, match c with Int n => Some n | Str _ => None end) row.

(** A persona the driver can make a row of. *)
Definition usable_persona (int_of_str : string → result Z)
    (persona : gmap string cell) : Prop :=
  is_Some (persona !! "Name") ∧
  (∃ c age, persona !! "Age" = Some c ∧ HopkinsRun.py_int int_of_str c = Ok age) ∧
  is_Some (persona !! "Occupation") ∧
  is_Some (persona !! "Life Situation").

(** What the driver guarantees of the row of profile [i]. *)
Definition row_of_profile (i : nat) (row : gmap string cell) : Prop :=
  row !! "profile_id" = Some (Int (Z.of_nat i)) ∧
  row !! "scale" = Some (Str "madrs") ∧
  ∃ target_score scores,
    5 ≤ target_score ≤ 55 ∧
    row !! "target_score" = Some (Int target_score) ∧
    row !! "actual_total_score" = Some (Int target_score) ∧
    scores_over item_keys scores ∧ dict_sum scores = target_score ∧
    (∀ k, k ∈ item_keys → row !! k = Int <$> scores !! k) ∧
    ∃ vs, Violations.check_generating_rules (int_columns row) = Ok vs ∧
          ("item_range_0_to_6"%string ∉ vs) ∧ ("total_matches_target"%string ∉ vs).

(** ** Facts about the clinical-rule pass *)

Section RulesFacts.
Import Rules.

Lemma complete_lookup scores k :
  complete scores → k ∈ item_keys → ∃ v, scores !! k = Some v.
Proof.
  intros Hc Hk. unfold complete in Hc. rewrite Forall_forall in Hc.
  destruct (Hc k Hk) as [v Hv]. by exists v.
Qed.

Lemma complete_has_view scores : complete scores → ∃ v, has_view scores v.
Proof.
  intros Hc.
  destruct (complete_lookup scores "REPORTED_SADNESS" Hc) as [rs ?]; [set_solver|].
  destruct (complete_lookup scores "SUICIDAL_THOUGHTS" Hc) as [st ?]; [set_solver|].
  destruct (complete_lookup scores "PESSIMISTIC_THOUGHTS" Hc) as [pt ?]; [set_solver|].
  destruct (complete_lookup scores "INABILITY_TO_FEEL" Hc) as [itf ?]; [set_solver|].
  destruct (complete_lookup scores "INNER_TENSION" Hc) as [it ?]; [set_solver|].
  destruct (complete_lookup scores "REDUCED_SLEEP" Hc) as [sl ?]; [set_solver|].
  by exists (View rs st pt itf it sl).
Qed.

Lemma has_view_inj scores v w : has_view scores v → has_view scores w → v = w.
Proof.
  destruct v, w. unfold has_view; simpl. intros (?&?&?&?&?&?) (?&?&?&?&?&?).
  f_equal; congruence.
Qed.

Lemma has_view_write v scores : has_view (write_view v scores) v.
Proof. unfold has_view, write_view. by repeat split; simplify_map_eq. Qed.

Lemma write_view_id v scores : has_view scores v → write_view v scores = scores.
Proof.
  intros (?&?&?&?&?&?). unfold write_view.
  by repeat (rewrite (insert_id scores); [|done]).
Qed.

(** Case analysis on whether a key is one of the six items of the view. *)
Ltac six_keys k :=
  destruct (decide (k = "REPORTED_SADNESS"%string)) as [->|];
  [|destruct (decide (k = "SUICIDAL_THOUGHTS"%string)) as [->|];
    [|destruct (decide (k = "PESSIMISTIC_THOUGHTS"%string)) as [->|];
      [|destruct (decide (k = "INABILITY_TO_FEEL"%string)) as [->|];
        [|destruct (decide (k = "INNER_TENSION"%string)) as [->|];
          [|destruct (decide (k = "REDUCED_SLEEP"%string)) as [->|]]]]]].

Lemma write_view_write v w scores :
  write_view v (write_view w scores) = write_view v scores.
Proof.
  apply map_eq. intros k. unfold write_view. six_keys k; by simplify_map_eq.
Qed.

(** Writing one item of a mapping is writing the view with that item changed. *)
Ltac one_write :=
  match goal with
  | H : has_view _ _ |- _ =>
      destruct H as (?&?&?&?&?&?); simpl in *; apply map_eq; intros k;
      unfold write_view; simpl; six_keys k; by simplify_map_eq
  end.

Lemma mood_gate_view scores v :
  has_view scores v → mood_gate scores = Ok (write_view (gate_v v) scores).
Proof.
  intros Hv. pose proof Hv as (Hrs&Hst&Hpt&_).
  unfold mood_gate, getitem, gate_v. rewrite Hrs. simpl.
  destruct (v_rs v <=? 1); [|by rewrite write_view_id].
  rewrite Hst. simpl.
  destruct (2 <? v_st v).
  - rewrite lookup_insert_ne by done. rewrite Hpt. simpl.
    destruct (2 <? v_pt v); f_equal; one_write.
  - rewrite Hpt. simpl. destruct (2 <? v_pt v); f_equal; [one_write|].
    destruct v; by rewrite write_view_id.
Qed.

Lemma anhedonia_link_view scores v :
  has_view scores v → anhedonia_link scores = Ok (write_view (anhedonia_v v) scores).
Proof.
  intros Hv. pose proof Hv as (Hrs&_&_&Hitf&_).
  unfold anhedonia_link, getitem, anhedonia_v. rewrite Hitf. simpl.
  destruct (4 <=? v_itf v); simpl; [|by rewrite write_view_id].
  rewrite Hrs. simpl. destruct (v_rs v <? 2); f_equal; [one_write|].
  by rewrite write_view_id.
Qed.

Lemma tension_sleep_link_view scores v :
  has_view scores v →
  tension_sleep_link scores = Ok (write_view (tension_v v) scores).
Proof.
  intros Hv. pose proof Hv as (_&_&_&_&Hit&Hsl).
  unfold tension_sleep_link, getitem, tension_v. rewrite Hit. simpl.
  destruct (4 <=? v_it v); simpl; [|by rewrite write_view_id].
  rewrite Hsl. simpl. destruct (v_sl v =? 0); f_equal; [one_write|].
  by rewrite write_view_id.
Qed.

Lemma has_view_guard scores v :
  has_view scores v → is_Some (scores !! "REPORTED_SADNESS").
Proof. intros (->&_). by eexists. Qed.


Lemma apply_madrs_rules_view scores v :
  has_view scores v →
  _apply_madrs_rules scores = Ok (write_view (pass_v v) scores).
Proof.
  intros Hv. unfold _apply_madrs_rules, pass_v.
  rewrite decide_True by eauto using has_view_guard.
  rewrite (mood_gate_view _ _ Hv). simpl.
  rewrite (anhedonia_link_view _ _ (has_view_write _ _)). simpl.
  rewrite (tension_sleep_link_view _ _ (has_view_write _ _)). simpl.
  by rewrite !write_view_write.
Qed.

Lemma in_range_view scores v :
  in_range scores → has_view scores v →
  0 ≤ v_rs v ≤ 6 ∧ 0 ≤ v_st v ≤ 6 ∧ 0 ≤ v_pt v ≤ 6 ∧
  0 ≤ v_itf v ≤ 6 ∧ 0 ≤ v_it v ≤ 6 ∧ 0 ≤ v_sl v ≤ 6.
Proof.
  intros Hr (?&?&?&?&?&?). unfold in_range, map_Forall in Hr.
  repeat split; eapply Hr; eauto.
Qed.

End RulesFacts.

(** Arithmetic on views: unfold one rule at a time, innermost first, and
    split on every test it makes. *)
Ltac no_test t :=
  lazymatch t with
  | context [if _ then _ else _] => fail
  | _ => idtac
  end.

Ltac split_tests :=
  repeat match goal with
         | |- context [?a <=? ?b] =>
             no_test a; no_test b; destruct (Z.leb_spec a b); simpl
         | |- context [?a <? ?b] =>
             no_test a; no_test b; destruct (Z.ltb_spec a b); simpl
         | |- context [?a =? ?b] =>
             no_test a; no_test b; destruct (Z.eqb_spec a b); simpl
         end.

Ltac view_cases :=
  unfold pass_v, tension_v, anhedonia_v, gate_v; simpl; split_tests.


Lemma pass_v_plausible v : plausible_v (pass_v v).
Proof. destruct v. view_cases; unfold plausible_v; simpl; lia. Qed.

Lemma plausible_v_fixed v : plausible_v v → pass_v v = v.
Proof.
  destruct v. unfold plausible_v; simpl. intros (?&?&?).
  view_cases; first [reflexivity | lia].
Qed.

Lemma pass_v_idempotent v : pass_v (pass_v v) = pass_v v.
Proof. apply plausible_v_fixed, pass_v_plausible. Qed.

(** The rules on views commute with the tension and sleep link. *)
Lemma tension_v_gate_v v : gate_v (tension_v v) = tension_v (gate_v v).
Proof.
  destruct v. unfold tension_v, gate_v; simpl; split_tests;
    first [reflexivity | lia].
Qed.

Lemma tension_v_anhedonia_v v : anhedonia_v (tension_v v) = tension_v (anhedonia_v v).
Proof.
  destruct v. unfold tension_v, anhedonia_v; simpl; split_tests;
    first [reflexivity | lia].
Qed.

Section RulesOrder.
Import Rules.


Lemma run_rule_view r scores v :
  has_view scores v → run_rule r scores = Ok (write_view (rule_v r v) scores).
Proof.
  destruct r; simpl;
    eauto using mood_gate_view, anhedonia_link_view, tension_sleep_link_view.
Qed.

Lemma run_rules_view order scores0 scores v :
  has_view scores v → scores = write_view v scores0 →
  foldl (λ acc r, s ← acc; run_rule r s) (Ok scores) order =
  Ok (write_view (foldl (λ w r, rule_v r w) v order) scores0).
Proof.
  revert scores v. induction order as [|r order IH]; intros scores v Hv ->.
  - done.
  - simpl. rewrite (run_rule_view r _ _ Hv). rewrite write_view_write.
    apply IH; [apply has_view_write|done].
Qed.

Lemma apply_in_order_view order scores v :
  has_view scores v →
  apply_in_order order scores =
  Ok (write_view (foldl (λ w r, rule_v r w) v order) scores).
Proof.
  intros Hv. unfold apply_in_order.
  rewrite decide_True by eauto using has_view_guard.
  rewrite (run_rules_view order scores scores v Hv); [done|].
  by rewrite write_view_id.
Qed.

End RulesOrder.

(** ** The clinical-rule pass: mood gate, order of the rules, idempotence *)

(** Equality with a concrete mapping, decided lookup by lookup. *)
Lemma result_map_eq {V : Type} (r : result (gmap string V)) (m : gmap string V) :
  match r with
  | Ok m' => ∀ k, m' !! k = m !! k
  | Raise _ => False
  end → r = Ok m.
Proof. destruct r as [m'|]; [|done]. intros Hk. f_equal. by apply map_eq. Qed.

Ltac run_to_map := apply result_map_eq; vm_compute; intros; reflexivity.
Ltac run := vm_compute; reflexivity.
Ltac decide_by_run := apply (bool_decide_unpack _); vm_compute; exact I.

Section RulesClaims.
Import Rules.

Lemma complete_profile_of vs :
  length vs = 10%nat → complete (profile_of vs).
Proof.
  intros Hl. do 11 (destruct vs as [|? vs]; try done).
  unfold complete. apply (bool_decide_unpack _); vm_compute; exact I.
Qed.

Lemma apply_in_order_implemented scores :
  apply_in_order implemented_order scores = _apply_madrs_rules scores.
Proof.
  unfold apply_in_order, _apply_madrs_rules, implemented_order.
  case_decide; [|done]. simpl.
  destruct (mood_gate scores) as [s1|]; [|done]. simpl.
  destruct (anhedonia_link s1) as [s2|]; [|done]. simpl.
  by destruct (tension_sleep_link s2).
Qed.

(** C7 as stated fails: with reported sadness 0 and suicidal thoughts 3,
    the pass stores 1 for suicidal thoughts, not min(3, 2) = 2. *)
Lemma mood_gate_cap_counterexample :
  let scores := profile_of [0; 0; 0; 0; 0; 0; 0; 0; 0; 3] in
  complete scores ∧ in_range scores ∧
  scores !! "REPORTED_SADNESS" = Some 0 ∧
  scores !! "SUICIDAL_THOUGHTS" = Some 3 ∧
  ∃ scores', _apply_madrs_rules scores = Ok scores' ∧
             scores' !! "SUICIDAL_THOUGHTS" = Some 1 ∧
             scores' !! "SUICIDAL_THOUGHTS" ≠ Some (Z.min 3 2).
Proof.
  cbv zeta. split; [by apply complete_profile_of|].
  split; [decide_by_run|].
  do 2 (split; [run|]).
  exists (profile_of [0; 0; 0; 0; 0; 0; 0; 0; 0; 1]).
  split; [run_to_map|]. split; [run|].
  vm_compute. discriminate.
Qed.

(** C7, amended: when reported sadness is at most 1, the pass leaves
    suicidal thoughts and pessimistic thoughts at most 2 and never raises
    them; pessimistic thoughts become min(old, 2), suicidal thoughts
    above 2 become 1 and are unchanged otherwise. *)
Theorem mood_gate_lowers scores rs st pt :
  complete scores → in_range scores →
  scores !! "REPORTED_SADNESS" = Some rs →
  scores !! "SUICIDAL_THOUGHTS" = Some st →
  scores !! "PESSIMISTIC_THOUGHTS" = Some pt →
  rs ≤ 1 →
  ∃ scores' st' pt',
    _apply_madrs_rules scores = Ok scores' ∧
    scores' !! "SUICIDAL_THOUGHTS" = Some st' ∧
    scores' !! "PESSIMISTIC_THOUGHTS" = Some pt' ∧
    st' = (if 2 <? st then 1 else st) ∧ pt' = Z.min pt 2 ∧
    st' ≤ 2 ∧ pt' ≤ 2 ∧ st' ≤ st ∧ pt' ≤ pt.
Proof.
  intros Hc _ Hrs Hst Hpt Hle.
  destruct (complete_has_view scores Hc) as [v Hv].
  pose proof Hv as (Hrs'&Hst'&Hpt'&_).
  rewrite (apply_madrs_rules_view _ _ Hv).
  pose proof (has_view_write (pass_v v) scores) as (_&Hst''&Hpt''&_).
  eexists _, _, _. split; [done|]. split; [done|]. split; [done|].
  assert (v_rs v = rs) as Er by congruence.
  assert (v_st v = st) as Es by congruence.
  assert (v_pt v = pt) as Ep by congruence.
  clear -Er Es Ep Hle. destruct v; simpl in *; subst.
  view_cases; lia.
Qed.

Lemma mood_gate_lowers_witness :
  ∃ scores' st' pt',
    _apply_madrs_rules (profile_of [1; 0; 0; 0; 0; 0; 0; 0; 5; 4]) = Ok scores' ∧
    scores' !! "SUICIDAL_THOUGHTS" = Some st' ∧
    scores' !! "PESSIMISTIC_THOUGHTS" = Some pt' ∧
    st' = (if 2 <? 4 then 1 else 4) ∧ pt' = Z.min 5 2 ∧
    st' ≤ 2 ∧ pt' ≤ 2 ∧ st' ≤ 4 ∧ pt' ≤ 5.
Proof.
  apply (mood_gate_lowers (profile_of [1; 0; 0; 0; 0; 0; 0; 0; 5; 4]) 1 4 5).
  - by apply complete_profile_of.
  - decide_by_run.
  - run.
  - run.
  - run.
  - lia.
Defined.


(** C8 as stated fails: with reported sadness 0, inability to feel 4 and
    suicidal thoughts 5, the implemented order lowers suicidal thoughts to
    1 and then raises reported sadness to 3; with the anhedonia link
    first, reported sadness is 3 when the mood gate runs and suicidal
    thoughts stay 5. *)
Lemma rule_order_counterexample :
  let scores := profile_of [0; 0; 0; 0; 0; 0; 0; 4; 0; 5] in
  let order := [AnhedoniaLink; MoodGate; TensionSleepLink] in
  complete scores ∧ in_range scores ∧ order ≡ₚ implemented_order ∧
  _apply_madrs_rules scores = Ok (profile_of [3; 0; 0; 0; 0; 0; 0; 4; 0; 1]) ∧
  apply_in_order order scores = Ok (profile_of [3; 0; 0; 0; 0; 0; 0; 4; 0; 5]) ∧
  apply_in_order order scores ≠ _apply_madrs_rules scores.
Proof.
  cbv zeta.
  assert (_apply_madrs_rules (profile_of [0; 0; 0; 0; 0; 0; 0; 4; 0; 5])
          = Ok (profile_of [3; 0; 0; 0; 0; 0; 0; 4; 0; 1])) as E1 by run_to_map.
  assert (apply_in_order [AnhedoniaLink; MoodGate; TensionSleepLink]
            (profile_of [0; 0; 0; 0; 0; 0; 0; 4; 0; 5])
          = Ok (profile_of [3; 0; 0; 0; 0; 0; 0; 4; 0; 5])) as E2 by run_to_map.
  split; [by apply complete_profile_of|].
  split; [decide_by_run|].
  split; [apply perm_swap|].
  split; [done|]. split; [done|].
  rewrite E1, E2. intros E.
  apply (f_equal (λ r, r ≫= λ m, getitem m "SUICIDAL_THOUGHTS")) in E.
  vm_compute in E. discriminate.
Qed.

(** C8, amended: the tension and sleep link may be applied at any place;
    every order of the three rules in which the mood gate comes before the
    anhedonia link gives the mapping of the implemented order. *)
Theorem rules_order_gate_first scores order :
  complete scores → in_range scores →
  order ≡ₚ implemented_order → gate_first order = true →
  ∃ scores', _apply_madrs_rules scores = Ok scores' ∧
             apply_in_order order scores = Ok scores'.
Proof.
  intros Hc _ Hp Hg.
  destruct (complete_has_view scores Hc) as [v Hv].
  rewrite (apply_madrs_rules_view _ _ Hv), (apply_in_order_view _ _ _ Hv).
  eexists. split; [done|]. f_equal. f_equal.
  symmetry in Hp. apply permutations_Permutation in Hp. vm_compute in Hp.
  repeat (apply elem_of_cons in Hp as [->|Hp]); try discriminate Hg;
    try (by apply elem_of_nil in Hp); unfold pass_v; simpl;
    by rewrite ?tension_v_gate_v, ?tension_v_anhedonia_v.
Qed.

Lemma rules_order_gate_first_witness :
  ∃ scores',
    _apply_madrs_rules (profile_of [0; 0; 5; 0; 0; 0; 0; 4; 0; 5]) = Ok scores' ∧
    apply_in_order [TensionSleepLink; MoodGate; AnhedoniaLink]
      (profile_of [0; 0; 5; 0; 0; 0; 0; 4; 0; 5]) = Ok scores'.
Proof.
  apply rules_order_gate_first.
  - by apply complete_profile_of.
  - decide_by_run.
  - unfold implemented_order.
    etrans; [apply perm_swap|]. apply perm_skip, perm_swap.
  - reflexivity.
Defined.

(** C10: on a mapping with all ten items in [0,6], a second application
    of the pass changes nothing. *)
Theorem apply_madrs_rules_idempotent scores :
  complete scores → in_range scores →
  ∃ scores', _apply_madrs_rules scores = Ok scores' ∧
             _apply_madrs_rules scores' = Ok scores'.
Proof.
  intros Hc _. destruct (complete_has_view scores Hc) as [v Hv].
  rewrite (apply_madrs_rules_view _ _ Hv). eexists. split; [done|].
  rewrite (apply_madrs_rules_view _ _ (has_view_write _ _)).
  by rewrite pass_v_idempotent, write_view_write.
Qed.

Lemma apply_madrs_rules_idempotent_witness :
  ∃ scores',
    _apply_madrs_rules (profile_of [0; 0; 5; 0; 3; 2; 1; 4; 6; 5]) = Ok scores' ∧
    _apply_madrs_rules scores' = Ok scores'.
Proof.
  apply apply_madrs_rules_idempotent.
  - by apply complete_profile_of.
  - decide_by_run.
Defined.

End RulesClaims.

(** ** Sums over dictionaries and arrays *)

Section Sums.
Implicit Types (d : gmap string Z) (k : string) (v : Z).

Lemma dict_sum_empty : dict_sum ∅ = 0.
Proof. unfold dict_sum. by rewrite map_fold_empty. Qed.

Lemma dict_sum_insert_fresh d k v :
  d !! k = None → dict_sum (<[k := v]> d) = dict_sum d + v.
Proof.
  intros Hk. unfold dict_sum. rewrite map_fold_insert_L; [done| |done].
  intros. lia.
Qed.

Lemma dict_sum_delete d k v :
  d !! k = Some v → dict_sum d = dict_sum (delete k d) + v.
Proof.
  intros Hk. unfold dict_sum.
  rewrite (map_fold_delete_L _ _ k v d); [done| |done]. intros. lia.
Qed.

(** Storing [v'] over [v] moves the sum by [v' - v]. *)
Lemma dict_sum_insert d k v v' :
  d !! k = Some v → dict_sum (<[k := v']> d) = dict_sum d - v + v'.
Proof.
  intros Hk. rewrite <-insert_delete_eq.
  rewrite dict_sum_insert_fresh by apply lookup_delete_eq.
  rewrite (dict_sum_delete d k v Hk). lia.
Qed.

Lemma dict_sum_bounds d (a b : Z) :
  map_Forall (λ _ v, a ≤ v ≤ b) d →
  a * Z.of_nat (size d) ≤ dict_sum d ≤ b * Z.of_nat (size d).
Proof.
  induction d as [|k v d Hk IH] using map_ind; intros Hd.
  - rewrite dict_sum_empty, map_size_empty. lia.
  - apply map_Forall_insert in Hd as [Hv Hd]; [|done].
    rewrite dict_sum_insert_fresh, map_size_insert_None by done.
    specialize (IH Hd). rewrite Nat2Z.inj_succ, !Z.mul_succ_r. lia.
Qed.

Lemma in_range_insert d k v :
  in_range d → 0 ≤ v ≤ 6 → in_range (<[k := v]> d).
Proof. intros. by apply map_Forall_insert_2. Qed.

Lemma in_range_lookup d k v : in_range d → d !! k = Some v → 0 ≤ v ≤ 6.
Proof. intros Hd Hk. exact (map_Forall_lookup_1 _ _ _ _ Hd Hk). Qed.

Lemma in_range_empty : in_range ∅.
Proof. apply map_Forall_empty. Qed.

End Sums.


Lemma Zsum_cons x xs : Zsum (x :: xs) = x + Zsum xs.
Proof. reflexivity. Qed.

Lemma Zsum_app xs ys : Zsum (xs ++ ys) = Zsum xs + Zsum ys.
Proof. induction xs as [|x xs IH]; simpl; [done|]. rewrite IH. lia. Qed.

Lemma Zsum_insert xs i v v' :
  xs !! i = Some v → Zsum (<[i := v']> xs) = Zsum xs - v + v'.
Proof.
  intros Hi. pose proof (lookup_lt_Some _ _ _ Hi).
  assert (Zsum xs = Zsum (take i xs) + (v + Zsum (drop (S i) xs))) as E.
  { rewrite <-(take_drop_middle xs i v Hi) at 1. by rewrite Zsum_app, Zsum_cons. }
  rewrite insert_take_drop, Zsum_app, Zsum_cons, E by done. lia.
Qed.

Lemma Zsum_bounds xs (a b : Z) :
  Forall (λ v, a ≤ v ≤ b) xs →
  a * Z.of_nat (length xs) ≤ Zsum xs ≤ b * Z.of_nat (length xs).
Proof.
  induction 1 as [|v xs Hv _ IH]; [simpl; lia|].
  rewrite Zsum_cons, length_cons, Nat2Z.inj_succ, !Z.mul_succ_r. lia.
Qed.

Lemma Zsum_replicate n v : Zsum (replicate n v) = Z.of_nat n * v.
Proof.
  induction n as [|n IH]; [done|].
  change (replicate (S n) v) with (v :: replicate n v). rewrite Zsum_cons, IH. lia.
Qed.

(** ** [dict] of a list of pairs *)

Section Dict.
Context {V : Type}.
Implicit Types (pairs : list (string * V)) (acc : gmap string V).

Lemma dict_from acc pairs k v :
  foldl (λ d kv, <[kv.1 := kv.2]> d) acc pairs !! k = Some v →
  acc !! k = Some v ∨ (k, v) ∈ pairs.
Proof.
  revert acc. induction pairs as [|[k' v'] pairs IH]; intros acc; simpl.
  - by left.
  - intros Hk. apply IH in Hk as [Hk|Hk]; [|right; by right].
    apply lookup_insert_Some in Hk as [[-> ->]|[_ Hk]]; [right; left|by left].
Qed.

Lemma dict_lookup pairs k v : dict pairs !! k = Some v → (k, v) ∈ pairs.
Proof.
  intros Hk. apply dict_from in Hk as [Hk|Hk]; [|done].
  by rewrite lookup_empty in Hk.
Qed.

Lemma dict_dom_from acc pairs :
  dom (foldl (λ d kv, <[kv.1 := kv.2]> d) acc pairs)
  = dom acc ∪ list_to_set pairs.*1.
Proof.
  revert acc. induction pairs as [|[k' v'] pairs IH]; intros acc; simpl.
  - set_solver.
  - rewrite IH, dom_insert_L. set_solver.
Qed.

Lemma dict_dom pairs : dom (dict pairs) = list_to_set pairs.*1.
Proof. unfold dict. rewrite dict_dom_from. set_solver. Qed.

End Dict.

Lemma dict_sum_from (acc : gmap string Z) (pairs : list (string * Z)) :
  NoDup pairs.*1 → (∀ k, k ∈ pairs.*1 → acc !! k = None) →
  dict_sum (foldl (λ d kv, <[kv.1 := kv.2]> d) acc pairs)
  = dict_sum acc + Zsum pairs.*2.
Proof.
  revert acc. induction pairs as [|[k v] pairs IH]; intros acc Hnd Hacc.
  - simpl. lia.
  - rewrite !fmap_cons in *. cbn [foldl fst snd] in *.
    apply NoDup_cons in Hnd as [Hk Hnd]. rewrite IH; [|done|].
    + rewrite dict_sum_insert_fresh; [|apply Hacc; left].
      rewrite Zsum_cons. lia.
    + intros k' Hk'. rewrite lookup_insert_ne by (intros ->; done).
      apply Hacc. by right.
Qed.

Lemma dict_sum_dict (pairs : list (string * Z)) :
  NoDup pairs.*1 → dict_sum (dict pairs) = Zsum pairs.*2.
Proof.
  intros Hnd. unfold dict. rewrite dict_sum_from; [|done|].
  - rewrite dict_sum_empty. lia.
  - intros. apply lookup_empty.
Qed.

(** ** Masks and positions *)

Lemma np_where_from_elem n mask i :
  i ∈ np_where_from n mask ↔ ∃ j, i = (n + j)%nat ∧ mask !! j = Some true.
Proof.
  revert n. induction mask as [|b mask IH]; intros n; simpl.
  - split; [by intros ?%elem_of_nil|]. by intros (j&_&?).
  - destruct b.
    + rewrite elem_of_cons, IH. split.
      * intros [->|(j&->&Hj)]; [exists 0%nat|exists (S j)]; split; try done; lia.
      * intros ([|j]&->&Hj); [left; lia|right]. exists j. split; [lia|done].
    + rewrite IH. split.
      * intros (j&->&Hj). exists (S j). split; [lia|done].
      * intros ([|j]&->&Hj); [done|]. exists j. split; [lia|done].
Qed.

Lemma np_where_elem mask i : i ∈ np_where mask ↔ mask !! i = Some true.
Proof.
  unfold np_where. rewrite np_where_from_elem. split.
  - by intros (j&->&Hj).
  - intros Hi. by exists i.
Qed.

Lemma existsb_id_lookup mask :
  existsb id mask = true ↔ ∃ j, mask !! j = Some true.
Proof.
  induction mask as [|b mask IH]; simpl.
  - split; [done|]. by intros (j&?).
  - destruct b; simpl.
    + split; [|done]. intros _. by exists 0%nat.
    + rewrite IH. split.
      * intros (j&Hj). by exists (S j).
      * intros ([|j]&Hj); [done|]. by exists j.
Qed.

(** ** The state and exception monad *)

Lemma M_bind_Ok {S A B : Type} (m : M S A) (f : A → M S B) s a s' :
  m s = (Ok a, s') → (m ≫= f) s = f a s'.
Proof. intros E. unfold mbind, M_bind. by rewrite E. Qed.

Lemma lift_bind {S A B : Type} (a : A) (f : A → M S B) s :
  (lift (Ok a) ≫= f) s = f a s.
Proof. done. Qed.

(** ** The point-distribution loop of the correlation-matrix sampler *)

Section BorentainFacts.
Context {F : Type} `{FloatOps F} (R : RandomState F).
Import Borentain.

Local Abbreviation scores_ok := (Forall (λ v : Z, 0 ≤ v ≤ 6)).

Lemma all_at_ceiling (fs : list Z) :
  scores_ok fs → existsb id ((λ s, bool_decide (s < 6)) <$> fs) = false →
  Zsum fs = 6 * Z.of_nat (length fs).
Proof.
  intros Hfs Hex.
  assert (Forall (λ v, 6 ≤ v ≤ 6) fs) as Hall.
  { apply Forall_lookup_2. intros i v Hi.
    pose proof (Forall_lookup_1 _ _ _ _ Hfs Hi) as Hv. simpl in Hv.
    destruct (decide (v < 6)) as [Hlt|]; [|lia].
    assert (existsb id ((λ s, bool_decide (s < 6)) <$> fs) = true) as Et; [|congruence].
    apply existsb_id_lookup. exists i.
    rewrite list_lookup_fmap, Hi. simpl. by rewrite bool_decide_eq_true_2. }
  pose proof (Zsum_bounds fs 6 6 Hall). lia.
Qed.

Lemma distribute_spec probs remaining_points final_scores r :
  scores_ok final_scores →
  ∃ final_scores' r',
    distribute R probs remaining_points final_scores r = (Ok final_scores', r') ∧
    length final_scores' = length final_scores ∧
    scores_ok final_scores' ∧
    Zsum final_scores'
    = Z.min (Zsum final_scores + Z.of_nat remaining_points)
            (6 * Z.of_nat (length final_scores)).
Proof.
  revert final_scores r.
  induction remaining_points as [|n IH]; intros fs r Hfs.
  - exists fs, r. repeat split; [done|].
    pose proof (Zsum_bounds fs 0 6 Hfs). lia.
  - cbn [distribute].
    destruct (existsb id ((λ s, bool_decide (s < 6)) <$> fs)) eqn:Hex; cbn [negb].
    + (* some item has room: one point is assigned *)
      set (valid_mask := (λ s, bool_decide (s < 6)) <$> fs) in *.
      set (p := normalize (mask_select probs valid_mask)).
      destruct (choice R (np_where valid_mask) p r) as [idx r1] eqn:Hch.
      assert (idx ∈ np_where valid_mask) as Hidx.
      { replace idx with (choice R (np_where valid_mask) p r).1 by by rewrite Hch.
        apply choice_elem. apply existsb_id_lookup in Hex as [j Hj].
        apply np_where_elem in Hj. intros E. rewrite E in Hj.
        by apply elem_of_nil in Hj. }
      apply np_where_elem in Hidx. unfold valid_mask in Hidx.
      rewrite list_lookup_fmap in Hidx.
      destruct (fs !! idx) as [v|] eqn:Hv; [|done]. simpl in Hidx.
      injection Hidx as Hlt. apply bool_decide_eq_true_1 in Hlt.
      pose proof (Forall_lookup_1 _ _ _ _ Hfs Hv) as Hrange. simpl in Hrange.
      pose proof (lookup_lt_Some _ _ _ Hv) as Hlen.
      destruct (IH (<[idx := v + 1]> fs) r1) as (fs'&r'&Hrun&Hl&Hok&Hsum).
      { apply Forall_insert; [done|lia]. }
      exists fs', r'. split; [|split; [|split]].
      * erewrite M_bind_Ok; [|unfold np_choice; by rewrite Hch].
        unfold index_get. rewrite Hv, lift_bind.
        unfold index_set. rewrite decide_True by done. by rewrite lift_bind.
      * by rewrite Hl, length_insert.
      * done.
      * rewrite Hsum, length_insert, (Zsum_insert _ _ _ _ Hv).
        pose proof (Zsum_bounds fs 0 6 Hfs). lia.
    + (* every item is at 6: the loop breaks *)
      exists fs, r. repeat split; [done|].
      rewrite (all_at_ceiling fs Hfs Hex). lia.
Qed.

Lemma generate_from_matrix_spec df target_score r :
  ∃ scores r',
    generate_from_matrix R df target_score r = (Ok scores, r') ∧
    in_range scores ∧
    (NoDup (df_index df) →
     dict_sum scores
     = Z.min (Z.of_nat (Z.to_nat target_score))
             (6 * Z.of_nat (length (df_index df)))).
Proof.
  unfold generate_from_matrix.
  set (n_items := length (df_index df)).
  destruct (multivariate_normal R (replicate n_items (float 0)) (df_values df) r)
    as [raw_sample r1] eqn:Hmvn.
  set (probs := normalize ((λ x, fexp (fmul x (literal 1.5))) <$> raw_sample)).
  destruct (distribute_spec probs (Z.to_nat target_score) (replicate n_items 0) r1)
    as (fs&r'&Hrun&Hlen&Hok&Hsum).
  { apply Forall_replicate. lia. }
  rewrite length_replicate in Hlen, Hsum. rewrite Zsum_replicate in Hsum.
  exists (dict (zip (df_index df) fs)), r'. split; [|split].
  - erewrite M_bind_Ok; [|unfold np_multivariate_normal; by rewrite Hmvn].
    fold probs. erewrite M_bind_Ok; [|exact Hrun]. done.
  - intros k v Hk. apply dict_lookup, elem_of_zip_r in Hk.
    rewrite Forall_forall in Hok. by apply Hok.
  - intros Hnd. rewrite dict_sum_dict.
    + rewrite snd_zip by (fold n_items; lia). rewrite Hsum. fold n_items. lia.
    + rewrite fst_zip by (fold n_items; lia). done.
Qed.

End BorentainFacts.

(** ** List comprehensions and subscripts that cannot fail *)

Lemma filter_r_total {A : Type} (test : A → result bool) (xs : list A) :
  (∀ x, x ∈ xs → ∃ b, test x = Ok b) →
  ∃ ys, filter_r test xs = Ok ys ∧ ∀ y, y ∈ ys ↔ y ∈ xs ∧ test y = Ok true.
Proof.
  induction xs as [|x xs IH]; intros Hxs.
  - exists []. split; [done|]. intros y. split; [by intros ?%elem_of_nil|].
    by intros [?%elem_of_nil _].
  - destruct (Hxs x) as [b Hb]; [left|].
    destruct IH as (ys&Hys&Hin); [intros; apply Hxs; by right|].
    exists (if b then x :: ys else ys). split.
    + simpl. rewrite Hb. simpl. rewrite Hys. done.
    + intros y. destruct b.
      * rewrite !elem_of_cons, Hin.
        split; [intros [->|[? ?]]; auto|]. intros [[->|?] ?]; auto.
      * rewrite elem_of_cons, Hin.
        split; [intros [? ?]; auto|]. intros [[->|?] ?]; [congruence|auto].
Qed.

Lemma mapM_index_get_total {A : Type} (a : list A) (idxs : list nat) :
  Forall (λ i, (i < length a)%nat) idxs → ∃ xs, mapM (index_get a) idxs = Ok xs.
Proof.
  induction 1 as [|i idxs Hi _ [xs IH]]; [by exists []|].
  apply lookup_lt_is_Some in Hi as [x Hx].
  assert (index_get a i = Ok x) as E by (unfold index_get; by rewrite Hx).
  exists (x :: xs).
  change (mapM (index_get a) (i :: idxs))
    with (index_get a i ≫= λ y, mapM (index_get a) idxs ≫= λ k, mret (y :: k)).
  by rewrite E, IH.
Qed.

Lemma match_nonempty {A B : Type} (l : list A) (x y : B) :
  l ≠ [] → match l with [] => x | _ :: _ => y end = y.
Proof. by destruct l. Qed.

Lemma enumerate_elem {A : Type} (xs : list A) i x :
  (i, x) ∈ enumerate xs ↔ xs !! i = Some x.
Proof.
  unfold enumerate. rewrite elem_of_lookup_imap. split.
  - by intros (j&y&[= -> ->]&?).
  - intros ?. by exists i, x.
Qed.


Lemma scores_over_lookup items scores item :
  scores_over items scores → item ∈ items →
  ∃ s, scores !! item = Some s ∧ 0 ≤ s ≤ 6.
Proof.
  intros [Hdom Hr] Hin.
  assert (item ∈ dom scores) as [s Hs]%elem_of_dom by (rewrite Hdom; set_solver).
  exists s. split; [done|]. by eapply in_range_lookup.
Qed.

Lemma scores_over_insert items scores item s :
  scores_over items scores → item ∈ items → 0 ≤ s ≤ 6 →
  scores_over items (<[item := s]> scores).
Proof.
  intros [Hdom Hr] Hin Hs. split; [|by apply in_range_insert].
  rewrite dom_insert_L, Hdom. set_solver.
Qed.

Lemma scores_over_size items scores :
  NoDup items → scores_over items scores → size scores = length items.
Proof.
  intros Hnd [Hdom _].
  by rewrite <-(size_dom (D := gset string)), Hdom, size_list_to_set.
Qed.

(** With every item at the ceiling (at the floor) the sum is known. *)
Lemma scores_over_all items scores (c : Z) :
  NoDup items → scores_over items scores →
  (∀ item s, item ∈ items → scores !! item = Some s → s = c) →
  dict_sum scores = c * Z.of_nat (length items).
Proof.
  intros Hnd Hso Hall. pose proof Hso as [Hdom _].
  assert (map_Forall (λ _ v, c ≤ v ≤ c) scores) as Hc.
  { intros k v Hk. assert (k ∈ items) as Hin.
    { apply (elem_of_list_to_set (C := gset string)). rewrite <-Hdom.
      apply elem_of_dom. by eexists. }
    rewrite (Hall k v Hin Hk). lia. }
  pose proof (dict_sum_bounds scores c c Hc).
  rewrite (scores_over_size items scores Hnd Hso) in *. lia.
Qed.

(** ** The point-distribution loop of the flat factor-loading sampler *)

Section HopkinsFacts.
Context {F : Type} `{FloatOps F} (R : RandomState F).
Import Hopkins.

Lemma room_test_total items (scores : gmap string Z) (ii : nat * string) :
  scores_over items scores → ii ∈ enumerate items →
  ∃ s, scores !! ii.2 = Some s ∧ 0 ≤ s ≤ 6 ∧
       (s0 ← getitem scores ii.2; Ok (s0 <? 6)) = Ok (s <? 6).
Proof.
  destruct ii as [i item]. intros Hso Hin%enumerate_elem.
  apply list_elem_of_lookup_2 in Hin.
  destruct (scores_over_lookup _ _ _ Hso Hin) as (s&Hs&Hr).
  exists s. split; [done|]. split; [done|].
  simpl. unfold getitem. by rewrite Hs.
Qed.

Lemma assign_spec items probs points_to_assign scores r :
  NoDup items → length probs = length items → scores_over items scores →
  ∃ scores' r',
    assign R items probs points_to_assign scores r = (Ok scores', r') ∧
    scores_over items scores' ∧
    dict_sum scores'
    = Z.min (dict_sum scores + Z.of_nat points_to_assign)
            (6 * Z.of_nat (length items)).
Proof.
  intros Hnd Hlen. revert scores r.
  induction points_to_assign as [|n IH]; intros scores r Hso.
  - exists scores, r. split; [done|]. split; [done|].
    pose proof (dict_sum_bounds scores 0 6 (proj2 Hso)).
    rewrite (scores_over_size _ _ Hnd Hso) in *. lia.
  - cbn [assign].
    set (test := λ ii : nat * string, s ← getitem scores ii.2; Ok (s <? 6)).
    destruct (filter_r_total test (enumerate items)) as (valid&Hvalid&Hin).
    { intros ii Hii. destruct (room_test_total _ _ _ Hso Hii) as (s&_&_&Hs).
      by exists (s <? 6). }
    rewrite Hvalid, lift_bind.
    destruct (decide (valid = [])) as [->|Hne0].
    + (* no item has room: the loop breaks at the ceiling *)
      exists scores, r. split; [done|]. split; [done|].
      rewrite (scores_over_all items scores 6 Hnd Hso); [lia|].
      intros item s Hitem Hs.
      apply list_elem_of_lookup_1 in Hitem as [i Hi].
      apply enumerate_elem in Hi.
      destruct (room_test_total _ _ _ Hso Hi) as (s'&Hs'&Hr&Ht).
      simpl in Hs'. assert (s' = s) as -> by congruence.
      destruct (decide (s < 6)) as [Hlt|]; [|lia].
      assert ((i, item) ∈ ([] : list (nat * string))) as Habs; [|by apply elem_of_nil in Habs].
      apply Hin. split; [done|]. fold (test (i, item)) in Ht. rewrite Ht.
      by rewrite (proj2 (Z.ltb_lt _ _) Hlt).
    + assert (valid.*1 ≠ []) as Hne by (by destruct valid).
      assert (∀ idx, idx ∈ valid.*1 →
                ∃ item s, items !! idx = Some item ∧ scores !! item = Some s ∧
                          0 ≤ s < 6) as Hroom.
      { intros idx ([idx' item]&->&Hv)%list_elem_of_fmap.
        apply Hin in Hv as [Hv Ht].
        destruct (room_test_total _ _ _ Hso Hv) as (s&Hs&Hr&Ht').
        apply enumerate_elem in Hv. exists item, s. split; [done|]. split; [done|].
        fold (test (idx', item)) in Ht'. rewrite Ht in Ht'.
        injection Ht' as Ht'. symmetry in Ht'. apply Z.ltb_lt in Ht'. simpl in *. lia. }
      destruct (mapM_index_get_total probs valid.*1) as [ps Hps].
      { apply Forall_forall. intros idx Hidx.
        destruct (Hroom idx Hidx) as (item&_&Hitem&_).
        rewrite Hlen. by eapply lookup_lt_Some. }
      destruct (choice R valid.*1 (normalize ps) r) as [idx r1] eqn:Hch.
      assert (idx ∈ valid.*1) as Hidx.
      { replace idx with (choice R valid.*1 (normalize ps) r).1 by by rewrite Hch.
        by apply choice_elem. }
      destruct (Hroom idx Hidx) as (item&s&Hitem&Hs&Hr).
      destruct (IH (<[item := s + 1]> scores) r1) as (scores'&r'&Hrun&Hso'&Hsum).
      { apply scores_over_insert; [done| |lia]. by eapply list_elem_of_lookup_2. }
      exists scores', r'. split; [|split; [done|]].
      * rewrite (match_nonempty valid.*1) by done.
        rewrite Hps, lift_bind.
        erewrite M_bind_Ok; [|unfold np_choice; by rewrite Hch].
        unfold index_get. rewrite Hitem, lift_bind.
        unfold getitem. rewrite Hs, lift_bind. exact Hrun.
      * rewrite Hsum, (dict_sum_insert _ _ _ _ Hs).
        pose proof (dict_sum_bounds scores 0 6 (proj2 Hso)).
        rewrite (scores_over_size _ _ Hnd Hso) in *. lia.
Qed.


Lemma propensities_of_total (latent_values : list F) :
  length latent_values = 4%nat →
  ∃ propensities,
    propensities_of (dict (zip factor_names latent_values)) = Ok propensities ∧
    propensities.*1 = items_by_factor.
Proof.
  intros Hl. do 5 (destruct latent_values as [|? latent_values]; try done).
  eexists. split; [vm_compute; reflexivity|reflexivity].
Qed.

Lemma items_by_factor_NoDup : NoDup items_by_factor.
Proof. apply (bool_decide_unpack _). vm_compute. exact I. Qed.

Lemma zero_scores_over (items : list string) :
  scores_over items (dict ((λ item, (item, 0)) <$> items)) ∧
  (NoDup items → dict_sum (dict ((λ item, (item, 0)) <$> items)) = 0).
Proof.
  assert (((λ item : string, (item, 0)) <$> items).*1 = items) as E1.
  { rewrite <-list_fmap_compose. apply list_fmap_id. }
  split; [split|].
  - by rewrite dict_dom, E1.
  - intros k v Hk. apply dict_lookup, list_elem_of_fmap in Hk as (item&[= _ ->]&_).
    lia.
  - intros Hnd. rewrite dict_sum_dict by by rewrite E1.
    rewrite <-list_fmap_compose. clear. induction items as [|i items IH]; [done|].
    rewrite fmap_cons, Zsum_cons, IH. done.
Qed.

Lemma generate_spec target_score r :
  ∃ scores r',
    generate R target_score r = (Ok scores, r') ∧
    scores_over items_by_factor scores ∧
    dict_sum scores = Z.min (Z.of_nat (Z.to_nat target_score)) 60.
Proof.
  unfold generate.
  destruct (multivariate_normal R (replicate 4 (float 0)) factor_corr r)
    as [latent_values r1] eqn:Hmvn.
  assert (length latent_values = 4%nat) as Hl.
  { replace latent_values
      with (multivariate_normal R (replicate 4 (float 0)) factor_corr r).1
      by by rewrite Hmvn.
    by rewrite multivariate_normal_length. }
  destruct (propensities_of_total latent_values Hl) as (propensities&Hp&Hitems).
  pose proof (zero_scores_over items_by_factor) as [Hso Hzero].
  destruct (assign_spec items_by_factor (normalize propensities.*2)
              (Z.to_nat target_score)
              (dict ((λ item, (item, 0)) <$> items_by_factor)) r1)
    as (scores&r'&Hrun&Hso'&Hsum).
  { apply items_by_factor_NoDup. }
  { unfold normalize. rewrite !length_fmap.
    by rewrite <-(length_fmap fst propensities), Hitems. }
  { done. }
  exists scores, r'. split; [|split; [done|]].
  - erewrite M_bind_Ok; [|unfold np_multivariate_normal; by rewrite Hmvn].
    rewrite Hp, lift_bind. cbv zeta. by rewrite Hitems.
  - rewrite Hsum, Hzero by apply items_by_factor_NoDup. simpl length. lia.
Qed.

End HopkinsFacts.

(** ** The adjustment loop of the hierarchical sampler *)

Lemma item_keys_NoDup : NoDup item_keys.
Proof. apply (bool_decide_unpack _). vm_compute. exact I. Qed.

Lemma scores_over_complete scores : scores_over item_keys scores → complete scores.
Proof.
  intros Hso. apply Forall_forall. intros k Hk.
  destruct (scores_over_lookup _ _ _ Hso Hk) as (s&Hs&_). by exists s.
Qed.

(** Below 60 some item is below 6; above 0 some item is above 0. *)
Lemma room_above scores :
  scores_over item_keys scores → dict_sum scores < 60 →
  ∃ k d, k ∈ item_keys ∧ scores !! k = Some d ∧ d < 6.
Proof.
  intros Hso Hsum.
  destruct (Forall_Exists_dec (λ k, ¬ default 0 (scores !! k) < 6)
              (λ k, default 0 (scores !! k) < 6)
              (λ k, match decide (default 0 (scores !! k) < 6) with
                    | left p => right p
                    | right p => left p
                    end) item_keys) as [Hall|Hex].
  - exfalso. rewrite Forall_forall in Hall.
    rewrite (scores_over_all item_keys scores 6 item_keys_NoDup Hso) in Hsum.
    + simpl in Hsum. lia.
    + intros item s Hitem Hs. specialize (Hall item Hitem). rewrite Hs in Hall.
      simpl in Hall. pose proof (in_range_lookup _ _ _ (proj2 Hso) Hs). lia.
  - apply Exists_exists in Hex as (k&Hk&Hlt).
    destruct (scores_over_lookup _ _ _ Hso Hk) as (d&Hd&_).
    rewrite Hd in Hlt. by exists k, d.
Qed.

Lemma room_below scores :
  scores_over item_keys scores → 0 < dict_sum scores →
  ∃ k d, k ∈ item_keys ∧ scores !! k = Some d ∧ 0 < d.
Proof.
  intros Hso Hsum.
  destruct (Forall_Exists_dec (λ k, ¬ 0 < default 0 (scores !! k))
              (λ k, 0 < default 0 (scores !! k))
              (λ k, match decide (0 < default 0 (scores !! k)) with
                    | left p => right p
                    | right p => left p
                    end) item_keys) as [Hall|Hex].
  - exfalso. rewrite Forall_forall in Hall.
    rewrite (scores_over_all item_keys scores 0 item_keys_NoDup Hso) in Hsum.
    + simpl in Hsum. lia.
    + intros item s Hitem Hs. specialize (Hall item Hitem). rewrite Hs in Hall.
      simpl in Hall. pose proof (in_range_lookup _ _ _ (proj2 Hso) Hs). lia.
  - apply Exists_exists in Hex as (k&Hk&Hlt).
    destruct (scores_over_lookup _ _ _ Hso Hk) as (d&Hd&_).
    rewrite Hd in Hlt. by exists k, d.
Qed.

Section LatentFacts.
Context {F : Type} `{FloatOps F}.
Import Latent.

Lemma max_from_elem {A : Type} (key : A → result F) best best_key cands :
  (∀ x, x ∈ cands → ∃ kx, key x = Ok kx) →
  ∃ b, max_from key best best_key cands = Ok b ∧ (b = best ∨ b ∈ cands).
Proof.
  revert best best_key. induction cands as [|x cands IH]; intros best best_key Hk.
  - exists best. split; [done|by left].
  - destruct (Hk x) as [kx Hkx]; [left|]. simpl. rewrite Hkx. simpl.
    destruct (flt best_key kx).
    + destruct (IH x kx) as (b&Hb&Hin); [intros; apply Hk; by right|].
      exists b. split; [done|]. right. destruct Hin as [->|?]; [left|by right].
    + destruct (IH best best_key) as (b&Hb&Hin); [intros; apply Hk; by right|].
      exists b. split; [done|]. destruct Hin as [->|?]; [by left|right; by right].
Qed.

Lemma py_max_elem {A : Type} (cands : list A) (key : A → result F) :
  cands ≠ [] → (∀ x, x ∈ cands → ∃ kx, key x = Ok kx) →
  ∃ b, py_max cands key = Ok b ∧ b ∈ cands.
Proof.
  destruct cands as [|x cands]; [done|]. intros _ Hk.
  destruct (Hk x) as [kx Hkx]; [left|]. simpl. rewrite Hkx. simpl.
  destruct (max_from_elem key x kx cands) as (b&Hb&Hin);
    [intros; apply Hk; by right|].
  exists b. split; [done|]. destruct Hin as [->|?]; [left|by right].
Qed.

(** One step of the loop picks an item that passes the test. *)
Lemma pick_candidate (discrete : gmap string Z) (test : Z → bool)
    (key : string → result F) :
  scores_over item_keys discrete →
  (∀ k, k ∈ item_keys → ∃ x, key k = Ok x) →
  (∃ k d, k ∈ item_keys ∧ discrete !! k = Some d ∧ test d = true) →
  ∃ cands best d,
    filter_r (λ k, d ← getitem discrete k; Ok (test d)) item_keys = Ok cands ∧
    cands ≠ [] ∧ py_max cands key = Ok best ∧
    best ∈ item_keys ∧ discrete !! best = Some d ∧ test d = true.
Proof.
  intros Hso Hkey (k0&d0&Hk0&Hd0&Ht0).
  assert (∀ k, k ∈ item_keys → ∃ d, discrete !! k = Some d ∧
            (d' ← getitem discrete k; Ok (test d')) = Ok (test d)) as Htest.
  { intros k Hk. destruct (scores_over_lookup _ _ _ Hso Hk) as (d&Hd&_).
    exists d. split; [done|]. unfold getitem. by rewrite Hd. }
  destruct (filter_r_total (λ k, d ← getitem discrete k; Ok (test d)) item_keys)
    as (cands&Hcands&Hin).
  { intros k Hk. destruct (Htest k Hk) as (d&_&E). by exists (test d). }
  assert (k0 ∈ cands) as Hk0c.
  { apply Hin. split; [done|]. destruct (Htest k0 Hk0) as (d&Hd&E).
    rewrite E. assert (d = d0) as -> by congruence. by rewrite Ht0. }
  assert (cands ≠ []) as Hne by (intros ->; by apply elem_of_nil in Hk0c).
  destruct (py_max_elem cands key Hne) as (best&Hbest&Hbc).
  { intros k Hk. apply Hkey. by apply Hin. }
  apply Hin in Hbc as [Hbi Hbt]. destruct (Htest best Hbi) as (d&Hd&E).
  exists cands, best, d. repeat split; try done. congruence.
Qed.

Lemma gap_key_total (continuous : gmap string F) (discrete : gmap string Z) k :
  (∀ k, k ∈ item_keys → is_Some (continuous !! k)) →
  scores_over item_keys discrete → k ∈ item_keys →
  (∃ x, (c ← getitem continuous k; d ← getitem discrete k;
         Ok (fsub c (float d))) = Ok x) ∧
  (∃ x, (d ← getitem discrete k; c ← getitem continuous k;
         Ok (fsub (float d) c)) = Ok x).
Proof.
  intros Hc Hso Hk. destruct (Hc k Hk) as [c Hck].
  destruct (scores_over_lookup _ _ _ Hso Hk) as (d&Hd&_).
  unfold getitem. rewrite Hck, Hd. simpl. eauto.
Qed.

Lemma adjust_spec target_score continuous fuel discrete :
  0 ≤ target_score ≤ 60 →
  (∀ k, k ∈ item_keys → is_Some (continuous !! k)) →
  scores_over item_keys discrete →
  Z.abs (dict_sum discrete - target_score) ≤ Z.of_nat fuel →
  ∃ discrete',
    adjust target_score continuous fuel (dict_sum discrete) discrete = Ok discrete' ∧
    scores_over item_keys discrete' ∧ dict_sum discrete' = target_score.
Proof.
  intros Ht Hc. revert discrete.
  induction fuel as [|fuel IH]; intros discrete Hso Hgap.
  - exists discrete. split; [done|]. split; [done|]. lia.
  - cbn [adjust].
    destruct (Z.eqb_spec (dict_sum discrete) target_score) as [Heq|Hne].
    { by exists discrete. }
    destruct (Z.ltb_spec (dict_sum discrete) target_score) as [Hlt|Hge].
    + (* below the target: one item below 6 goes up *)
      destruct (pick_candidate discrete (λ d, d <? 6)
                  (λ k, c ← getitem continuous k; d ← getitem discrete k;
                        Ok (fsub c (float d))) Hso)
        as (cands&best&d&Hcands&Hnil&Hbest&Hbi&Hd&Hroom).
      { intros k Hk. by apply gap_key_total. }
      { destruct (room_above discrete Hso) as (k&d&Hk&Hd&Hd6); [lia|].
        exists k, d. repeat split; try done. by apply Z.ltb_lt. }
      simpl in Hroom. apply Z.ltb_lt in Hroom.
      pose proof (in_range_lookup _ _ _ (proj2 Hso) Hd).
      destruct (IH (<[best := d + 1]> discrete)) as (discrete'&Hrun&Hso'&Hsum).
      { apply scores_over_insert; [done..|lia]. }
      { rewrite (dict_sum_insert _ _ _ _ Hd). lia. }
      exists discrete'. split; [|done].
      rewrite Hcands. simpl. rewrite (match_nonempty cands) by done.
      rewrite Hbest. simpl. unfold getitem at 1. rewrite Hd. simpl. exact Hrun.
    + (* above the target: one item above 0 goes down *)
      destruct (pick_candidate discrete (λ d, 0 <? d)
                  (λ k, d ← getitem discrete k; c ← getitem continuous k;
                        Ok (fsub (float d) c)) Hso)
        as (cands&best&d&Hcands&Hnil&Hbest&Hbi&Hd&Hroom).
      { intros k Hk. by apply gap_key_total. }
      { destruct (room_below discrete Hso) as (k&d&Hk&Hd&Hd0); [lia|].
        exists k, d. repeat split; try done. by apply Z.ltb_lt. }
      simpl in Hroom. apply Z.ltb_lt in Hroom.
      pose proof (in_range_lookup _ _ _ (proj2 Hso) Hd).
      destruct (IH (<[best := d - 1]> discrete)) as (discrete'&Hrun&Hso'&Hsum).
      { apply scores_over_insert; [done..|lia]. }
      { rewrite (dict_sum_insert _ _ _ _ Hd). lia. }
      exists discrete'. split; [|done].
      rewrite Hcands. simpl. rewrite (match_nonempty cands) by done.
      rewrite Hbest. simpl. unfold getitem at 1. rewrite Hd. simpl. exact Hrun.
Qed.

Lemma adjustment_loop_spec target_score continuous discrete :
  0 ≤ target_score ≤ 60 →
  (∀ k, k ∈ item_keys → is_Some (continuous !! k)) →
  scores_over item_keys discrete →
  ∃ discrete',
    adjustment_loop target_score continuous discrete = Ok discrete' ∧
    scores_over item_keys discrete' ∧ dict_sum discrete' = target_score.
Proof.
  intros Ht Hc Hso. unfold adjustment_loop. apply adjust_spec; try done.
  pose proof (dict_sum_bounds discrete 0 6 (proj2 Hso)) as Hb.
  rewrite (scores_over_size _ _ item_keys_NoDup Hso) in Hb. simpl in Hb. lia.
Qed.

End LatentFacts.

(** ** Sampling the items of the hierarchical sampler *)

Section LatentSampling.
Context {F : Type} `{FloatOps F} (R : RandomState F).
Import Latent.


Lemma item_keys_configured : Forall configured item_keys.
Proof.
  unfold item_keys.
  repeat (apply Forall_cons; split;
          [eexists _, _, _;
           split; [vm_compute; reflexivity|];
           split; [lia|];
           split; vm_compute; reflexivity|]).
  constructor.
Qed.

Lemma sample_item_spec factor_scores continuous discrete item h :
  length factor_scores = 4%nat → configured item →
  ∃ sampled h',
    sample_item R factor_scores (continuous, discrete) item h
    = (Ok (<[item := sampled]> continuous,
           <[item := Z.max 0 (Z.min 6 (round_int sampled))]> discrete), h') ∧
    self_base_factor_corr R h' = self_base_factor_corr R h.
Proof.
  intros Hl (f_idx&off&sd&Hf&Hlt&Hoff&Hsd).
  destruct (lookup_lt_is_Some_2 factor_scores f_idx) as [fs Hfs]; [lia|].
  destruct (normal R (fadd fs off) sd (np_random R h)) as [sampled r'] eqn:Hn.
  exists sampled, {| self_base_factor_corr := self_base_factor_corr R h;
                     np_random := r' |}.
  split; [|done]. unfold sample_item.
  rewrite Hf, lift_bind. unfold index_get. rewrite Hfs, lift_bind.
  rewrite Hoff, lift_bind, Hsd, lift_bind.
  erewrite M_bind_Ok; [done|]. unfold np_normal. by rewrite Hn.
Qed.

Lemma sample_loop factor_scores items continuous discrete h :
  length factor_scores = 4%nat → Forall configured items → in_range discrete →
  ∃ continuous' discrete' h',
    for_each (sample_item R factor_scores) items (continuous, discrete) h
    = (Ok (continuous', discrete'), h') ∧
    dom continuous' = dom continuous ∪ list_to_set items ∧
    dom discrete' = dom discrete ∪ list_to_set items ∧
    in_range discrete' ∧
    self_base_factor_corr R h' = self_base_factor_corr R h.
Proof.
  intros Hl Hitems. revert continuous discrete h.
  induction Hitems as [|item items Hitem _ IH]; intros continuous discrete h Hr.
  - exists continuous, discrete, h.
    split; [done|]. split; [set_solver|]. split; [set_solver|]. done.
  - destruct (sample_item_spec factor_scores continuous discrete item h Hl Hitem)
      as (sampled&h1&Hstep&Hh1).
    destruct (IH (<[item := sampled]> continuous)
                 (<[item := Z.max 0 (Z.min 6 (round_int sampled))]> discrete) h1)
      as (continuous'&discrete'&h'&Hrun&Hdc&Hdd&Hr'&Hh').
    { apply in_range_insert; [done|lia]. }
    exists continuous', discrete', h'. split; [|split; [|split; [|split]]].
    + cbn [for_each]. erewrite M_bind_Ok; [|exact Hstep]. exact Hrun.
    + rewrite Hdc, dom_insert_L. set_solver.
    + rewrite Hdd, dom_insert_L. set_solver.
    + done.
    + congruence.
Qed.

Lemma factor_means_total (base_per_item : F) :
  ∃ factor_means,
    mapM (factor_mean base_per_item) (seq 0 4) = Ok factor_means ∧
    length factor_means = 4%nat.
Proof. eexists. split; [vm_compute; reflexivity|reflexivity]. Qed.

Lemma severity_scaled_cov_total target_score h :
  constructed R h →
  ∃ cov, _severity_scaled_cov R target_score h = (Ok cov, h).
Proof.
  intros Hc. unfold _severity_scaled_cov. rewrite Hc.
  eexists. f_equal.
Qed.

Lemma sample_items_spec target_score h :
  constructed R h →
  ∃ continuous discrete h',
    sample_items R target_score h = (Ok (continuous, discrete), h') ∧
    (∀ k, k ∈ item_keys → is_Some (continuous !! k)) ∧
    scores_over item_keys discrete ∧
    self_base_factor_corr R h' = self_base_factor_corr R h.
Proof.
  intros Hc. unfold sample_items.
  destruct (factor_means_total (fdiv (float target_score) (literal 10.0)))
    as (factor_means&Hmeans&Hlm).
  destruct (severity_scaled_cov_total target_score h Hc) as [factor_cov Hcov].
  destruct (multivariate_normal R factor_means factor_cov (np_random R h))
    as [factor_scores r1] eqn:Hmvn.
  assert (length factor_scores = 4%nat) as Hl.
  { replace factor_scores
      with (multivariate_normal R factor_means factor_cov (np_random R h)).1
      by by rewrite Hmvn.
    by rewrite multivariate_normal_length. }
  destruct (sample_loop factor_scores item_keys ∅ ∅
              {| self_base_factor_corr := self_base_factor_corr R h;
                 np_random := r1 |} Hl item_keys_configured in_range_empty)
    as (continuous&discrete&h'&Hrun&Hdc&Hdd&Hr&Hh').
  exists continuous, discrete, h'. split; [|split; [|split; [split|]]].
  - rewrite Hmeans, lift_bind. erewrite M_bind_Ok; [|exact Hcov].
    erewrite M_bind_Ok; [exact Hrun|].
    unfold with_random, np_multivariate_normal. by rewrite Hmvn.
  - intros k Hk. apply elem_of_dom. rewrite Hdc.
    by apply elem_of_union_r, elem_of_list_to_set.
  - by rewrite Hdd, dom_empty_L, (left_id_L ∅ (∪)).
  - done.
  - done.
Qed.

End LatentSampling.

(** ** The generator object is not written *)

Section LatentFrame.
Context {F : Type} `{FloatOps F} (R : RandomState F).
Import Latent.


Lemma preserves_ret {A : Type} (a : A) : preserves_self R (mret a).
Proof. by intros h. Qed.

Lemma preserves_lift {A : Type} (r : result A) : preserves_self R (lift r).
Proof. by intros h. Qed.

Lemma preserves_bind {A B : Type} (m : M (Heap R) A) (f : A → M (Heap R) B) :
  preserves_self R m → (∀ a, preserves_self R (f a)) → preserves_self R (m ≫= f).
Proof.
  intros Hm Hf h. unfold mbind, M_bind. specialize (Hm h).
  destruct (m h) as [[a|e] h1]; simpl in *; [|done].
  by rewrite Hf.
Qed.

Lemma preserves_np_normal loc scale : preserves_self R (np_normal R loc scale).
Proof. intros h. unfold np_normal. by destruct (normal R _ _ _). Qed.

Lemma preserves_with_random step : preserves_self R (with_random R step).
Proof. intros h. unfold with_random. by destruct (step _). Qed.

Lemma preserves_severity_scaled_cov target_score :
  preserves_self R (_severity_scaled_cov R target_score).
Proof. by intros h. Qed.

Lemma preserves_for_each {A B : Type} (body : B → A → M (Heap R) B) xs acc :
  (∀ acc x, preserves_self R (body acc x)) → preserves_self R (for_each body xs acc).
Proof.
  intros Hb. revert acc. induction xs as [|x xs IH]; intros acc.
  - apply preserves_ret.
  - cbn [for_each]. apply preserves_bind; [apply Hb|apply IH].
Qed.

Lemma preserves_sample_item factor_scores acc item :
  preserves_self R (sample_item R factor_scores acc item).
Proof.
  destruct acc as [continuous discrete]. unfold sample_item.
  repeat (apply preserves_bind; [first [apply preserves_lift | apply preserves_np_normal]|intros ?]).
  apply preserves_ret.
Qed.

Lemma preserves_sample_items target_score :
  preserves_self R (sample_items R target_score).
Proof.
  unfold sample_items.
  apply preserves_bind; [apply preserves_lift|intros ?].
  apply preserves_bind; [apply preserves_severity_scaled_cov|intros ?].
  apply preserves_bind; [apply preserves_with_random|intros ?].
  apply preserves_for_each. intros. apply preserves_sample_item.
Qed.

Lemma preserves_generate_profile target_score :
  preserves_self R (generate_profile R target_score).
Proof.
  unfold generate_profile. destruct (negb _); [apply preserves_ret|].
  apply preserves_bind; [apply preserves_sample_items|intros [continuous discrete]].
  apply preserves_bind; [apply preserves_lift|intros ?].
  apply preserves_bind; [apply preserves_lift|intros ?].
  apply preserves_ret.
Qed.

End LatentFrame.

(** ** The drift of the clinical-rule pass *)



Lemma pass_v_range v : range_v v → range_v (pass_v v).
Proof.
  destruct v. unfold range_v; simpl. intros (?&?&?&?&?&?).
  view_cases; lia.
Qed.

Lemma pass_v_drift v :
  range_v v → total_v v - 9 ≤ total_v (pass_v v) ≤ total_v v + 5.
Proof.
  destruct v. unfold range_v, total_v; simpl. intros (?&?&?&?&?&?).
  view_cases; lia.
Qed.

Lemma dict_sum_write_view v w scores :
  has_view scores v →
  dict_sum (write_view w scores) = dict_sum scores - total_v v + total_v w.
Proof.
  intros (Hrs&Hst&Hpt&Hitf&Hit&Hsl). unfold write_view, total_v.
  rewrite (dict_sum_insert _ _ (v_rs v)) by by rewrite !lookup_insert_ne.
  rewrite (dict_sum_insert _ _ (v_st v)) by by rewrite !lookup_insert_ne.
  rewrite (dict_sum_insert _ _ (v_pt v)) by by rewrite !lookup_insert_ne.
  rewrite (dict_sum_insert _ _ (v_itf v)) by by rewrite !lookup_insert_ne.
  rewrite (dict_sum_insert _ _ (v_it v)) by by rewrite !lookup_insert_ne.
  rewrite (dict_sum_insert _ _ (v_sl v)) by done.
  lia.
Qed.

Lemma scores_over_write_view w scores :
  scores_over item_keys scores → range_v w →
  scores_over item_keys (write_view w scores).
Proof.
  intros Hso (?&?&?&?&?&?). unfold write_view.
  repeat (apply scores_over_insert; [|unfold item_keys; set_solver|done]).
  done.
Qed.

Lemma has_view_range scores v : in_range scores → has_view scores v → range_v v.
Proof. apply in_range_view. Qed.

(** The checker accepts a mapping whose view is clinically plausible. *)
Lemma check_clinical_rules_view scores v :
  has_view scores v → plausible_v v →
  Checker.check_clinical_rules scores = Ok [].
Proof.
  intros (Hrs&Hst&Hpt&Hitf&Hit&Hsl) (Hgate&Hanh&Hten).
  unfold Checker.check_clinical_rules, getitem.
  rewrite Hrs, Hitf, Hit. simpl.
  destruct (Z.leb_spec (v_rs v) 1) as [Hle|Hgt]; simpl.
  - rewrite Hst, Hpt. simpl. destruct (Hgate Hle) as [? ?].
    rewrite (proj2 (Z.ltb_ge 2 (v_st v))), (proj2 (Z.ltb_ge 2 (v_pt v))) by lia.
    destruct (Z.leb_spec 4 (v_itf v)); [lia|]. simpl.
    destruct (Z.leb_spec 4 (v_it v)); simpl; [|done].
    rewrite Hsl. simpl. by rewrite (proj2 (Z.eqb_neq _ _)) by auto.
  - destruct (Z.leb_spec 4 (v_itf v)); simpl.
    + rewrite (proj2 (Z.ltb_ge (v_rs v) 2)) by lia.
      destruct (Z.leb_spec 4 (v_it v)); simpl; [|done].
      rewrite Hsl. simpl. by rewrite (proj2 (Z.eqb_neq _ _)) by auto.
    + destruct (Z.leb_spec 4 (v_it v)); simpl; [|done].
      rewrite Hsl. simpl. by rewrite (proj2 (Z.eqb_neq _ _)) by auto.
Qed.

(** ** The stages of [generate_profile] *)

Section LatentStages.
Context {F : Type} `{FloatOps F} (R : RandomState F).
Import Latent Rules.

Lemma generate_profile_invalid target_score h :
  ¬ 0 ≤ target_score ≤ 60 → generate_profile R target_score h = (Ok None, h).
Proof.
  intros Ht. unfold generate_profile.
  destruct (Z.leb_spec 0 target_score); destruct (Z.leb_spec target_score 60);
    simpl; first [done | lia].
Qed.

(** On a valid target the three stages succeed in turn: sampling gives ten
    scores in [0,6], the adjustment loop brings their sum to the target,
    and the clinical-rule pass rewrites the six items it governs. *)
Lemma generate_profile_stages target_score h :
  constructed R h → 0 ≤ target_score ≤ 60 →
  ∃ continuous discrete h' adjusted v,
    sample_items R target_score h = (Ok (continuous, discrete), h') ∧
    scores_over item_keys discrete ∧
    adjustment_loop target_score continuous discrete = Ok adjusted ∧
    scores_over item_keys adjusted ∧
    dict_sum adjusted = target_score ∧
    has_view adjusted v ∧ range_v v ∧
    _apply_madrs_rules adjusted = Ok (write_view (pass_v v) adjusted) ∧
    generate_profile R target_score h
    = (Ok (Some (write_view (pass_v v) adjusted)), h').
Proof.
  intros Hc Ht.
  destruct (sample_items_spec R target_score h Hc)
    as (continuous&discrete&h'&Hsample&Hcont&Hso&_).
  destruct (adjustment_loop_spec target_score continuous discrete Ht Hcont Hso)
    as (adjusted&Hadj&Hso'&Hsum).
  destruct (complete_has_view adjusted (scores_over_complete _ Hso')) as [v Hv].
  pose proof (apply_madrs_rules_view _ _ Hv) as Hrules.
  exists continuous, discrete, h', adjusted, v.
  split; [exact Hsample|]. split; [exact Hso|]. split; [exact Hadj|].
  split; [exact Hso'|]. split; [exact Hsum|]. split; [exact Hv|].
  split; [exact (has_view_range _ _ (proj2 Hso') Hv)|]. split; [exact Hrules|].
  unfold generate_profile.
  destruct (Z.leb_spec 0 target_score); [|lia].
  destruct (Z.leb_spec target_score 60); [|lia]. simpl.
  erewrite M_bind_Ok; [|exact Hsample]. simpl.
  by rewrite Hadj, lift_bind, Hrules, lift_bind.
Qed.

End LatentStages.

(** Equality of a run with a concrete profile, decided lookup by lookup. *)
Lemma profile_eq (r : result (option (gmap string Z))) (m : gmap string Z) :
  match r with
  | Ok (Some m') => ∀ k, m' !! k = m !! k
  | _ => False
  end → r = Ok (Some m).
Proof.
  destruct r as [[m'|]|]; try done. intros Hk. do 2 f_equal. by apply map_eq.
Qed.

Ltac run_to_profile := apply profile_eq; vm_compute; intros; reflexivity.

(** ** The samplers: sums, bounds, clinical invariants, failure, determinism *)

Section SamplerClaims.
Context {F : Type} `{FloatOps F} (R : RandomState F).
Import Latent.

(** C1: for a ten-item correlation frame and for the flat factor-loading
    sampler, on every non-negative target and every draw the call returns
    a mapping, and its scores sum to min(target_score, 60). *)
Theorem samplers_exact_sum (df : DataFrame F) (target_score : Z) (r : rng R) :
  0 ≤ target_score → NoDup (df_index df) → length (df_index df) = 10%nat →
  (∃ scores r',
     Borentain.generate_from_matrix R df target_score r = (Ok scores, r') ∧
     dict_sum scores = Z.min target_score 60) ∧
  (∃ scores r',
     Hopkins.generate R target_score r = (Ok scores, r') ∧
     dict_sum scores = Z.min target_score 60).
Proof.
  intros Ht Hnd Hlen. split.
  - destruct (generate_from_matrix_spec R df target_score r)
      as (scores&r'&Hrun&_&Hsum).
    exists scores, r'. split; [done|]. rewrite (Hsum Hnd), Hlen. lia.
  - destruct (generate_spec R target_score r) as (scores&r'&Hrun&_&Hsum).
    exists scores, r'. split; [done|]. rewrite Hsum. lia.
Qed.

(** C2: on a valid target, when the adjustment loop of at most 100
    iterations finishes, before the clinical-rule pass runs, the ten
    discrete scores sum to the target. *)
Theorem adjustment_reaches_target (target_score : Z) (h : Heap R) :
  constructed R h → 0 ≤ target_score ≤ 60 →
  ∃ continuous discrete h' adjusted,
    sample_items R target_score h = (Ok (continuous, discrete), h') ∧
    adjustment_loop target_score continuous discrete = Ok adjusted ∧
    complete adjusted ∧
    dict_sum adjusted = target_score ∧
    (generate_profile R target_score h).1
    = (final ← Rules._apply_madrs_rules adjusted; Ok (Some final)).
Proof.
  intros Hc Ht.
  destruct (generate_profile_stages R target_score h Hc Ht)
    as (continuous&discrete&h'&adjusted&v&Hs&_&Ha&Hso&Hsum&_&_&Hr&Hg).
  exists continuous, discrete, h', adjusted.
  split; [done|]. split; [done|]. split; [by apply scores_over_complete|].
  split; [done|]. by rewrite Hg, Hr.
Qed.

(** C3: every score a sampler returns is an integer in [0,6]; in the
    hierarchical sampler the bound holds after discretization, after the
    adjustment loop and after the clinical-rule pass. *)
Theorem scores_in_range (df : DataFrame F) (target_score : Z) (r : rng R) (h : Heap R) :
  (∃ scores r',
     Borentain.generate_from_matrix R df target_score r = (Ok scores, r') ∧
     in_range scores) ∧
  (∃ scores r',
     Hopkins.generate R target_score r = (Ok scores, r') ∧ in_range scores) ∧
  (constructed R h → 0 ≤ target_score ≤ 60 →
   ∃ continuous discrete h' adjusted final,
     sample_items R target_score h = (Ok (continuous, discrete), h') ∧
     in_range discrete ∧
     adjustment_loop target_score continuous discrete = Ok adjusted ∧
     in_range adjusted ∧
     Rules._apply_madrs_rules adjusted = Ok final ∧
     in_range final ∧ complete final ∧
     generate_profile R target_score h = (Ok (Some final), h')).
Proof.
  split; [|split].
  - destruct (generate_from_matrix_spec R df target_score r)
      as (scores&r'&Hrun&Hr&_). by exists scores, r'.
  - destruct (generate_spec R target_score r) as (scores&r'&Hrun&[_ Hr]&_).
    by exists scores, r'.
  - intros Hc Ht.
    destruct (generate_profile_stages R target_score h Hc Ht)
      as (continuous&discrete&h'&adjusted&v&Hs&Hso&Ha&Hso'&_&_&Hv&Hr&Hg).
    pose proof (scores_over_write_view (pass_v v) adjusted Hso'
                  (pass_v_range v Hv)) as Hfin.
    exists continuous, discrete, h', adjusted, (write_view (pass_v v) adjusted).
    split; [done|]. split; [apply Hso|]. split; [done|]. split; [apply Hso'|].
    split; [done|]. split; [apply Hfin|].
    split; [by apply scores_over_complete|done].
Qed.

(** C4: on the profile that [generate_profile] returns the three clinical
    invariants hold, and the violation checker reports nothing. *)
Theorem generated_profile_plausible (target_score : Z) (h : Heap R) :
  constructed R h → 0 ≤ target_score ≤ 60 →
  ∃ final h' rs st pt itf it sl,
    generate_profile R target_score h = (Ok (Some final), h') ∧
    final !! "REPORTED_SADNESS" = Some rs ∧
    final !! "SUICIDAL_THOUGHTS" = Some st ∧
    final !! "PESSIMISTIC_THOUGHTS" = Some pt ∧
    final !! "INABILITY_TO_FEEL" = Some itf ∧
    final !! "INNER_TENSION" = Some it ∧
    final !! "REDUCED_SLEEP" = Some sl ∧
    (rs ≤ 1 → st ≤ 2 ∧ pt ≤ 2) ∧
    (4 ≤ itf → 2 ≤ rs) ∧
    (4 ≤ it → 0 < sl) ∧
    Checker.check_clinical_rules final = Ok [].
Proof.
  intros Hc Ht.
  destruct (generate_profile_stages R target_score h Hc Ht)
    as (continuous&discrete&h'&adjusted&v&_&_&_&_&_&_&Hv&_&Hg).
  pose proof (has_view_write (pass_v v) adjusted) as Hw.
  pose proof (pass_v_plausible v) as Hp.
  pose proof (pass_v_range v Hv) as (_&_&_&_&_&Hsl).
  pose proof Hw as (?&?&?&?&?&?). pose proof Hp as (?&?&Hten).
  exists (write_view (pass_v v) adjusted), h'.
  exists (v_rs (pass_v v)), (v_st (pass_v v)), (v_pt (pass_v v)),
         (v_itf (pass_v v)), (v_it (pass_v v)), (v_sl (pass_v v)).
  do 9 (split; [done|]).
  split; [intros Hit; specialize (Hten Hit); lia|].
  by eapply check_clinical_rules_view.
Qed.

(** C5: [generate_profile] returns no profile exactly when the target is
    outside [0,60]; it returns none for -5 and for 61, and a profile for
    every target in [0,60]. *)
Theorem generate_profile_fails_iff (target_score : Z) (h : Heap R) :
  constructed R h →
  ((generate_profile R target_score h).1 = Ok None ↔ ¬ 0 ≤ target_score ≤ 60) ∧
  ((∃ profile, (generate_profile R target_score h).1 = Ok (Some profile))
   ↔ 0 ≤ target_score ≤ 60) ∧
  (generate_profile R (-5) h).1 = Ok None ∧
  (generate_profile R 61 h).1 = Ok None.
Proof.
  intros Hc.
  assert (0 ≤ target_score ≤ 60 →
          ∃ profile, (generate_profile R target_score h).1 = Ok (Some profile))
    as Hvalid.
  { intros Ht.
    destruct (generate_profile_stages R target_score h Hc Ht)
      as (?&?&?&adjusted&v&_&_&_&_&_&_&_&_&Hg).
    eexists. by rewrite Hg. }
  split; [|split; [|split]].
  - split.
    + intros Hnone Ht. destruct (Hvalid Ht) as [profile Hp]. congruence.
    + intros Ht. by rewrite generate_profile_invalid.
  - split; [|done]. intros [profile Hp].
    destruct (decide (0 ≤ target_score ≤ 60)) as [|Hout]; [done|].
    rewrite generate_profile_invalid in Hp by done. discriminate.
  - rewrite generate_profile_invalid; [done|lia].
  - rewrite generate_profile_invalid; [done|lia].
Qed.

(** C6, amended: after the clinical-rule pass the sum of the returned
    profile is at least the target minus 9 and at most the target plus 5. *)
Theorem clinical_pass_drift (target_score : Z) (h : Heap R) :
  constructed R h → 0 ≤ target_score ≤ 60 →
  ∃ final h',
    generate_profile R target_score h = (Ok (Some final), h') ∧
    target_score - 9 ≤ dict_sum final ≤ target_score + 5.
Proof.
  intros Hc Ht.
  destruct (generate_profile_stages R target_score h Hc Ht)
    as (?&?&h'&adjusted&v&_&_&_&_&Hsum&Hv&Hr&_&Hg).
  exists (write_view (pass_v v) adjusted), h'. split; [done|].
  rewrite (dict_sum_write_view v _ _ Hv), Hsum.
  pose proof (pass_v_drift v Hr). lia.
Qed.

(** C9: a second invocation with the same target, on the generator as the
    first invocation left it and with the random stream in the state the
    first one started from, returns what the first one returned; the
    generator's array attribute is not written. *)
Theorem generate_profile_deterministic (target_score : Z) (h : Heap R) :
  let first := generate_profile R target_score h in
  let again :=
    generate_profile R target_score
      {| self_base_factor_corr := self_base_factor_corr R first.2;
         np_random := np_random R h |} in
  again = first ∧
  self_base_factor_corr R first.2 = self_base_factor_corr R h.
Proof.
  cbv zeta. pose proof (preserves_generate_profile R target_score h) as Hp.
  split; [|done]. rewrite Hp. by destruct h.
Qed.

End SamplerClaims.

(** ** The theorems on recorded draws *)

Section Recorded.
Import Latent.

Local Abbreviation R := Replay.random_state.

Lemma fresh_constructed t : constructed R (Replay.fresh t).
Proof. reflexivity. Qed.

Lemma samplers_exact_sum_witness :
  (∃ scores r',
     Borentain.generate_from_matrix R Replay.identity_frame 7 Replay.recorded
     = (Ok scores, r') ∧
     dict_sum scores = Z.min 7 60) ∧
  (∃ scores r',
     Hopkins.generate R 7 Replay.recorded = (Ok scores, r') ∧
     dict_sum scores = Z.min 7 60).
Proof.
  apply (samplers_exact_sum R Replay.identity_frame 7 Replay.recorded).
  - lia.
  - exact item_keys_NoDup.
  - reflexivity.
Defined.

Lemma adjustment_reaches_target_witness :
  ∃ continuous discrete h' adjusted,
    sample_items R 30 (Replay.fresh Replay.recorded)
    = (Ok (continuous, discrete), h') ∧
    adjustment_loop 30 continuous discrete = Ok adjusted ∧
    complete adjusted ∧
    dict_sum adjusted = 30 ∧
    (generate_profile R 30 (Replay.fresh Replay.recorded)).1
    = (final ← Rules._apply_madrs_rules adjusted; Ok (Some final)).
Proof.
  apply (adjustment_reaches_target R 30 (Replay.fresh Replay.recorded)).
  - apply fresh_constructed.
  - lia.
Defined.

Lemma scores_in_range_witness :
  ∃ continuous discrete h' adjusted final,
    sample_items R 30 (Replay.fresh Replay.recorded)
    = (Ok (continuous, discrete), h') ∧
    in_range discrete ∧
    adjustment_loop 30 continuous discrete = Ok adjusted ∧
    in_range adjusted ∧
    Rules._apply_madrs_rules adjusted = Ok final ∧
    in_range final ∧ complete final ∧
    generate_profile R 30 (Replay.fresh Replay.recorded) = (Ok (Some final), h').
Proof.
  apply (scores_in_range R Replay.identity_frame 30 Replay.recorded
           (Replay.fresh Replay.recorded)).
  - apply fresh_constructed.
  - lia.
Defined.

Lemma generated_profile_plausible_witness :
  ∃ final h' rs st pt itf it sl,
    generate_profile R 30 (Replay.fresh Replay.recorded) = (Ok (Some final), h') ∧
    final !! "REPORTED_SADNESS" = Some rs ∧
    final !! "SUICIDAL_THOUGHTS" = Some st ∧
    final !! "PESSIMISTIC_THOUGHTS" = Some pt ∧
    final !! "INABILITY_TO_FEEL" = Some itf ∧
    final !! "INNER_TENSION" = Some it ∧
    final !! "REDUCED_SLEEP" = Some sl ∧
    (rs ≤ 1 → st ≤ 2 ∧ pt ≤ 2) ∧
    (4 ≤ itf → 2 ≤ rs) ∧
    (4 ≤ it → 0 < sl) ∧
    Checker.check_clinical_rules final = Ok [].
Proof.
  apply (generated_profile_plausible R 30 (Replay.fresh Replay.recorded)).
  - apply fresh_constructed.
  - lia.
Defined.

Lemma generate_profile_fails_iff_witness :
  ((generate_profile R 30 (Replay.fresh Replay.recorded)).1 = Ok None
   ↔ ¬ 0 ≤ 30 ≤ 60) ∧
  ((∃ profile,
      (generate_profile R 30 (Replay.fresh Replay.recorded)).1 = Ok (Some profile))
   ↔ 0 ≤ 30 ≤ 60) ∧
  (generate_profile R (-5) (Replay.fresh Replay.recorded)).1 = Ok None ∧
  (generate_profile R 61 (Replay.fresh Replay.recorded)).1 = Ok None.
Proof.
  apply (generate_profile_fails_iff R 30 (Replay.fresh Replay.recorded)).
  apply fresh_constructed.
Defined.

(** C6 as stated fails: on draws that round to reported sadness 0 and to
    pessimistic and suicidal thoughts 6, with every other item 0, the sum
    is the target 12 before the pass; the pass stores 2 and 1, and the
    returned profile sums to 3, at distance 9 from the target. *)
Lemma clinical_pass_drift_counterexample :
  let h := Replay.fresh Replay.drift_down in
  let final := profile_of [0; 0; 0; 0; 0; 0; 0; 0; 2; 1] in
  constructed R h ∧ 0 ≤ 12 ≤ 60 ∧
  ((sample_items R 12 h).1 ≫= λ cd, Ok (scores_of cd.2, dict_sum cd.2))
  = Ok ([Some 0; Some 0; Some 0; Some 0; Some 0; Some 0; Some 0; Some 0;
         Some 6; Some 6], 12) ∧
  (generate_profile R 12 h).1 = Ok (Some final) ∧
  dict_sum final = 3 ∧
  ¬ Z.abs (dict_sum final - 12) ≤ 3.
Proof.
  cbv zeta.
  assert (dict_sum (profile_of [0; 0; 0; 0; 0; 0; 0; 0; 2; 1]) = 3) as E by run.
  split; [apply fresh_constructed|]. split; [lia|].
  split; [run|]. split; [run_to_profile|]. split; [done|].
  rewrite E. lia.
Qed.

Lemma clinical_pass_drift_witness :
  ∃ final h',
    generate_profile R 12 (Replay.fresh Replay.drift_down) = (Ok (Some final), h') ∧
    12 - 9 ≤ dict_sum final ≤ 12 + 5.
Proof.
  apply (clinical_pass_drift R 12 (Replay.fresh Replay.drift_down)).
  - apply fresh_constructed.
  - lia.
Defined.

(** The two bounds of the drift are met. *)
Example clinical_pass_drift_up :
  (generate_profile R 8 (Replay.fresh Replay.drift_up)).1
  = Ok (Some (profile_of [3; 0; 4; 2; 0; 0; 0; 4; 0; 0])) ∧
  dict_sum (profile_of [3; 0; 4; 2; 0; 0; 0; 4; 0; 0]) = 8 + 5.
Proof. split; [run_to_profile|run]. Qed.

End Recorded.

(** ** The checker: reading a row *)

Section CheckerRows.
Import Violations.

Lemma bind_Ok {A B : Type} (a : A) (f : A → result B) : (Ok a ≫= f) = f a.
Proof. reflexivity. Qed.

Lemma bind_Raise {A B : Type} (e : exn) (f : A → result B) :
  (Raise e ≫= f) = Raise e.
Proof. reflexivity. Qed.

Lemma getitem_Some {V : Type} (d : gmap string V) k v :
  d !! k = Some v → getitem d k = Ok v.
Proof. intros E. unfold getitem. by rewrite E. Qed.

Lemma getitem_None {V : Type} (d : gmap string V) k :
  d !! k = None → getitem d k = Raise (KeyError k).
Proof. intros E. unfold getitem. by rewrite E. Qed.

Lemma if_Ok {A : Type} (c : bool) (x y : A) :
  (if c then Ok x else Ok y) = Ok (if c then x else y).
Proof. by destruct c. Qed.

Lemma if_flag (c : bool) (vs : list string) name :
  (if c then vs ++ [name] else vs) = vs ++ flag c name.
Proof. destruct c; simpl; [done|by rewrite app_nil_r]. Qed.

Lemma if_app {A : Type} (c : bool) (vs xs ys : list A) :
  (if c then vs ++ xs else vs ++ ys) = vs ++ (if c then xs else ys).
Proof. by destruct c. Qed.

(** The comprehension copies the listed columns in order and stops at the
    first one the row lacks. *)
Lemma copy_columns_ok (row : gmap string Z) cols (acc : gmap string Z) :
  Forall (λ k, is_Some (row !! k)) cols →
  ∃ s, for_each_pure (λ s k, v ← getitem row k; Ok (<[k := v]> s)) cols acc = Ok s ∧
       ∀ k, s !! k = if decide (k ∈ cols) then row !! k else acc !! k.
Proof.
  intros Hc. revert acc. induction Hc as [|c cols [v Hv] _ IH]; intros acc.
  - exists acc. split; [done|]. intros k. rewrite decide_False; [done|].
    by intros ?%elem_of_nil.
  - destruct (IH (<[c := v]> acc)) as (s&Hs&Hl).
    exists s. split.
    + cbn [for_each_pure]. rewrite (getitem_Some _ _ _ Hv), !bind_Ok. exact Hs.
    + intros k. rewrite Hl. destruct (decide (k ∈ cols)) as [Hin|Hnin].
      * rewrite decide_True by by right. done.
      * destruct (decide (k = c)) as [->|Hne].
        -- rewrite decide_True by left. by rewrite lookup_insert_eq.
        -- rewrite decide_False by (intros [?|?]%elem_of_cons; done).
           by rewrite lookup_insert_ne.
Qed.

Lemma copy_columns_missing (row : gmap string Z) cols (acc : gmap string Z) i k :
  list_find (λ k, row !! k = None) cols = Some (i, k) →
  for_each_pure (λ s k, v ← getitem row k; Ok (<[k := v]> s)) cols acc
  = Raise (KeyError k).
Proof.
  revert acc i. induction cols as [|c cols IH]; intros acc i Hf; [done|].
  cbn [for_each_pure]. cbn [list_find] in Hf.
  destruct (decide (row !! c = None)) as [Hc|Hc].
  - injection Hf as <- <-. by rewrite (getitem_None _ _ Hc).
  - destruct (row !! c) as [v|] eqn:Hv; [|done].
    rewrite (getitem_Some _ _ _ Hv), !bind_Ok.
    destruct (list_find _ cols) as [[j k']|] eqn:Hj; [|done].
    simpl in Hf. injection Hf as <- <-. by eapply IH.
Qed.

Lemma item_scores_ok row :
  complete row →
  ∃ s, item_scores row = Ok s ∧ complete s ∧
       (∀ k, k ∈ ITEM_COLS → s !! k = row !! k) ∧
       (∀ k, k ∉ ITEM_COLS → s !! k = None).
Proof.
  intros Hc. destruct (copy_columns_ok row ITEM_COLS ∅ Hc) as (s&Hs&Hl).
  exists s. split; [done|].
  assert (∀ k, k ∈ ITEM_COLS → s !! k = row !! k) as Hin.
  { intros k Hk. by rewrite Hl, decide_True. }
  split; [|split; [done|]].
  - apply Forall_forall. intros k Hk. rewrite (Hin k Hk).
    unfold complete in Hc. rewrite Forall_forall in Hc. by apply Hc.
  - intros k Hk. by rewrite Hl, decide_False.
Qed.

End CheckerRows.

(** ** The checker: the generating rules *)

Section GeneratingRules.
Import Violations.

Lemma getitem_score (s : gmap string Z) k :
  is_Some (s !! k) → getitem s k = Ok (score s k).
Proof. intros [v Hv]. unfold score. rewrite Hv. by apply getitem_Some. Qed.

Lemma complete_is_Some s k : complete s → k ∈ ITEM_COLS → is_Some (s !! k).
Proof.
  intros Hc Hk. unfold complete in Hc. rewrite Forall_forall in Hc. by apply Hc.
Qed.

Lemma if_flag2 (c d : bool) (vs : list string) name :
  (if c then vs ++ flag d name else vs) = vs ++ flag (c && d) name.
Proof. destruct c; simpl; [done|by rewrite app_nil_r]. Qed.

Lemma range_loop (s : gmap string Z) cols vs :
  Forall (λ k, is_Some (s !! k)) cols →
  for_each_pure (λ violations item,
    v ← getitem s item;
    c ← (if v <? 0 then Ok true else v ← getitem s item; Ok (6 <? v));
    Ok (if c : bool
        then violations ++ ["item_range_0_to_6"%string]
        else violations)) cols vs
  = Ok (vs ++ concat ((λ k, flag ((score s k <? 0) || (6 <? score s k))
                                 "item_range_0_to_6") <$> cols)).
Proof.
  intros Hc. revert vs. induction Hc as [|c cols Hc _ IH]; intros vs.
  - simpl. by rewrite app_nil_r.
  - cbn [for_each_pure]. rewrite (getitem_score _ _ Hc), !bind_Ok. cbv beta.
    rewrite if_Ok, !bind_Ok. cbv beta.
    replace (if score s c <? 0 then true else 6 <? score s c)
      with ((score s c <? 0) || (6 <? score s c)) by by destruct (score s c <? 0).
    rewrite if_flag, IH, fmap_cons.
    simpl concat.
    by rewrite <-app_assoc.
Qed.

Lemma item_scores_dom row s :
  complete row → item_scores row = Ok s → dom s = list_to_set ITEM_COLS.
Proof.
  intros Hc Hs. destruct (item_scores_ok row Hc) as (s'&Hs'&Hcs&_&Hout).
  assert (s' = s) as -> by congruence.
  apply set_eq. intros k. rewrite elem_of_dom, elem_of_list_to_set. split.
  - intros Hk. destruct (decide (k ∈ ITEM_COLS)) as [|Hn]; [done|].
    rewrite (Hout k Hn) in Hk. by destruct Hk.
  - by apply complete_is_Some.
Qed.

(** The run of the generating rules on a row that has the ten items: what
    is left is the read of [target_score]. *)
Lemma check_generating_rules_run row :
  complete row →
  ∃ s, item_scores row = Ok s ∧ complete s ∧
       (∀ k, k ∈ ITEM_COLS → s !! k = row !! k) ∧
       check_generating_rules row
       = (target ← getitem row "target_score"; Ok (generating_violations s target)).
Proof.
  intros Hc. destruct (item_scores_ok row Hc) as (s&Hs&Hcs&Hin&Hout).
  exists s. do 3 (split; [done|]).
  assert (∀ k, k ∈ ITEM_COLS → getitem s k = Ok (score s k)) as Hg.
  { intros k Hk. by apply getitem_score, complete_is_Some. }
  unfold check_generating_rules, generating_violations. rewrite Hs, bind_Ok.
  assert ("REPORTED_SADNESS" ∈ ITEM_COLS) as Hrs by decide_by_run.
  assert ("APPARENT_SADNESS" ∈ ITEM_COLS) as Has by decide_by_run.
  assert ("SUICIDAL_THOUGHTS" ∈ ITEM_COLS) as Hst by decide_by_run.
  assert ("PESSIMISTIC_THOUGHTS" ∈ ITEM_COLS) as Hpt by decide_by_run.
  assert ("INABILITY_TO_FEEL" ∈ ITEM_COLS) as Hitf by decide_by_run.
  repeat (rewrite ?(Hg _ Hrs), ?(Hg _ Has), ?(Hg _ Hst), ?(Hg _ Hpt), ?(Hg _ Hitf);
          progress (rewrite ?bind_Ok, ?if_Ok; cbv beta)).
  rewrite (range_loop s ITEM_COLS _ Hcs), bind_Ok. cbv beta.
  destruct (getitem row "target_score") as [target|e]; [|done].
  rewrite !bind_Ok. f_equal.
  unfold max_suicide.
  repeat rewrite if_flag. repeat rewrite if_app. rewrite if_flag2.
  rewrite app_nil_l, <-!app_assoc. reflexivity.
Qed.

End GeneratingRules.

(** ** The checker: what it accepts *)

Section CheckerFacts.
Import Violations.

Lemma flag_nil c name : flag c name = [] ↔ c = false.
Proof. by destruct c. Qed.

Lemma elem_of_flag c name x : x ∈ flag c name ↔ c = true ∧ x = name.
Proof.
  destruct c; simpl.
  - rewrite list_elem_of_singleton. naive_solver.
  - split; [by intros ?%elem_of_nil|by intros [? _]].
Qed.

Lemma range_flags_nil (s : gmap string Z) cols :
  concat ((λ k, flag ((score s k <? 0) || (6 <? score s k)) "item_range_0_to_6")
            <$> cols) = []
  ↔ Forall (λ k, 0 ≤ score s k ≤ 6) cols.
Proof.
  induction cols as [|c cols IH]; [by split; [constructor|]|].
  rewrite fmap_cons. simpl concat. rewrite app_nil, flag_nil, IH, Forall_cons.
  rewrite orb_false_iff, !Z.ltb_ge. split; intros [? ?]; (split; [lia|done]).
Qed.

Lemma elem_of_range_flags (s : gmap string Z) cols x :
  x ∈ concat ((λ k, flag ((score s k <? 0) || (6 <? score s k)) "item_range_0_to_6")
                <$> cols)
  ↔ x = "item_range_0_to_6"%string ∧ Exists (λ k, ¬ 0 ≤ score s k ≤ 6) cols.
Proof.
  induction cols as [|c cols IH].
  - simpl. split; [by intros ?%elem_of_nil|]. by intros [_ ?%Exists_nil].
  - rewrite fmap_cons. simpl concat. rewrite elem_of_app, elem_of_flag, IH, Exists_cons.
    rewrite orb_true_iff, !Z.ltb_lt. split.
    + intros [[? ->]|[-> ?]]; (split; [done|]); [left; lia|by right].
    + intros [-> [?|?]]; [left; split; [lia|done]|right; done].
Qed.

(** [sum(s.values())] of a dictionary whose keys are the given distinct
    ones is the sum of their scores. *)
Lemma dict_sum_keys (keys : list string) (s : gmap string Z) :
  NoDup keys → dom s = list_to_set keys → dict_sum s = Zsum (score s <$> keys).
Proof.
  intros Hnd. revert s. induction Hnd as [|k keys Hk Hnd IH]; intros s Hdom.
  - simpl in Hdom. apply dom_empty_inv_L in Hdom as ->. apply dict_sum_empty.
  - assert (is_Some (s !! k)) as [v Hv].
    { apply elem_of_dom. rewrite Hdom. set_solver. }
    assert (score s k = v) as Esk by (unfold score; by rewrite Hv).
    rewrite (dict_sum_delete s k v Hv), fmap_cons, Zsum_cons, Esk.
    rewrite (IH (delete k s)).
    + assert (score (delete k s) <$> keys = score s <$> keys) as ->; [|lia].
      apply list_fmap_ext. intros i k' Hk'. unfold score.
      rewrite lookup_delete_ne; [done|].
      intros ->. apply Hk. by eapply list_elem_of_lookup_2.
    + rewrite dom_delete_L, Hdom. set_solver.
Qed.

Lemma item_total_agree (s row : gmap string Z) :
  (∀ k, k ∈ ITEM_COLS → s !! k = row !! k) → item_total s = item_total row.
Proof.
  intros Hin. unfold item_total. f_equal. apply list_fmap_ext.
  intros i k Hk. unfold score. rewrite Hin; [done|]. by eapply list_elem_of_lookup_2.
Qed.

Lemma score_agree (s row : gmap string Z) k :
  (∀ k, k ∈ ITEM_COLS → s !! k = row !! k) → k ∈ ITEM_COLS → score s k = score row k.
Proof. intros Hin Hk. unfold score. by rewrite Hin. Qed.

Lemma generating_violations_nil (s : gmap string Z) target :
  generating_violations s target = []
  ↔ (Z.abs (score s "APPARENT_SADNESS" - score s "REPORTED_SADNESS") ≤ 1 ∧
     score s "SUICIDAL_THOUGHTS" ≤ suicide_cap (score s "REPORTED_SADNESS") ∧
     score s "PESSIMISTIC_THOUGHTS" ≤ pessimism_cap (score s "REPORTED_SADNESS") ∧
     (0 < score s "REPORTED_SADNESS" →
      score s "REPORTED_SADNESS" `div` 2 ≤ score s "INABILITY_TO_FEEL") ∧
     Forall (λ k, 0 ≤ score s k ≤ 6) ITEM_COLS ∧
     dict_sum s = target).
Proof.
  unfold generating_violations, suicide_cap, pessimism_cap.
  rewrite !app_nil, range_flags_nil, !flag_nil.
  rewrite negb_false_iff, Z.eqb_eq, andb_false_iff, !Z.ltb_ge.
  destruct (Z.eqb_spec (score s "REPORTED_SADNESS") 0) as [E|E];
    rewrite !flag_nil, !Z.ltb_ge; intuition lia.
Qed.

Lemma ITEM_COLS_NoDup : NoDup ITEM_COLS.
Proof. exact item_keys_NoDup. Qed.

Lemma clinical_violations_nil v : clinical_violations v = [] ↔ plausible_v v.
Proof.
  destruct v as [rs st pt itf it sl]. unfold clinical_violations, plausible_v. simpl.
  rewrite !app_nil, !flag_nil, !andb_false_iff.
  rewrite !Z.leb_gt, !Z.ltb_ge, Z.eqb_neq. intuition lia.
Qed.

Lemma check_clinical_rules_run s v :
  has_view s v → Checker.check_clinical_rules s = Ok (clinical_violations v).
Proof.
  intros (Hrs&Hst&Hpt&Hitf&Hit&Hsl).
  unfold Checker.check_clinical_rules, clinical_violations, getitem.
  rewrite Hrs, Hitf, Hit. simpl.
  destruct (v_rs v <=? 1); simpl; rewrite ?Hst, ?Hpt; simpl;
    destruct (4 <=? v_itf v); simpl;
    destruct (4 <=? v_it v); simpl; rewrite ?Hsl; simpl;
    by destruct (2 <? v_st v), (2 <? v_pt v), (v_rs v <? 2), (v_sl v =? 0).
Qed.

Lemma row_has_view (s row : gmap string Z) v :
  (∀ k, k ∈ ITEM_COLS → s !! k = row !! k) → has_view row v → has_view s v.
Proof.
  intros Hin (Hrs&Hst&Hpt&Hitf&Hit&Hsl). unfold has_view.
  rewrite !Hin by decide_by_run. done.
Qed.

(** The clinical rules on a row that has the ten items. *)
Lemma check_clinical_rules_row row v :
  complete row → has_view row v →
  Violations.check_clinical_rules row = Ok (clinical_violations v).
Proof.
  intros Hc Hv. destruct (item_scores_ok row Hc) as (s&Hs&_&Hin&_).
  unfold Violations.check_clinical_rules. rewrite Hs, bind_Ok.
  apply check_clinical_rules_run. by eapply row_has_view.
Qed.

Lemma complete_insert (s : gmap string Z) k v : complete s → complete (<[k := v]> s).
Proof.
  unfold complete. intros Hc. eapply Forall_impl; [exact Hc|].
  intros k' Hk'. apply lookup_insert_is_Some'. by right.
Qed.

Lemma complete_write_view w s : complete s → complete (write_view w s).
Proof. intros Hc. unfold write_view. by repeat apply complete_insert. Qed.

End CheckerFacts.

(** ** The checker on rows: errors and acceptance *)

Section CheckerTheorems.
Import Violations.

Lemma generating_violations_range (s : gmap string Z) target :
  "item_range_0_to_6"%string ∈ generating_violations s target
  ↔ Exists (λ k, ¬ 0 ≤ score s k ≤ 6) ITEM_COLS.
Proof.
  unfold generating_violations.
  rewrite !elem_of_app, elem_of_range_flags, !elem_of_flag.
  destruct (score s "REPORTED_SADNESS" =? 0); rewrite !elem_of_flag; naive_solver.
Qed.

Lemma generating_violations_total (s : gmap string Z) target :
  "total_matches_target"%string ∈ generating_violations s target
  ↔ dict_sum s ≠ target.
Proof.
  unfold generating_violations.
  rewrite !elem_of_app, elem_of_range_flags, !elem_of_flag.
  rewrite negb_true_iff, Z.eqb_neq.
  destruct (score s "REPORTED_SADNESS" =? 0); rewrite !elem_of_flag; naive_solver.
Qed.

(** X1. Both checkers build their item dictionary first: on a row that
    lacks item columns each raises [KeyError] for the first missing one, in
    the order of [ITEM_COLS], whatever else the row holds. *)
Theorem checkers_raise_first_missing row k :
  first_missing row = Some k →
  Violations.check_generating_rules row = Raise (KeyError k) ∧
  Violations.check_clinical_rules row = Raise (KeyError k).
Proof.
  unfold first_missing. intros Hf.
  destruct (list_find _ ITEM_COLS) as [[i k']|] eqn:Hi; [|done].
  simpl in Hf. injection Hf as ->.
  pose proof (copy_columns_missing row ITEM_COLS ∅ i k Hi) as Hs.
  unfold Violations.check_generating_rules, Violations.check_clinical_rules, item_scores.
  by rewrite Hs.
Qed.

Lemma checkers_raise_first_missing_witness :
  let row := delete "LASSITUDE" (delete "REDUCED_SLEEP"
               (<["target_score" := 12]> (profile_of [3; 3; 0; 0; 0; 0; 0; 1; 3; 2]))) in
  Violations.check_generating_rules row = Raise (KeyError "REDUCED_SLEEP") ∧
  Violations.check_clinical_rules row = Raise (KeyError "REDUCED_SLEEP").
Proof.
  apply (checkers_raise_first_missing
           (delete "LASSITUDE" (delete "REDUCED_SLEEP"
              (<["target_score" := 12]> (profile_of [3; 3; 0; 0; 0; 0; 0; 1; 3; 2]))))
           "REDUCED_SLEEP").
  run.
Defined.

(** X2. [check_generating_rules] reads [target_score] last: a row with the
    ten items and no target raises [KeyError] for [target_score], while
    [check_clinical_rules] never reads the target and returns its list. *)
Theorem target_score_read_by_generating_rules_only row :
  complete row → row !! "target_score" = None →
  Violations.check_generating_rules row = Raise (KeyError "target_score") ∧
  ∃ vs, Violations.check_clinical_rules row = Ok vs.
Proof.
  intros Hc Ht. split.
  - destruct (check_generating_rules_run row Hc) as (s&_&_&_&->).
    by rewrite (getitem_None _ _ Ht).
  - destruct (complete_has_view row Hc) as [v Hv].
    exists (clinical_violations v). by apply check_clinical_rules_row.
Qed.

Lemma target_score_read_by_generating_rules_only_witness :
  let row := profile_of [3; 3; 0; 0; 0; 0; 0; 1; 3; 2] in
  Violations.check_generating_rules row = Raise (KeyError "target_score") ∧
  ∃ vs, Violations.check_clinical_rules row = Ok vs.
Proof.
  apply (target_score_read_by_generating_rules_only
           (profile_of [3; 3; 0; 0; 0; 0; 0; 1; 3; 2])).
  - by apply complete_profile_of.
  - run.
Defined.

(** X3. On a row with the ten items and a target, [check_generating_rules]
    reports nothing exactly when every item is in [0,6], the items sum to
    the target, apparent sadness is within 1 of reported sadness, suicidal
    and pessimistic thoughts are 0 when reported sadness is 0 and otherwise
    at most [max_suicide] and [min(6, sadness + 2)], and, for positive
    sadness, inability to feel is at least half of it. *)
Theorem generating_rules_accept_iff row target :
  complete row → row !! "target_score" = Some target →
  (Violations.check_generating_rules row = Ok [] ↔ generating_contract row target).
Proof.
  intros Hc Ht. destruct (check_generating_rules_run row Hc) as (s&Hs&Hcs&Hin&->).
  rewrite (getitem_Some _ _ _ Ht), bind_Ok.
  pose proof (item_scores_dom row s Hc Hs) as Hdom.
  pose proof (dict_sum_keys ITEM_COLS s ITEM_COLS_NoDup Hdom) as Hsum.
  fold (item_total s) in Hsum. rewrite (item_total_agree s row Hin) in Hsum.
  assert (Forall (λ k, 0 ≤ score s k ≤ 6) ITEM_COLS
          ↔ Forall (λ k, 0 ≤ score row k ≤ 6) ITEM_COLS) as Hrange.
  { rewrite !Forall_forall. split; intros Hr k Hk; specialize (Hr k Hk).
    - by rewrite <-(score_agree s row k Hin Hk).
    - by rewrite (score_agree s row k Hin Hk). }
  split.
  - intros [=E]. apply generating_violations_nil in E. unfold generating_contract.
    rewrite <-Hrange, <-Hsum.
    rewrite <-!(score_agree s row _ Hin) by decide_by_run. exact E.
  - intros E. f_equal. apply generating_violations_nil. unfold generating_contract in E.
    rewrite <-Hrange, <-Hsum in E.
    rewrite <-!(score_agree s row _ Hin) in E by decide_by_run. exact E.
Qed.

Lemma generating_rules_accept_iff_witness :
  let row := <["target_score" := 12]> (profile_of [3; 3; 0; 0; 0; 0; 0; 1; 3; 2]) in
  Violations.check_generating_rules row = Ok [] ↔ generating_contract row 12.
Proof.
  apply (generating_rules_accept_iff
           (<["target_score" := 12]> (profile_of [3; 3; 0; 0; 0; 0; 0; 1; 3; 2])) 12).
  - by apply complete_insert, complete_profile_of.
  - run.
Defined.

(** X4. [check_clinical_rules] reports nothing on a mapping of the ten
    items exactly when [_apply_madrs_rules] returns that mapping
    unchanged: the checker's four rules are the conditions under which the
    pass writes. *)
Theorem clinical_check_accepts_fixed_points scores :
  complete scores →
  (Violations.check_clinical_rules scores = Ok []
   ↔ Rules._apply_madrs_rules scores = Ok scores).
Proof.
  intros Hc. destruct (complete_has_view scores Hc) as [v Hv].
  rewrite (check_clinical_rules_row scores v Hc Hv).
  rewrite (apply_madrs_rules_view scores v Hv).
  split.
  - intros [=E]. apply clinical_violations_nil, plausible_v_fixed in E.
    rewrite E. f_equal. by apply write_view_id.
  - intros [=E]. f_equal. apply clinical_violations_nil.
    assert (pass_v v = v) as <-; [|apply pass_v_plausible].
    eapply has_view_inj; [|exact Hv]. rewrite <-E at 1. apply has_view_write.
Qed.

Lemma clinical_check_accepts_fixed_points_witness :
  let scores := profile_of [0; 0; 5; 0; 0; 0; 0; 4; 0; 5] in
  Violations.check_clinical_rules scores = Ok []
  ↔ Rules._apply_madrs_rules scores = Ok scores.
Proof.
  apply (clinical_check_accepts_fixed_points (profile_of [0; 0; 5; 0; 0; 0; 0; 4; 0; 5])).
  by apply complete_profile_of.
Defined.

(** X5. Whatever integers a mapping of the ten items holds, in range or
    not, the output of [_apply_madrs_rules] has the ten items and passes
    [check_clinical_rules] without a violation. *)
Theorem pass_output_passes_clinical_check scores :
  complete scores →
  ∃ scores', Rules._apply_madrs_rules scores = Ok scores' ∧
             complete scores' ∧
             Violations.check_clinical_rules scores' = Ok [].
Proof.
  intros Hc. destruct (complete_has_view scores Hc) as [v Hv].
  exists (write_view (pass_v v) scores).
  split; [by apply apply_madrs_rules_view|].
  split; [by apply complete_write_view|].
  rewrite (check_clinical_rules_row _ (pass_v v)).
  - f_equal. apply clinical_violations_nil, pass_v_plausible.
  - by apply complete_write_view.
  - apply has_view_write.
Qed.

Lemma pass_output_passes_clinical_check_witness :
  ∃ scores', Rules._apply_madrs_rules (profile_of [-4; 0; 9; 0; 0; 0; 0; 7; 11; 8])
             = Ok scores' ∧
             complete scores' ∧
             Violations.check_clinical_rules scores' = Ok [].
Proof.
  apply (pass_output_passes_clinical_check (profile_of [-4; 0; 9; 0; 0; 0; 0; 7; 11; 8])).
  by apply complete_profile_of.
Defined.

End CheckerTheorems.

(** ** The clinical-rule pass: what it leaves alone *)

Section PassFrame.
Import Rules.

Lemma pass_v_frame v :
  v_itf (pass_v v) = v_itf v ∧ v_it (pass_v v) = v_it v ∧
  v_rs v ≤ v_rs (pass_v v) ∧ v_sl v ≤ v_sl (pass_v v) ∧
  v_st (pass_v v) ≤ v_st v ∧ v_pt (pass_v v) ≤ v_pt v.
Proof. destruct v. view_cases; lia. Qed.

Lemma has_view_score scores v :
  has_view scores v →
  score scores "REPORTED_SADNESS" = v_rs v ∧
  score scores "SUICIDAL_THOUGHTS" = v_st v ∧
  score scores "PESSIMISTIC_THOUGHTS" = v_pt v ∧
  score scores "REDUCED_SLEEP" = v_sl v.
Proof. intros (Hrs&Hst&Hpt&_&_&Hsl). unfold score. by rewrite Hrs, Hst, Hpt, Hsl. Qed.

Lemma write_view_other w scores k :
  k ∉ written_items → k ≠ "INABILITY_TO_FEEL"%string → k ≠ "INNER_TENSION"%string →
  write_view w scores !! k = scores !! k.
Proof.
  intros Hk ? ?. unfold write_view.
  repeat (rewrite lookup_insert_ne;
            [|intros <-; first [congruence | apply Hk; decide_by_run]]).
  done.
Qed.

(** Every rule keeps the set of keys, and raises only for a key that the
    mapping lacks. *)
Lemma run_rule_keys r (scores : gmap string Z) :
  match run_rule r scores with
  | Ok scores' => dom scores' = dom scores
  | Raise e => ∃ k, e = KeyError k ∧ scores !! k = None
  end.
Proof.
  destruct r; simpl.
  - unfold mood_gate, getitem.
    destruct (scores !! "REPORTED_SADNESS") as [rs|] eqn:Hrs; simpl; [|eauto].
    destruct (rs <=? 1); simpl; [|done].
    destruct (scores !! "SUICIDAL_THOUGHTS") as [st|] eqn:Hst; simpl; [|eauto].
    destruct (2 <? st).
    + rewrite lookup_insert_ne by done.
      destruct (scores !! "PESSIMISTIC_THOUGHTS") as [pt|] eqn:Hpt; simpl; [|eauto].
      destruct (2 <? pt); rewrite ?dom_insert_lookup_L; try done;
        rewrite ?lookup_insert_ne by done; eauto.
    + destruct (scores !! "PESSIMISTIC_THOUGHTS") as [pt|] eqn:Hpt; simpl; [|eauto].
      destruct (2 <? pt); rewrite ?dom_insert_lookup_L; eauto.
  - unfold anhedonia_link, getitem.
    destruct (scores !! "INABILITY_TO_FEEL") as [itf|] eqn:Hitf; simpl; [|eauto].
    destruct (4 <=? itf); simpl; [|done].
    destruct (scores !! "REPORTED_SADNESS") as [rs|] eqn:Hrs; simpl; [|eauto].
    destruct (rs <? 2); rewrite ?dom_insert_lookup_L; eauto.
  - unfold tension_sleep_link, getitem.
    destruct (scores !! "INNER_TENSION") as [it|] eqn:Hit; simpl; [|eauto].
    destruct (4 <=? it); simpl; [|done].
    destruct (scores !! "REDUCED_SLEEP") as [sl|] eqn:Hsl; simpl; [|eauto].
    destruct (sl =? 0); rewrite ?dom_insert_lookup_L; eauto.
Qed.

Lemma run_rules_keys order (scores : gmap string Z) :
  match foldl (λ acc r, s ← acc; run_rule r s) (Ok scores) order with
  | Ok scores' => dom scores' = dom scores
  | Raise e => ∃ k, e = KeyError k ∧ scores !! k = None
  end.
Proof.
  revert scores. induction order as [|r order IH]; intros scores; [done|].
  simpl. pose proof (run_rule_keys r scores) as Hr.
  destruct (run_rule r scores) as [scores1|e].
  - specialize (IH scores1).
    destruct (foldl _ (Ok scores1) order) as [scores'|e'].
    + congruence.
    + destruct IH as (k&->&Hk). exists k. split; [done|].
      apply not_elem_of_dom. rewrite <-Hr. by apply not_elem_of_dom.
  - assert (foldl (λ acc r, s ← acc; run_rule r s) (Raise e) order = Raise e) as ->.
    { clear. induction order as [|r order IH]; [done|]. simpl. exact IH. }
    done.
Qed.

(** X6. On any mapping, complete or not, [_apply_madrs_rules] never adds
    or removes a key, and the only exception it raises is the [KeyError]
    of an item the mapping lacks; a mapping without [REPORTED_SADNESS] is
    returned as it is. *)
Theorem apply_madrs_rules_keeps_keys (scores : gmap string Z) :
  match _apply_madrs_rules scores with
  | Ok scores' =>
      dom scores' = dom scores ∧
      (scores !! "REPORTED_SADNESS" = None → scores' = scores)
  | Raise e =>
      ∃ k, e = KeyError k ∧ scores !! k = None ∧
           is_Some (scores !! "REPORTED_SADNESS")
  end.
Proof.
  rewrite <-apply_in_order_implemented. unfold apply_in_order.
  destruct (decide (is_Some (scores !! "REPORTED_SADNESS"))) as [Hrs|Hrs].
  - pose proof (run_rules_keys implemented_order scores) as Hk.
    destruct (foldl _ (Ok scores) implemented_order) as [scores'|e].
    + split; [done|]. intros Hn. rewrite Hn in Hrs. by destruct Hrs.
    + destruct Hk as (k&->&Hk). by exists k.
  - done.
Qed.

(** X7. On a mapping of the ten items the pass writes at most four of
    them, and each in one direction only: reported sadness and reduced
    sleep are never lowered, suicidal and pessimistic thoughts are never
    raised, and every other key keeps its value. *)
Theorem apply_madrs_rules_frame scores :
  complete scores →
  ∃ scores',
    _apply_madrs_rules scores = Ok scores' ∧
    (∀ k, k ∉ written_items → scores' !! k = scores !! k) ∧
    score scores "REPORTED_SADNESS" ≤ score scores' "REPORTED_SADNESS" ∧
    score scores "REDUCED_SLEEP" ≤ score scores' "REDUCED_SLEEP" ∧
    score scores' "SUICIDAL_THOUGHTS" ≤ score scores "SUICIDAL_THOUGHTS" ∧
    score scores' "PESSIMISTIC_THOUGHTS" ≤ score scores "PESSIMISTIC_THOUGHTS".
Proof.
  intros Hc. destruct (complete_has_view scores Hc) as [v Hv].
  exists (write_view (pass_v v) scores).
  split; [by apply apply_madrs_rules_view|].
  destruct (pass_v_frame v) as (Eitf&Eit&Hrs&Hsl&Hst&Hpt).
  split.
  - intros k Hk.
    destruct (decide (k = "INABILITY_TO_FEEL"%string)) as [->|Hn1].
    { destruct (has_view_write (pass_v v) scores) as (_&_&_&->&_).
      destruct Hv as (_&_&_&->&_). by rewrite Eitf. }
    destruct (decide (k = "INNER_TENSION"%string)) as [->|Hn2].
    { destruct (has_view_write (pass_v v) scores) as (_&_&_&_&->&_).
      destruct Hv as (_&_&_&_&->&_). by rewrite Eit. }
    by apply write_view_other.
  - destruct (has_view_score _ _ (has_view_write (pass_v v) scores)) as (->&->&->&->).
    destruct (has_view_score _ _ Hv) as (->&->&->&->). done.
Qed.

Lemma apply_madrs_rules_frame_witness :
  let scores := profile_of [0; 2; 5; 0; 1; 1; 1; 4; 6; 5] in
  ∃ scores',
    _apply_madrs_rules scores = Ok scores' ∧
    (∀ k, k ∉ written_items → scores' !! k = scores !! k) ∧
    score scores "REPORTED_SADNESS" ≤ score scores' "REPORTED_SADNESS" ∧
    score scores "REDUCED_SLEEP" ≤ score scores' "REDUCED_SLEEP" ∧
    score scores' "SUICIDAL_THOUGHTS" ≤ score scores "SUICIDAL_THOUGHTS" ∧
    score scores' "PESSIMISTIC_THOUGHTS" ≤ score scores "PESSIMISTIC_THOUGHTS".
Proof.
  apply (apply_madrs_rules_frame (profile_of [0; 2; 5; 0; 1; 1; 1; 4; 6; 5])).
  by apply complete_profile_of.
Defined.

End PassFrame.

(** ** The samplers at the ends of the target range, and under the checker *)



Lemma items_by_factor_keys : list_to_set items_by_factor =@{gset string} list_to_set item_keys.
Proof. apply list_to_set_perm_L. unfold items_by_factor, item_keys. apply perm_swap. Qed.

Lemma scores_over_by_factor scores :
  scores_over items_by_factor scores ↔ scores_over item_keys scores.
Proof. unfold scores_over. by rewrite items_by_factor_keys. Qed.

Lemma scores_over_perm items items' scores :
  items ≡ₚ items' → scores_over items scores → scores_over items' scores.
Proof. intros Hp [Hd Hr]. split; [|done]. by rewrite <-(list_to_set_perm_L _ _ Hp). Qed.

Section CheckedRows.
Import Violations.

(** A row whose items are in range and sum to its target draws neither
    the range nor the total violation. *)
Lemma exact_row_checked (row scores : gmap string Z) target :
  scores_over item_keys scores → dict_sum scores = target →
  (∀ k, k ∈ item_keys → row !! k = scores !! k) →
  row !! "target_score" = Some target →
  ∃ vs, Violations.check_generating_rules row = Ok vs ∧
        ("item_range_0_to_6"%string ∉ vs) ∧ ("total_matches_target"%string ∉ vs).
Proof.
  intros Hso Hsum Hrow Ht.
  assert (complete row) as Hc.
  { apply Forall_forall. intros k Hk. rewrite (Hrow k Hk).
    destruct (scores_over_lookup _ _ _ Hso Hk) as (v&->&_). eauto. }
  destruct (check_generating_rules_run row Hc) as (s&Hs&Hcs&Hin&->).
  rewrite (getitem_Some row "target_score" target Ht), bind_Ok.
  eexists. split; [done|].
  assert (∀ k, k ∈ ITEM_COLS → s !! k = scores !! k) as Hin'.
  { intros k Hk. by rewrite (Hin k Hk), (Hrow k Hk). }
  rewrite generating_violations_range, generating_violations_total. split.
  - rewrite Exists_exists. intros (k&Hk&Hr). apply Hr.
    rewrite (score_agree s scores k Hin' Hk).
    destruct (scores_over_lookup _ _ _ Hso Hk) as (v&Hv&?).
    unfold score. by rewrite Hv.
  - intros Hne. apply Hne.
    rewrite (dict_sum_keys ITEM_COLS s ITEM_COLS_NoDup (item_scores_dom row s Hc Hs)).
    rewrite <-Hsum, (dict_sum_keys ITEM_COLS scores ITEM_COLS_NoDup (proj1 Hso)).
    apply (item_total_agree s scores Hin').
Qed.

Lemma target_score_not_item : "target_score"%string ∉ item_keys.
Proof. apply (bool_decide_unpack _). vm_compute. exact I. Qed.

Lemma exact_profile_checked scores target :
  scores_over item_keys scores → dict_sum scores = target →
  ∃ vs, Violations.check_generating_rules (<["target_score" := target]> scores) = Ok vs ∧
        ("item_range_0_to_6"%string ∉ vs) ∧ ("total_matches_target"%string ∉ vs).
Proof.
  intros Hso Hsum. apply (exact_row_checked _ scores target); [done|done| |].
  - intros k Hk. apply lookup_insert_ne. intros <-. by apply target_score_not_item.
  - apply lookup_insert_eq.
Qed.

End CheckedRows.

Section SamplerEdges.
Context {F : Type} `{FloatOps F} (R : RandomState F).

(** X8. Rows made from the two point-distributing samplers pass the two
    generating rules that do not depend on the rule-based generator: for
    a target in [0,60], the profile returned by the flat sampler, and the
    one returned by the correlation-matrix sampler when the frame's rows
    are the ten items in any order, is reported neither out of range nor
    off its target by [check_generating_rules]. *)
Theorem sampled_rows_pass_range_and_total (df : DataFrame F) target_score r :
  0 ≤ target_score ≤ 60 → df_index df ≡ₚ item_keys →
  (∃ scores r' vs,
     Borentain.generate_from_matrix R df target_score r = (Ok scores, r') ∧
     Violations.check_generating_rules (<["target_score" := target_score]> scores)
     = Ok vs ∧
     ("item_range_0_to_6"%string ∉ vs) ∧ ("total_matches_target"%string ∉ vs)) ∧
  (∃ scores r' vs,
     Hopkins.generate R target_score r = (Ok scores, r') ∧
     Violations.check_generating_rules (<["target_score" := target_score]> scores)
     = Ok vs ∧
     ("item_range_0_to_6"%string ∉ vs) ∧ ("total_matches_target"%string ∉ vs)).
Proof.
  intros Ht Hp. split.
  - unfold Borentain.generate_from_matrix.
    set (n_items := length (df_index df)).
    assert (n_items = 10%nat) as Hn by (unfold n_items; by rewrite Hp).
    destruct (multivariate_normal R (replicate n_items (float 0)) (df_values df) r)
      as [raw_sample r1] eqn:Hmvn.
    set (probs := normalize ((λ x, fexp (fmul x (literal 1.5))) <$> raw_sample)).
    destruct (distribute_spec R probs (Z.to_nat target_score) (replicate n_items 0) r1)
      as (fs&r'&Hrun&Hlen&Hok&Hsum).
    { apply Forall_replicate. lia. }
    rewrite length_replicate in Hlen, Hsum. rewrite Zsum_replicate in Hsum.
    assert (NoDup (df_index df)) as Hnd by (rewrite Hp; apply item_keys_NoDup).
    destruct (exact_profile_checked (dict (zip (df_index df) fs)) target_score)
      as (vs&Hvs&Hr&Hs).
    + apply (scores_over_perm (df_index df)); [done|]. split.
      * rewrite dict_dom, fst_zip; [done|]. fold n_items. lia.
      * intros k v Hk. apply dict_lookup, elem_of_zip_r in Hk.
        rewrite Forall_forall in Hok. by apply Hok.
    + rewrite dict_sum_dict by (rewrite fst_zip; [done|fold n_items; lia]).
      rewrite snd_zip by (fold n_items; lia). rewrite Hsum, Hn. lia.
    + exists (dict (zip (df_index df) fs)), r', vs. split; [|done].
      erewrite M_bind_Ok; [|unfold np_multivariate_normal; by rewrite Hmvn].
      fold probs. erewrite M_bind_Ok; [|exact Hrun]. done.
  - destruct (generate_spec R target_score r) as (scores&r'&Hrun&Hso&Hsum).
    destruct (exact_profile_checked scores target_score) as (vs&Hvs&Hr&Hs).
    + by apply scores_over_by_factor.
    + rewrite Hsum. lia.
    + by exists scores, r', vs.
Qed.

(** X9. A target of zero or less gives the all-zero profile from both
    point-distributing samplers, over the frame's labels and over the ten
    items, and the only draw taken from the random stream is the one
    multivariate normal sample: [choice] is never called. *)
Theorem samplers_nonpositive_target (df : DataFrame F) target_score r :
  target_score ≤ 0 →
  (∃ scores,
     Borentain.generate_from_matrix R df target_score r
     = (Ok scores,
        (multivariate_normal R (replicate (length (df_index df)) (float 0))
           (df_values df) r).2) ∧
     dom scores = list_to_set (df_index df) ∧
     map_Forall (λ _ v, v = 0) scores) ∧
  (∃ scores,
     Hopkins.generate R target_score r
     = (Ok scores,
        (multivariate_normal R (replicate 4 (float 0)) Hopkins.factor_corr r).2) ∧
     dom scores = list_to_set item_keys ∧
     map_Forall (λ _ v, v = 0) scores).
Proof.
  intros Ht. split.
  - exists (dict (zip (df_index df) (replicate (length (df_index df)) 0))).
    split; [|split].
    + unfold Borentain.generate_from_matrix. rewrite (Z2Nat.nonpos _ Ht).
      unfold mbind, M_bind, np_multivariate_normal.
      by destruct (multivariate_normal R _ (df_values df) r).
    + rewrite dict_dom, fst_zip; [done|]. by rewrite length_replicate.
    + intros k v Hk. apply dict_lookup, elem_of_zip_r in Hk.
      by apply elem_of_replicate in Hk as [? _].
  - exists (dict ((λ item, (item, 0)) <$> items_by_factor)).
    destruct (zero_scores_over items_by_factor) as [[Hd Hr] _].
    split; [|split].
    + unfold Hopkins.generate. rewrite (Z2Nat.nonpos _ Ht).
      destruct (multivariate_normal R (replicate 4 (float 0)) Hopkins.factor_corr r)
        as [latent_values r1] eqn:Hmvn.
      assert (length latent_values = 4%nat) as Hl.
      { replace latent_values
          with (multivariate_normal R (replicate 4 (float 0)) Hopkins.factor_corr r).1
          by by rewrite Hmvn.
        by rewrite multivariate_normal_length. }
      destruct (propensities_of_total latent_values Hl) as (propensities&Hp&Hitems).
      erewrite M_bind_Ok; [|unfold np_multivariate_normal; by rewrite Hmvn].
      rewrite Hp, lift_bind. cbv zeta. by rewrite Hitems.
    + by rewrite Hd, items_by_factor_keys.
    + intros k v Hk. apply dict_lookup, list_elem_of_fmap in Hk as (item&[= _ ->]&_).
      done.
Qed.


End SamplerEdges.

Section RecordedEdges.

Local Abbreviation R := Replay.random_state.

Lemma sampled_rows_pass_range_and_total_witness :
  (∃ scores r' vs,
     Borentain.generate_from_matrix R Replay.identity_frame 7 Replay.recorded
     = (Ok scores, r') ∧
     Violations.check_generating_rules (<["target_score" := 7]> scores) = Ok vs ∧
     ("item_range_0_to_6"%string ∉ vs) ∧ ("total_matches_target"%string ∉ vs)) ∧
  (∃ scores r' vs,
     Hopkins.generate R 7 Replay.recorded = (Ok scores, r') ∧
     Violations.check_generating_rules (<["target_score" := 7]> scores) = Ok vs ∧
     ("item_range_0_to_6"%string ∉ vs) ∧ ("total_matches_target"%string ∉ vs)).
Proof.
  apply (sampled_rows_pass_range_and_total R Replay.identity_frame 7 Replay.recorded).
  - lia.
  - reflexivity.
Defined.

Lemma samplers_nonpositive_target_witness :
  (∃ scores,
     Borentain.generate_from_matrix R Replay.identity_frame (-3) Replay.recorded
     = (Ok scores,
        (multivariate_normal R (replicate (length (df_index Replay.identity_frame)) (float 0))
           (df_values Replay.identity_frame) Replay.recorded).2) ∧
     dom scores = list_to_set (df_index Replay.identity_frame) ∧
     map_Forall (λ _ v, v = 0) scores) ∧
  (∃ scores,
     Hopkins.generate R (-3) Replay.recorded
     = (Ok scores,
        (multivariate_normal R (replicate 4 (float 0)) Hopkins.factor_corr
           Replay.recorded).2) ∧
     dom scores = list_to_set item_keys ∧
     map_Forall (λ _ v, v = 0) scores).
Proof.
  apply (samplers_nonpositive_target R Replay.identity_frame (-3) Replay.recorded).
  lia.
Defined.


End RecordedEdges.

(** ** The hierarchical sampler: inside the stages *)

Section LatentInside.
Context {F : Type} `{FloatOps F}.
Import Latent.

Lemma score_insert (d : gmap string Z) k v k' :
  score (<[k := v]> d) k' = if decide (k = k') then v else score d k'.
Proof.
  unfold score. destruct (decide (k = k')) as [->|Hne].
  - by rewrite lookup_insert_eq.
  - by rewrite lookup_insert_ne.
Qed.

Lemma adjust_monotone target_score continuous fuel discrete :
  (∀ k, k ∈ item_keys → is_Some (continuous !! k)) →
  scores_over item_keys discrete →
  ∃ discrete',
    adjust target_score continuous fuel (dict_sum discrete) discrete = Ok discrete' ∧
    (dict_sum discrete ≤ target_score →
     dict_sum discrete' ≤ target_score ∧ ∀ k, score discrete k ≤ score discrete' k) ∧
    (target_score ≤ dict_sum discrete →
     target_score ≤ dict_sum discrete' ∧ ∀ k, score discrete' k ≤ score discrete k).
Proof.
  intros Hc. revert discrete.
  induction fuel as [|fuel IH]; intros discrete Hso.
  { exists discrete. split; [done|]. split; intros; (split; [done|]); intros; lia. }
  cbn [adjust].
  destruct (Z.eqb_spec (dict_sum discrete) target_score) as [Heq|Hne].
  { exists discrete. split; [done|]. split; intros; (split; [done|]); intros; lia. }
  destruct (Z.ltb_spec (dict_sum discrete) target_score) as [Hlt|Hge].
  - destruct (filter_r_total (λ k, d ← getitem discrete k; Ok (d <? 6)) item_keys)
      as (cands&Hcands&Hin).
    { intros k Hk. destruct (scores_over_lookup _ _ _ Hso Hk) as (d&Hd&_).
      exists (d <? 6). by rewrite (getitem_Some _ _ _ Hd). }
    rewrite Hcands, bind_Ok.
    destruct (decide (cands = [])) as [->|Hnil].
    { exists discrete. split; [done|]. split; intros; (split; [lia|]); intros; lia. }
    rewrite (match_nonempty cands) by done.
    destruct (py_max_elem cands (λ k, c ← getitem continuous k;
                                      d ← getitem discrete k;
                                      Ok (fsub c (float d))) Hnil)
      as (best&Hbest&Hbc).
    { intros k Hk. apply Hin in Hk as [Hk _]. by apply gap_key_total. }
    apply Hin in Hbc as [Hbi Hbt].
    destruct (scores_over_lookup _ _ _ Hso Hbi) as (d&Hd&Hdr).
    rewrite (getitem_Some _ _ _ Hd), bind_Ok in Hbt. injection Hbt as Hroom.
    apply Z.ltb_lt in Hroom.
    rewrite Hbest, bind_Ok, (getitem_Some _ _ _ Hd), bind_Ok.
    destruct (IH (<[best := d + 1]> discrete)) as (discrete'&Hrun&Hup&_).
    { apply scores_over_insert; [done..|lia]. }
    exists discrete'. split; [exact Hrun|].
    rewrite (dict_sum_insert _ _ _ _ Hd) in Hup.
    split; [intros _|intros; lia].
    destruct Hup as [Hs Hm]; [lia|]. split; [done|]. intros k.
    specialize (Hm k). rewrite score_insert in Hm.
    destruct (decide (best = k)) as [<-|]; [|done].
    unfold score at 1. rewrite Hd. simpl. lia.
  - destruct (filter_r_total (λ k, d ← getitem discrete k; Ok (0 <? d)) item_keys)
      as (cands&Hcands&Hin).
    { intros k Hk. destruct (scores_over_lookup _ _ _ Hso Hk) as (d&Hd&_).
      exists (0 <? d). by rewrite (getitem_Some _ _ _ Hd). }
    rewrite Hcands, bind_Ok.
    destruct (decide (cands = [])) as [->|Hnil].
    { exists discrete. split; [done|]. split; intros; (split; [lia|]); intros; lia. }
    rewrite (match_nonempty cands) by done.
    destruct (py_max_elem cands (λ k, d ← getitem discrete k;
                                      c ← getitem continuous k;
                                      Ok (fsub (float d) c)) Hnil)
      as (best&Hbest&Hbc).
    { intros k Hk. apply Hin in Hk as [Hk _]. by apply gap_key_total. }
    apply Hin in Hbc as [Hbi Hbt].
    destruct (scores_over_lookup _ _ _ Hso Hbi) as (d&Hd&Hdr).
    rewrite (getitem_Some _ _ _ Hd), bind_Ok in Hbt. injection Hbt as Hroom.
    apply Z.ltb_lt in Hroom.
    rewrite Hbest, bind_Ok, (getitem_Some _ _ _ Hd), bind_Ok.
    destruct (IH (<[best := d - 1]> discrete)) as (discrete'&Hrun&_&Hdown).
    { apply scores_over_insert; [done..|lia]. }
    exists discrete'. split; [exact Hrun|].
    rewrite (dict_sum_insert _ _ _ _ Hd) in Hdown.
    split; [intros; lia|intros _].
    destruct Hdown as [Hs Hm]; [lia|]. split; [done|]. intros k.
    specialize (Hm k). rewrite score_insert in Hm.
    destruct (decide (best = k)) as [<-|]; [|done].
    unfold score at 2. rewrite Hd. simpl. lia.
Qed.

Lemma adjust_at_target target_score continuous fuel (discrete : gmap string Z) :
  dict_sum discrete = target_score →
  adjust target_score continuous fuel (dict_sum discrete) discrete = Ok discrete.
Proof.
  intros Heq. destruct fuel as [|fuel]; [done|].
  cbn [adjust]. by rewrite Heq, Z.eqb_refl.
Qed.

(** X11. The adjustment loop moves every item in one direction only: from
    a sum below the target no item is lowered, from a sum above it no item
    is raised, and from a sum equal to the target the mapping is returned
    as it is; it never steps past the target.  This needs no bound on the
    target. *)
Theorem adjustment_loop_monotone target_score continuous discrete :
  (∀ k, k ∈ item_keys → is_Some (continuous !! k)) →
  scores_over item_keys discrete →
  ∃ discrete',
    adjustment_loop target_score continuous discrete = Ok discrete' ∧
    (dict_sum discrete ≤ target_score →
     dict_sum discrete' ≤ target_score ∧ ∀ k, score discrete k ≤ score discrete' k) ∧
    (target_score ≤ dict_sum discrete →
     target_score ≤ dict_sum discrete' ∧ ∀ k, score discrete' k ≤ score discrete k) ∧
    (dict_sum discrete = target_score → discrete' = discrete).
Proof.
  intros Hc Hso. unfold adjustment_loop.
  destruct (adjust_monotone target_score continuous 100 discrete Hc Hso)
    as (discrete'&Hrun&Hup&Hdown).
  exists discrete'. split; [done|]. split; [done|]. split; [done|].
  intros Heq. rewrite (adjust_at_target _ _ _ _ Heq) in Hrun. congruence.
Qed.

End LatentInside.

Section LatentDraws.
Context {F : Type} `{FloatOps F} (R : RandomState F).
Import Latent.

Lemma sample_loop_discretizes factor_scores items (continuous : gmap string F) h :
  length factor_scores = 4%nat → Forall configured items →
  ∃ continuous' h',
    for_each (sample_item R factor_scores) items
      (continuous, discretize <$> continuous) h
    = (Ok (continuous', discretize <$> continuous'), h').
Proof.
  intros Hl Hitems. revert continuous h.
  induction Hitems as [|item items Hitem _ IH]; intros continuous h.
  - by exists continuous, h.
  - destruct (sample_item_spec R factor_scores continuous (discretize <$> continuous)
                item h Hl Hitem) as (sampled&h1&Hstep&_).
    destruct (IH (<[item := sampled]> continuous) h1) as (continuous'&h'&Hrun).
    exists continuous', h'. cbn [for_each].
    erewrite M_bind_Ok; [|exact Hstep].
    rewrite fmap_insert in Hrun. exact Hrun.
Qed.

(** X12. The sampling stage keeps, for every one of the ten items, the
    continuous draw next to its discretization: the discrete mapping it
    hands to the adjustment loop is the continuous one, rounded and clamped
    to [0,6], key by key. *)
Theorem sample_items_discretizes target_score h :
  constructed R h →
  ∃ continuous discrete h',
    sample_items R target_score h = (Ok (continuous, discrete), h') ∧
    dom continuous = list_to_set item_keys ∧
    discrete = discretize <$> continuous.
Proof.
  intros Hc.
  destruct (sample_items_spec R target_score h Hc)
    as (continuous&discrete&h'&Hrun&Hcont&Hso&_).
  exists continuous, discrete, h'. split; [done|].
  unfold sample_items in Hrun.
  destruct (factor_means_total (fdiv (float target_score) (literal 10.0)))
    as (factor_means&Hmeans&Hlm).
  destruct (severity_scaled_cov_total R target_score h Hc) as [factor_cov Hcov].
  destruct (multivariate_normal R factor_means factor_cov (np_random R h))
    as [factor_scores r1] eqn:Hmvn.
  assert (length factor_scores = 4%nat) as Hl.
  { replace factor_scores
      with (multivariate_normal R factor_means factor_cov (np_random R h)).1
      by by rewrite Hmvn.
    by rewrite multivariate_normal_length. }
  rewrite Hmeans, lift_bind in Hrun. erewrite M_bind_Ok in Hrun; [|exact Hcov].
  erewrite M_bind_Ok in Hrun;
    [|unfold with_random, np_multivariate_normal; by rewrite Hmvn].
  destruct (sample_loop R factor_scores item_keys ∅ ∅
              {| self_base_factor_corr := self_base_factor_corr R h;
                 np_random := r1 |} Hl item_keys_configured in_range_empty)
    as (c1&d1&h1&Hrun1&Hdc&_).
  destruct (sample_loop_discretizes factor_scores item_keys ∅
              {| self_base_factor_corr := self_base_factor_corr R h;
                 np_random := r1 |} Hl item_keys_configured)
    as (c2&h2&Hrun2).
  rewrite fmap_empty in Hrun2.
  rewrite Hrun in Hrun1, Hrun2.
  injection Hrun1 as -> -> _. injection Hrun2 as -> -> _.
  split; [|done]. by rewrite Hdc, dom_empty_L, (left_id_L ∅ (∪)).
Qed.

(** X13. [_severity_scaled_cov] on any 4 by 4 matrix held by the generator:
    the returned matrix has every off-diagonal entry multiplied by the
    scale exactly once and the diagonal as it was, and the generator's own
    matrix is not written. *)
Theorem severity_scaled_cov_entries target_score h :
  length (self_base_factor_corr R h) = 4%nat →
  Forall (λ row, length row = 4%nat) (self_base_factor_corr R h) →
  _severity_scaled_cov R target_score h
  = (Ok (scale_off_diagonal (severity_scale target_score) (self_base_factor_corr R h)),
     h).
Proof.
  intros Hl Hrows. unfold _severity_scaled_cov. fold (severity_scale target_score).
  generalize (severity_scale target_score). intros scale.
  destruct (self_base_factor_corr R h) as [|r0 [|r1 [|r2 [|r3 [|? ?]]]]]; try done.
  apply Forall_cons in Hrows as [H0 Hrows]. apply Forall_cons in Hrows as [H1 Hrows].
  apply Forall_cons in Hrows as [H2 Hrows]. apply Forall_cons in Hrows as [H3 _].
  destruct r0 as [|? [|? [|? [|? [|? ?]]]]]; try done.
  destruct r1 as [|? [|? [|? [|? [|? ?]]]]]; try done.
  destruct r2 as [|? [|? [|? [|? [|? ?]]]]]; try done.
  destruct r3 as [|? [|? [|? [|? [|? ?]]]]]; try done.
Qed.

End LatentDraws.

Section RecordedStages.

Local Abbreviation R := Replay.random_state.

Lemma drawn_scores_over : scores_over item_keys (discretize <$> drawn).
Proof.
  split.
  - apply (bool_decide_unpack _). vm_compute. exact I.
  - apply (bool_decide_unpack _). vm_compute. exact I.
Qed.

Lemma drawn_items k : k ∈ item_keys → is_Some (drawn !! k).
Proof.
  revert k. apply Forall_forall. apply (bool_decide_unpack _). vm_compute. exact I.
Qed.

Lemma adjustment_loop_monotone_witness :
  let discrete := discretize <$> drawn in
  ∃ discrete',
    Latent.adjustment_loop 12 drawn discrete = Ok discrete' ∧
    (dict_sum discrete ≤ 12 →
     dict_sum discrete' ≤ 12 ∧ ∀ k, score discrete k ≤ score discrete' k) ∧
    (12 ≤ dict_sum discrete →
     12 ≤ dict_sum discrete' ∧ ∀ k, score discrete' k ≤ score discrete k) ∧
    (dict_sum discrete = 12 → discrete' = discrete).
Proof.
  apply (adjustment_loop_monotone 12 drawn (discretize <$> drawn)).
  - exact drawn_items.
  - exact drawn_scores_over.
Defined.

Lemma sample_items_discretizes_witness :
  ∃ continuous discrete h',
    Latent.sample_items R 30 (Replay.fresh Replay.recorded)
    = (Ok (continuous, discrete), h') ∧
    dom continuous = list_to_set item_keys ∧
    discrete = discretize <$> continuous.
Proof.
  apply (sample_items_discretizes R 30 (Replay.fresh Replay.recorded)).
  reflexivity.
Defined.

Lemma severity_scaled_cov_entries_witness :
  let h := Replay.fresh Replay.recorded in
  Latent._severity_scaled_cov R 12 h
  = (Ok (scale_off_diagonal (severity_scale 12) (Latent.self_base_factor_corr R h)), h).
Proof.
  apply (severity_scaled_cov_entries R 12 (Replay.fresh Replay.recorded)).
  - reflexivity.
  - repeat constructor.
Defined.

End RecordedStages.

(** ** The report of the checker *)

Section ReportFacts.
Context {F : Type} `{FloatOps F}.
Import Report.

Local Abbreviation report_row pid t a :=
  (λ v : string * string,
     {| profile_id := pid; target_score := t; actual_total_score := a;
        rule_type := v.1; rule := v.2 |}).

Lemma report_rows (row : gmap string Z) pid t a tagged vs0 :
  row !! "target_score" = Some t → row !! "actual_total_score" = Some a →
  for_each_pure (λ all_violations (v : string * string),
    t ← getitem row "target_score";
    a ← getitem row "actual_total_score";
    Ok (all_violations ++
        [ {| profile_id := pid; target_score := t; actual_total_score := a;
             rule_type := v.1; rule := v.2 |} ])) tagged vs0
  = Ok (vs0 ++ (report_row pid t a <$> tagged)).
Proof.
  intros Ht Ha. rewrite (getitem_Some _ _ _ Ht), (getitem_Some _ _ _ Ha).
  revert vs0. induction tagged as [|v tagged IH]; intros vs0.
  - simpl. by rewrite app_nil_r.
  - cbn [for_each_pure]. rewrite !bind_Ok, IH, fmap_cons, <-app_assoc. done.
Qed.

Lemma check_row_ok row vs g c :
  well_formed row →
  ∃ pid t a gen_v clin_v,
    row !! "profile_id" = Some pid ∧ row !! "target_score" = Some t ∧
    row !! "actual_total_score" = Some a ∧
    Violations.check_generating_rules row = Ok gen_v ∧
    Violations.check_clinical_rules row = Ok clin_v ∧
    check_row (vs, g, c) row
    = Ok (vs ++ (report_row pid t a
                   <$> (of_type "generating" gen_v ++ of_type "clinical" clin_v)),
          g + (if decide (gen_v = []) then 0 else 1),
          c + (if decide (clin_v = []) then 0 else 1)).
Proof.
  intros (Hc&[pid Hp]&[t Ht]&[a Ha]).
  destruct (check_generating_rules_run row Hc) as (s&_&_&_&Hg).
  rewrite (getitem_Some _ _ _ Ht), bind_Ok in Hg.
  destruct (complete_has_view row Hc) as [v Hv].
  pose proof (check_clinical_rules_row row v Hc Hv) as Hcl.
  exists pid, t, a, (generating_violations s t), (clinical_violations v).
  do 5 (split; [done|]).
  unfold check_row. rewrite (getitem_Some _ _ _ Hp), Hg, Hcl, !bind_Ok.
  cbv beta zeta. rewrite (report_rows row pid t a _ _ Ht Ha), bind_Ok.
  destruct (generating_violations s t), (clinical_violations v);
    rewrite ?decide_True by done; rewrite ?decide_False by done;
    by rewrite ?Z.add_0_r.
Qed.

(** A clean row leaves the accumulator as it is, and is not asked for
    its [actual_total_score]. *)
Lemma check_row_clean row acc :
  is_Some (row !! "profile_id") → clean row → check_row acc row = Ok acc.
Proof.
  intros [pid Hp] [Hg Hc]. destruct acc as [[vs g] c].
  unfold check_row. by rewrite (getitem_Some _ _ _ Hp), Hg, Hc.
Qed.

Lemma check_rows_clean df acc :
  Forall (λ row, is_Some (row !! "profile_id") ∧ clean row) df →
  for_each_pure check_row df acc = Ok acc.
Proof.
  induction 1 as [|row df [Hp Hc] _ IH]; [done|].
  cbn [for_each_pure]. by rewrite (check_row_clean row acc Hp Hc), bind_Ok.
Qed.

Lemma list_fmap_nil_iff {A B : Type} (f : A → B) (l : list A) :
  f <$> l = [] ↔ l = [].
Proof. by destruct l. Qed.

Lemma of_type_nil type rules : of_type type rules = [] ↔ rules = [].
Proof. unfold of_type. apply list_fmap_nil_iff. Qed.

Lemma check_rows_ok df vs g c :
  Forall well_formed df →
  ∃ vs' g' c',
    for_each_pure check_row df (vs, g, c) = Ok (vs ++ vs', g + g', c + c') ∧
    0 ≤ g' ≤ Z.of_nat (length df) ∧ 0 ≤ c' ≤ Z.of_nat (length df) ∧
    (vs' = [] ↔ Forall clean df) ∧
    (g' = 0 ∧ c' = 0 ↔ Forall clean df) ∧
    Forall (λ v, rule_type v = "generating"%string ∨ rule_type v = "clinical"%string) vs'.
Proof.
  intros Hdf. revert vs g c. induction Hdf as [|row df Hrow _ IH]; intros vs g c.
  - exists [], 0, 0. simpl. rewrite app_nil_r, !Z.add_0_r.
    split; [done|]. split; [lia|]. split; [lia|].
    split; [done|]. split; [done|]. constructor.
  - destruct (check_row_ok row vs g c Hrow)
      as (pid&t&a&gen_v&clin_v&Hp&Ht&Ha&Hg&Hc&Hstep).
    set (rows := report_row pid t a
                   <$> (of_type "generating" gen_v ++ of_type "clinical" clin_v)) in *.
    set (dg := if decide (gen_v = []) then 0 else 1) in *.
    set (dc := if decide (clin_v = []) then 0 else 1) in *.
    destruct (IH (vs ++ rows) (g + dg) (c + dc))
      as (vs'&g'&c'&Hrun&Hg'&Hc'&Hnil&Hzero&Htypes).
    exists (rows ++ vs'), (dg + g'), (dc + c').
    assert (0 ≤ dg ≤ 1) by (unfold dg; case_decide; lia).
    assert (0 ≤ dc ≤ 1) by (unfold dc; case_decide; lia).
    assert (rows = [] ↔ gen_v = [] ∧ clin_v = []) as Hrows.
    { unfold rows. by rewrite list_fmap_nil_iff, app_nil, !of_type_nil. }
    assert (clean row ↔ gen_v = [] ∧ clin_v = []) as Hclean.
    { unfold clean. rewrite Hg, Hc. split; [intros [[= ->] [= ->]]|intros [-> ->]]; done. }
    split; [|split; [|split; [|split; [|split]]]].
    + cbn [for_each_pure]. rewrite Hstep, bind_Ok, Hrun.
      by rewrite !Z.add_assoc, <-app_assoc.
    + cbn [length]. lia.
    + cbn [length]. lia.
    + rewrite app_nil, Forall_cons, Hnil, Hrows, Hclean. done.
    + rewrite Forall_cons, <-Hzero, Hclean. unfold dg, dc.
      repeat case_decide; intuition lia.
    + apply Forall_app. split; [|done]. unfold rows.
      rewrite fmap_app. apply Forall_app.
      unfold of_type. rewrite <-!list_fmap_compose.
      split; apply Forall_fmap, Forall_forall; intros r _; simpl; [by left|by right].
Qed.

Lemma count_by_rule_from (by_rule : gmap string Z) violations :
  dict_sum (foldl (λ by_rule v, <[rule v := default 0 (by_rule !! rule v) + 1]> by_rule)
                  by_rule violations)
  = dict_sum by_rule + Z.of_nat (length violations).
Proof.
  revert by_rule. induction violations as [|v violations IH]; intros by_rule.
  - simpl. lia.
  - cbn [foldl length]. rewrite IH, Nat2Z.inj_succ.
    destruct (by_rule !! rule v) as [c|] eqn:Hc; simpl.
    + rewrite (dict_sum_insert _ _ _ _ Hc). lia.
    + rewrite (dict_sum_insert_fresh _ _ _ Hc). lia.
Qed.

Lemma count_by_rule_total violations :
  dict_sum (count_by_rule violations) = Z.of_nat (length violations).
Proof. unfold count_by_rule. by rewrite count_by_rule_from, dict_sum_empty. Qed.

Lemma filter_by_type (vs : list violation) :
  Forall (λ v, rule_type v = "generating"%string ∨ rule_type v = "clinical"%string) vs →
  (length (filter (λ v, rule_type v = "generating"%string) vs)
   + length (filter (λ v, rule_type v = "clinical"%string) vs) = length vs)%nat.
Proof.
  induction 1 as [|v vs Hv _ IH]; [done|].
  rewrite !filter_cons. destruct Hv as [Hv|Hv]; rewrite Hv.
  - rewrite decide_True by done. rewrite decide_False by done. simpl. lia.
  - rewrite decide_False by done. rewrite decide_True by done. simpl. lia.
Qed.

Lemma true_div_nonzero a b : b ≠ 0 → ∃ x : F, true_div a b = Ok x.
Proof.
  intros Hb. unfold true_div. apply Z.eqb_neq in Hb. rewrite Hb. eauto.
Qed.

(** X14. [main] on a frame whose rows have the ten items and the three
    columns it reads: an empty frame raises [ZeroDivisionError] at the
    first percentage; otherwise the summary counts every row, each counter
    is between 0 and the number of rows, the report file is written
    exactly when some row is not clean, which is exactly when a counter is
    positive, and the counts by rule add up to the rows of the report. *)
Theorem main_summary (df : list (gmap string Z)) :
  Forall well_formed df →
  (main (F := F) df = Raise ZeroDivisionError ↔ df = []) ∧
  (df ≠ [] →
   ∃ s : summary F,
     main df = Ok s ∧
     n s = Z.of_nat (length df) ∧
     0 ≤ profiles_with_gen_violations s ≤ n s ∧
     0 ≤ profiles_with_clin_violations s ≤ n s ∧
     (report s = None ↔ Forall clean df) ∧
     (profiles_with_gen_violations s = 0 ∧ profiles_with_clin_violations s = 0
      ↔ Forall clean df) ∧
     dict_sum (gen_by_rule s) + dict_sum (clin_by_rule s)
     = Z.of_nat (length (default [] (report s)))).
Proof.
  intros Hdf.
  assert (df ≠ [] →
    ∃ s : summary F,
      main df = Ok s ∧
      n s = Z.of_nat (length df) ∧
      0 ≤ profiles_with_gen_violations s ≤ n s ∧
      0 ≤ profiles_with_clin_violations s ≤ n s ∧
      (report s = None ↔ Forall clean df) ∧
      (profiles_with_gen_violations s = 0 ∧ profiles_with_clin_violations s = 0
       ↔ Forall clean df) ∧
      dict_sum (gen_by_rule s) + dict_sum (clin_by_rule s)
      = Z.of_nat (length (default [] (report s)))) as Hsome; [|split; [|done]].
  - intros Hne.
    destruct (check_rows_ok df [] 0 0 Hdf) as (vs&g&c&Hrun&Hg&Hc&Hnil&Hzero&Htypes).
    rewrite app_nil_l, !Z.add_0_l in Hrun.
    assert (Z.of_nat (length df) ≠ 0) as Hn by (destruct df; [done|simpl; lia]).
    destruct (true_div_nonzero (100 * g) _ Hn) as [pg Hpg].
    destruct (true_div_nonzero (100 * c) _ Hn) as [pc Hpc].
    eexists. split.
    { unfold main. rewrite Hrun, bind_Ok. cbv beta iota zeta.
      rewrite Hpg, bind_Ok, Hpc, bind_Ok. reflexivity. }
    cbn [n profiles_with_gen_violations profiles_with_clin_violations report
         gen_by_rule clin_by_rule].
    split; [done|]. split; [done|]. split; [done|]. split; [|split; [done|]].
    + rewrite <-Hnil. by destruct vs.
    + rewrite !count_by_rule_total, <-Nat2Z.inj_add, (filter_by_type vs Htypes).
      by destruct vs.
  - split; [|by intros ->].
    intros Hraise. destruct (decide (df = [])) as [|Hne]; [done|].
    destruct (Hsome Hne) as (s&Hs&_). congruence.
Qed.

(** X15. [main] reads [actual_total_score] only while it records a
    violation: a frame of clean rows is summarised without that column,
    and the first row that has a violation and lacks the column raises
    [KeyError] for it. *)
Theorem actual_total_read_on_violation (df : list (gmap string Z)) row rest :
  Forall (λ row, is_Some (row !! "profile_id") ∧ clean row) df →
  complete row → is_Some (row !! "profile_id") →
  is_Some (row !! "target_score") → row !! "actual_total_score" = None →
  ¬ clean row →
  (df ≠ [] → ∃ s : summary F, main df = Ok s ∧ report s = None) ∧
  main (F := F) (df ++ row :: rest) = Raise (KeyError "actual_total_score").
Proof.
  intros Hdf Hc [pid Hp] [t Ht] Ha Hdirty. split.
  - intros Hne.
    assert (Z.of_nat (length df) ≠ 0) as Hn by (destruct df; [done|simpl; lia]).
    destruct (true_div_nonzero (100 * 0) _ Hn) as [p0 Hp0].
    eexists. split; [|shelve].
    unfold main. rewrite (check_rows_clean df _ Hdf), bind_Ok. cbv beta iota zeta.
    rewrite Hp0, !bind_Ok. reflexivity.
    Unshelve. reflexivity.
  - unfold main.
    assert (for_each_pure check_row (df ++ row :: rest) ([], 0, 0)
            = Raise (KeyError "actual_total_score")) as ->; [|done].
    assert (∀ acc, for_each_pure check_row (df ++ row :: rest) acc
                   = (acc ← check_row acc row; for_each_pure check_row rest acc)) as ->.
    { induction Hdf as [|r df [Hrp Hrc] _ IH]; intros acc; [done|].
      rewrite <-app_comm_cons. cbn [for_each_pure].
      by rewrite (check_row_clean r acc Hrp Hrc), bind_Ok. }
    destruct (check_generating_rules_run row Hc) as (s&_&_&_&Hg).
    rewrite (getitem_Some _ _ _ Ht), bind_Ok in Hg.
    destruct (complete_has_view row Hc) as [v Hv].
    pose proof (check_clinical_rules_row row v Hc Hv) as Hcl.
    unfold check_row. rewrite (getitem_Some _ _ _ Hp), Hg, Hcl, !bind_Ok.
    cbv beta zeta.
    assert (of_type "generating" (generating_violations s t)
            ++ of_type "clinical" (clinical_violations v) ≠ []) as Hne.
    { rewrite app_nil, !of_type_nil. intros [Eg Ec]. apply Hdirty.
      unfold clean. by rewrite Hg, Hcl, Eg, Ec. }
    destruct (of_type "generating" _ ++ of_type "clinical" _) as [|v0 tagged]; [done|].
    cbn [for_each_pure]. by rewrite (getitem_Some _ _ _ Ht), bind_Ok, (getitem_None _ _ Ha).
Qed.

End ReportFacts.

Section RecordedRows.
Import Report.

Lemma clean_row_well_formed : well_formed clean_row.
Proof.
  split; [|split; [|split]].
  - by do 3 apply complete_insert; apply complete_profile_of.
  - decide_by_run.
  - decide_by_run.
  - decide_by_run.
Qed.

Lemma dirty_row_well_formed : well_formed dirty_row.
Proof.
  split; [|split; [|split]].
  - by do 3 apply complete_insert; apply complete_profile_of.
  - decide_by_run.
  - decide_by_run.
  - decide_by_run.
Qed.

Lemma clean_row_clean : clean clean_row.
Proof. split; run. Qed.

Lemma dirty_row_dirty : ¬ clean (delete "actual_total_score" dirty_row).
Proof. intros [E _]. vm_compute in E. discriminate. Qed.

Lemma main_summary_witness :
  let df := [clean_row; dirty_row] in
  (main (F := Q) df = Raise ZeroDivisionError ↔ df = []) ∧
  (df ≠ [] →
   ∃ s : summary Q,
     main df = Ok s ∧
     n s = Z.of_nat (length df) ∧
     0 ≤ profiles_with_gen_violations s ≤ n s ∧
     0 ≤ profiles_with_clin_violations s ≤ n s ∧
     (report s = None ↔ Forall clean df) ∧
     (profiles_with_gen_violations s = 0 ∧ profiles_with_clin_violations s = 0
      ↔ Forall clean df) ∧
     dict_sum (gen_by_rule s) + dict_sum (clin_by_rule s)
     = Z.of_nat (length (default [] (report s)))).
Proof.
  apply (main_summary (F := Q) [clean_row; dirty_row]).
  constructor; [exact clean_row_well_formed|].
  constructor; [exact dirty_row_well_formed|constructor].
Defined.

Lemma actual_total_read_on_violation_witness :
  let df := [delete "actual_total_score" clean_row] in
  let row := delete "actual_total_score" dirty_row in
  (df ≠ [] → ∃ s : summary Q, main df = Ok s ∧ report s = None) ∧
  main (F := Q) (df ++ row :: [clean_row]) = Raise (KeyError "actual_total_score").
Proof.
  apply (actual_total_read_on_violation (F := Q)
           [delete "actual_total_score" clean_row]
           (delete "actual_total_score" dirty_row) [clean_row]).
  - constructor; [|constructor]. split; [decide_by_run|]. split; run.
  - apply (bool_decide_unpack _). vm_compute. exact I.
  - decide_by_run.
  - decide_by_run.
  - run.
  - exact dirty_row_dirty.
Defined.

End RecordedRows.

(** ** The header of the combined file *)

Section CombinedFacts.
Import Combined.

Local Abbreviation add_key :=
  (λ '((all_keys, seen) : list string * gset string) (k : string),
     if decide (k ∈ seen) then (all_keys, seen)
     else (all_keys ++ [k], {[k]} ∪ seen)).

Lemma add_keys (p ks : list string) (seen : gset string) :
  seen = list_to_set ks → NoDup ks →
  ∃ ks', foldl add_key (ks, seen) p = (ks', list_to_set ks') ∧
         NoDup ks' ∧ ks `prefix_of` ks' ∧
         (∀ k, k ∈ ks' ↔ k ∈ ks ∨ k ∈ p) ∧
         (NoDup p → (∀ k, k ∈ p → k ∉ ks) → ks' = ks ++ p).
Proof.
  revert ks seen. induction p as [|k p IH]; intros ks seen -> Hnd.
  - exists ks. split; [done|]. split; [done|]. split; [done|].
    split; [|intros _ _; by rewrite app_nil_r].
    intros k. rewrite elem_of_nil. tauto.
  - cbn [foldl]. destruct (decide (k ∈ list_to_set (C := gset string) ks)) as [Hin|Hnin].
    + destruct (IH ks (list_to_set ks) eq_refl Hnd) as (ks'&Hrun&Hnd'&Hpre&Hmem&_).
      exists ks'. split; [done|]. split; [done|]. split; [done|]. split.
      * intros k'. rewrite Hmem, elem_of_cons. apply elem_of_list_to_set in Hin.
        split; [tauto|]. intros [?|[->|?]]; tauto.
      * intros _ Hfresh. exfalso. apply (Hfresh k); [left|].
        by apply elem_of_list_to_set in Hin.
    + rewrite elem_of_list_to_set in Hnin.
      destruct (IH (ks ++ [k]) ({[k]} ∪ list_to_set ks)) as (ks'&Hrun&Hnd'&Hpre&Hmem&Hord).
      { rewrite list_to_set_app_L. simpl. set_solver. }
      { apply NoDup_app. split; [done|]. split; [|apply NoDup_singleton].
        intros k' Hk' E%list_elem_of_singleton. by subst. }
      exists ks'. split; [done|]. split; [done|]. split; [|split].
      * etrans; [|exact Hpre]. by apply prefix_app_r.
      * intros k'. rewrite Hmem, elem_of_app, list_elem_of_singleton, elem_of_cons. tauto.
      * intros Hp Hfresh. apply NoDup_cons in Hp as [Hkp Hp].
        rewrite Hord, <-app_assoc; [done|done|].
        intros k' Hk' [?|E%list_elem_of_singleton]%elem_of_app; [|by subst].
        apply (Hfresh k'); [by right|done].
Qed.

Lemma add_profiles (profiles : list (list string)) (ks : list string) :
  NoDup ks →
  ∃ ks', foldl (λ acc p, foldl add_key acc p) (ks, list_to_set ks) profiles
         = (ks', list_to_set ks') ∧
         NoDup ks' ∧ ks `prefix_of` ks' ∧
         (∀ k, k ∈ ks' ↔ k ∈ ks ∨ ∃ p, p ∈ profiles ∧ k ∈ p).
Proof.
  revert ks. induction profiles as [|p profiles IH]; intros ks Hnd.
  - exists ks. split; [done|]. split; [done|]. split; [done|].
    intros k. split; [by left|]. intros [?|(p&Hp&_)]; [done|].
    by apply elem_of_nil in Hp.
  - cbn [foldl].
    destruct (add_keys p ks (list_to_set ks) eq_refl Hnd) as (ks1&->&Hnd1&Hpre1&Hmem1&_).
    destruct (IH ks1 Hnd1) as (ks'&Hrun&Hnd'&Hpre&Hmem).
    exists ks'. split; [done|]. split; [done|]. split; [by etrans|].
    intros k. rewrite Hmem, Hmem1. split.
    + intros [[?|?]|(q&Hq&?)]; [by left|right; exists p; split; [left|done]|].
      right. exists q. split; [by right|done].
    + intros [?|(q&[->|Hq]%elem_of_cons&?)]; [by left; left|by left; right|].
      right. by exists q.
Qed.

(** X16. The header of the combined file has every key of every profile
    exactly once, and nothing else; the keys of the first profile come
    first, in its own order. *)
Theorem all_keys_union (all_profiles : list (list string)) :
  NoDup (all_keys all_profiles) ∧
  (∀ k, k ∈ all_keys all_profiles ↔ ∃ p, p ∈ all_profiles ∧ k ∈ p) ∧
  (∀ p rest, all_profiles = p :: rest → NoDup p → p `prefix_of` all_keys all_profiles).
Proof.
  destruct (add_profiles all_profiles [] NoDup_nil_2) as (ks&Hrun&Hnd&_&Hmem).
  assert (all_keys all_profiles = ks) as -> by exact (f_equal fst Hrun).
  split; [done|]. split.
  - intros k. rewrite Hmem, elem_of_nil. tauto.
  - intros p rest -> Hp. cbn [foldl] in Hrun.
    destruct (add_keys p [] (list_to_set []) eq_refl NoDup_nil_2)
      as (ks1&Hrun1&Hnd1&_&_&Hord).
    rewrite Hrun1 in Hrun. rewrite (Hord Hp) in Hrun.
    + destruct (add_profiles rest p Hp) as (ks2&Hrun2&_&Hpre&_).
      simpl in Hrun. rewrite Hrun2 in Hrun. by injection Hrun as <-.
    + intros k _. apply not_elem_of_nil.
Qed.

End CombinedFacts.

(** ** The severity bands *)

(** X17. Every profile of ten items in [0,6] gets a severity band, the one
    the documented cutoffs give its total (0 to 19, 20 to 34, 35 to 60);
    a total is left without a band only below 0 or above 60. *)
Theorem severity_band_of_profile (scores : gmap string Z) (total : Z) :
  scores_over item_keys scores →
  Analysis.severity_band (dict_sum scores) = Some (documented_band (dict_sum scores)) ∧
  (Analysis.severity_band total = None ↔ total < 0 ∨ 60 < total).
Proof.
  intros Hso. pose proof (dict_sum_bounds scores 0 6 (proj2 Hso)) as Hb.
  rewrite (scores_over_size _ _ item_keys_NoDup Hso) in Hb. simpl in Hb.
  unfold Analysis.severity_band, Analysis.BAND_BINS, Analysis.BAND_LABELS,
    documented_band. cbn [Analysis.cut]. split.
  - destruct (Z.ltb_spec (-1) (dict_sum scores)); [|lia].
    destruct (Z.leb_spec (dict_sum scores) 19); simpl; [done|].
    destruct (Z.ltb_spec 19 (dict_sum scores)); [|lia].
    destruct (Z.leb_spec (dict_sum scores) 34); simpl; [done|].
    destruct (Z.ltb_spec 34 (dict_sum scores)); [|lia].
    destruct (Z.leb_spec (dict_sum scores) 60); simpl; [done|lia].
  - destruct (Z.ltb_spec (-1) total), (Z.leb_spec total 19),
      (Z.ltb_spec 19 total), (Z.leb_spec total 34),
      (Z.ltb_spec 34 total), (Z.leb_spec total 60); simpl;
      split; intros; try done; lia.
Qed.

Lemma severity_band_of_profile_witness :
  let scores := profile_of [3; 3; 4; 2; 1; 2; 3; 4; 3; 1] in
  Analysis.severity_band (dict_sum scores) = Some (documented_band (dict_sum scores)) ∧
  (Analysis.severity_band 61 = None ↔ 61 < 0 ∨ 60 < 61).
Proof.
  apply (severity_band_of_profile (profile_of [3; 3; 4; 2; 1; 2; 3; 4; 3; 1]) 61).
  split.
  - apply (bool_decide_unpack _). vm_compute. exact I.
  - decide_by_run.
Defined.

(** ** The run driver of the flat sampler *)

Section RunFacts.
Context {F : Type} `{FloatOps F} (R : RandomState F) (P : PyRandom F).
Variable PERSONAS : list (gmap string cell).
Variable COMMUNICATION_STYLES : list string.
Variable random_seed : Z → py_rng P.
Variable np_random_seed : Z → rng R.
Variable int_of_str : string → result Z.
Import HopkinsRun.

Local Abbreviation Streams := (HopkinsRun.Streams R P).
Local Abbreviation profile_row :=
  (HopkinsRun.profile_row R P PERSONAS COMMUNICATION_STYLES int_of_str).
Local Abbreviation generate_profiles :=
  (HopkinsRun.generate_profiles R P PERSONAS COMMUNICATION_STYLES
     random_seed np_random_seed int_of_str).

Lemma M_bind_Raise {S A B : Type} (m : M S A) (f : A → M S B) s e s' :
  m s = (Raise e, s') → (m ≫= f) s = (Raise e, s').
Proof. intros E. unfold mbind, M_bind. by rewrite E. Qed.

Lemma random_choice_elem {A : Type} (seq : list A) (st : Streams) :
  seq ≠ [] →
  ∃ x p', random_choice R P seq st = (Ok x, (p', st.2)) ∧ x ∈ seq.
Proof.
  intros Hne. unfold random_choice.
  destruct (randbelow P (length seq) st.1) as [i p'] eqn:Hi.
  assert (i < length seq)%nat as Hlt.
  { replace i with (randbelow P (length seq) st.1).1 by by rewrite Hi.
    apply randbelow_lt. destruct seq; [done|simpl; lia]. }
  destruct (lookup_lt_is_Some_2 seq i Hlt) as [x Hx].
  exists x, p'. split.
  - destruct seq; [done|]. unfold index_get. by rewrite Hx.
  - by eapply list_elem_of_lookup_2.
Qed.

(** The item columns are written over the literal, key by key. *)
Lemma row_items (row0 : gmap string cell) (scores_dict : gmap string Z) k :
  map_fold (λ item_key score_val row, <[item_key := Int score_val]> row)
           row0 scores_dict !! k
  = match scores_dict !! k with
    | Some v => Some (Int v)
    | None => row0 !! k
    end.
Proof.
  apply (map_fold_weak_ind
           (λ row (m : gmap string Z),
              row !! k = match m !! k with Some v => Some (Int v) | None => row0 !! k end)).
  - by rewrite lookup_empty.
  - intros i x m row Hi IH. destruct (decide (i = k)) as [->|Hne].
    + by rewrite !lookup_insert_eq.
    + by rewrite !lookup_insert_ne.
Qed.

Lemma int_columns_lookup (row : gmap string cell) k n :
  row !! k = Some (Int n) → int_columns row !! k = Some n.
Proof. intros Hk. unfold int_columns. by rewrite lookup_omap, Hk. Qed.

Lemma not_item k : k ∉ item_keys → ∀ scores, scores_over item_keys scores →
  scores !! k = None.
Proof.
  intros Hk scores [Hd _]. apply not_elem_of_dom. rewrite Hd.
  by rewrite elem_of_list_to_set.
Qed.

Ltac literal_lookup :=
  unfold dict; cbn [foldl fst snd];
  repeat (rewrite lookup_insert_ne by done); by rewrite lookup_insert_eq.

Lemma profile_row_spec (i : nat) (st : Streams) :
  PERSONAS ≠ [] → COMMUNICATION_STYLES ≠ [] →
  Forall (usable_persona int_of_str) PERSONAS →
  ∃ row st', profile_row i st = (Ok row, st') ∧ row_of_profile i row.
Proof.
  intros Hp Hs Hu. unfold HopkinsRun.profile_row.
  destruct (random_choice_elem PERSONAS st Hp) as (persona&p1&Hc1&Hin).
  rewrite Forall_forall in Hu.
  destruct (Hu persona Hin) as ([name Hname]&(c&age&Hc&Hage)&[occ Hocc]&[life Hlife]).
  erewrite M_bind_Ok; [|exact Hc1].
  destruct (random_choice_elem COMMUNICATION_STYLES (p1, st.2) Hs) as (style&p2&Hc2&_).
  erewrite M_bind_Ok; [|exact Hc2]. cbn [snd].
  destruct (gauss P (float 25) (float 11) p2) as [x p3] eqn:Hg.
  erewrite M_bind_Ok; [|unfold random_gauss; cbn [fst snd]; by rewrite Hg].
  cbv zeta. set (target_score := Z.max 5 (Z.min 55 (round_int x))).
  assert (5 ≤ target_score ≤ 55) as Ht by (unfold target_score; lia).
  destruct (generate_spec R target_score st.2) as (scores&r'&Hrun&Hso&Hsum).
  apply (proj1 (scores_over_by_factor _)) in Hso.
  assert (dict_sum scores = target_score) as Hsum' by (rewrite Hsum; lia).
  erewrite M_bind_Ok; [|unfold with_np; cbn [fst snd]; by rewrite Hrun].
  rewrite (getitem_Some _ _ _ Hname), lift_bind.
  rewrite (getitem_Some _ _ _ Hc), bind_Ok, Hage, lift_bind.
  rewrite (getitem_Some _ _ _ Hocc), lift_bind.
  rewrite (getitem_Some _ _ _ Hlife), lift_bind.
  eexists _, _. split; [reflexivity|].
  assert (∀ k, k ∉ item_keys → scores !! k = None) as Hother.
  { intros k Hk. by apply (not_item k Hk). }
  split; [|split].
  - rewrite row_items, Hother by decide_by_run. literal_lookup.
  - rewrite row_items, Hother by decide_by_run. literal_lookup.
  - exists target_score, scores. split; [done|].
    assert (∀ k, k ∈ item_keys →
              map_fold (λ item_key score_val row, <[item_key := Int score_val]> row)
                (dict [ ("profile_id", Int (Z.of_nat i));
                        ("scale", Str "madrs");
                        ("persona_name", name);
                        ("persona_age", Int age);
                        ("persona_occupation", occ);
                        ("persona_life_situation", life);
                        ("communication_style", Str style);
                        ("target_score", Int target_score);
                        ("actual_total_score", Int (dict_sum scores)) ]%string)
                scores !! k
              = Int <$> scores !! k) as Hitems.
    { intros k Hk. rewrite row_items.
      by destruct (scores_over_lookup _ _ _ Hso Hk) as (v&->&_). }
    split; [|split; [|split; [done|split; [done|split; [exact Hitems|]]]]].
    + rewrite row_items, Hother by decide_by_run. literal_lookup.
    + rewrite row_items, Hother by decide_by_run. rewrite Hsum'. literal_lookup.
    + apply (exact_row_checked _ scores target_score Hso Hsum').
      * intros k Hk. unfold int_columns. rewrite lookup_omap, (Hitems k Hk).
        by destruct (scores !! k).
      * apply int_columns_lookup.
        rewrite row_items, Hother by decide_by_run. literal_lookup.
Qed.

Lemma profile_rows_spec (n a : nat) profiles (st : Streams) :
  PERSONAS ≠ [] → COMMUNICATION_STYLES ≠ [] →
  Forall (usable_persona int_of_str) PERSONAS →
  ∃ rows st',
    for_each (λ profiles i, row ← profile_row i; mret (profiles ++ [row]))
             (seq a n) profiles st
    = (Ok (profiles ++ rows), st') ∧
    length rows = n ∧
    ∀ j row, rows !! j = Some row → row_of_profile (a + j) row.
Proof.
  intros Hp Hs Hu. revert a profiles st.
  induction n as [|n IH]; intros a profiles st.
  - exists [], st. rewrite app_nil_r. split; [done|]. split; [done|].
    intros j row Hj. by rewrite lookup_nil in Hj.
  - destruct (profile_row_spec a st Hp Hs Hu) as (row&st1&Hrow&Hprops).
    destruct (IH (S a) (profiles ++ [row]) st1) as (rows&st'&Hrun&Hlen&Hrows).
    exists (row :: rows), st'. split; [|split].
    + cbn [seq for_each]. erewrite M_bind_Ok.
      * rewrite Hrun. by rewrite <-app_assoc.
      * erewrite M_bind_Ok; [|exact Hrow]. reflexivity.
    + simpl. by rewrite Hlen.
    + intros [|j] row' Hj.
      * injection Hj as <-. by rewrite Nat.add_0_r.
      * rewrite Nat.add_succ_r. apply (Hrows j row' Hj).
Qed.

(** X18. With at least one persona and one style, and personas that have
    the four fields the driver reads, [generate_profiles] returns exactly
    [n_profiles] rows (none for a non-positive count); row [i] has profile
    id [i], a target between 5 and 55, an actual total equal to the
    target, the ten items in [0,6] summing to it, and its integer columns
    draw neither the range nor the total violation from
    [check_generating_rules]. *)
Theorem generate_profiles_rows (n_profiles seed : Z) (st : Streams) :
  PERSONAS ≠ [] → COMMUNICATION_STYLES ≠ [] →
  Forall (usable_persona int_of_str) PERSONAS →
  ∃ profiles st',
    generate_profiles n_profiles seed st = (Ok profiles, st') ∧
    length profiles = Z.to_nat n_profiles ∧
    ∀ i row, profiles !! i = Some row → row_of_profile i row.
Proof.
  intros Hp Hs Hu. unfold HopkinsRun.generate_profiles.
  destruct (profile_rows_spec (Z.to_nat n_profiles) 0 []
              (random_seed seed, np_random_seed seed) Hp Hs Hu)
    as (rows&st'&Hrun&Hlen&Hrows).
  exists rows, st'. split; [exact Hrun|]. split; [done|]. exact Hrows.
Qed.

(** X19. With no persona, or with no communication style, the driver
    raises [IndexError] from [random.choice] on the first profile it is
    asked for, before any score is generated. *)
Theorem generate_profiles_empty_config (n_profiles seed : Z) (st : Streams) :
  PERSONAS = [] ∨ COMMUNICATION_STYLES = [] → 0 < n_profiles →
  ∃ st', generate_profiles n_profiles seed st = (Raise IndexError, st') ∧
         st'.2 = np_random_seed seed.
Proof.
  intros Hempty Hn. unfold HopkinsRun.generate_profiles.
  destruct (Z.to_nat n_profiles) as [|n] eqn:En; [lia|].
  cbn [seq for_each].
  assert (∃ st1, profile_row 0 (random_seed seed, np_random_seed seed)
                 = (Raise IndexError, st1) ∧ st1.2 = np_random_seed seed)
    as (st1&Hrow&Hst1).
  { unfold HopkinsRun.profile_row.
    destruct (decide (PERSONAS = [])) as [Ep|Hp].
    - eexists. split; [apply M_bind_Raise; by rewrite Ep|done].
    - destruct Hempty as [?|Es]; [done|].
      destruct (random_choice_elem PERSONAS
                  (random_seed seed, np_random_seed seed) Hp) as (persona&p1&Hc1&_).
      eexists. split.
      + erewrite M_bind_Ok; [|exact Hc1]. apply M_bind_Raise. by rewrite Es.
      + done. }
  exists st1. split; [|done].
  by rewrite (M_bind_Raise _ _ _ _ _ (M_bind_Raise _ _ _ _ _ Hrow)).
Qed.

End RunFacts.

Section RecordedRun.

Local Abbreviation R := Replay.random_state.
Local Abbreviation P := ReplayPy.random.

Lemma recorded_personas_usable :
  Forall (usable_persona ReplayPy.int_of_str) ReplayPy.personas.
Proof.
  constructor; [|constructor; [|constructor]].
  - split; [decide_by_run|]. split; [eexists _, _; split; run|].
    split; decide_by_run.
  - split; [decide_by_run|]. split; [eexists _, _; split; run|].
    split; decide_by_run.
Qed.

Lemma generate_profiles_rows_witness :
  ∃ profiles st',
    HopkinsRun.generate_profiles R P ReplayPy.personas ReplayPy.styles
      (λ _, ReplayPy.draws) (λ _, Replay.recorded) ReplayPy.int_of_str 3 42
      (ReplayPy.draws, Replay.recorded)
    = (Ok profiles, st') ∧
    length profiles = Z.to_nat 3 ∧
    ∀ i row, profiles !! i = Some row → row_of_profile i row.
Proof.
  apply (generate_profiles_rows R P ReplayPy.personas ReplayPy.styles
           (λ _, ReplayPy.draws) (λ _, Replay.recorded) ReplayPy.int_of_str 3 42
           (ReplayPy.draws, Replay.recorded)).
  - done.
  - done.
  - exact recorded_personas_usable.
Defined.

Lemma generate_profiles_empty_config_witness :
  ∃ st',
    HopkinsRun.generate_profiles R P [] ReplayPy.styles
      (λ _, ReplayPy.draws) (λ _, Replay.recorded) ReplayPy.int_of_str 3 42
      (ReplayPy.draws, Replay.recorded)
    = (Raise IndexError, st') ∧
    st'.2 = Replay.recorded.
Proof.
  apply (generate_profiles_empty_config R P [] ReplayPy.styles
           (λ _, ReplayPy.draws) (λ _, Replay.recorded) ReplayPy.int_of_str 3 42
           (ReplayPy.draws, Replay.recorded)).
  - by left.
  - lia.
Defined.

End RecordedRun.

Section LatentDrawsTaken.
Context {F : Type} `{FloatOps F} (R : RandomState F).
Import Latent.


End LatentDrawsTaken.

